(** * rest-on-dynamo: the result envelope, the error classifier, the
    update-expression builder, the class decorator and the REST client
    over DynamoDB.

    The development follows the layout of the TypeScript sources:
    - [src/result.ts]  : enums, [Err], [Ok], [Result] and their builders;
    - [src/utils.ts]   : [prereqWith] and [parseDynamoUpdateArgs];
    - [src/client.ts]  : [RestOnDynamoClient] and its six verbs.

    JavaScript objects are association lists in property order (array
    indices first, then the other names as created); the override table
    of the error builder is a finite map of its own entries, read as the
    plain object it is, members of [Object.prototype] included; the
    DynamoDB service is a record of operations over an abstract table
    state; and a verb is a computation that threads the client's cached
    key schema and the table state, and writes down every exchange with
    the service. *)

From Stdlib Require Import ZArith Sorted.
From stdpp Require Import base strings list gmap.

Set Warnings "-register-all".
Open Scope Z_scope.

(* ------------------------------------------------------------------ *)
(** ** JavaScript values and objects *)
(* ------------------------------------------------------------------ *)

(** Attribute values are opaque to the library: it copies them around and
    never computes on them. *)
Inductive JSValue : Type :=
| JSNull
| JSBoolean (b : bool)
| JSNumber (n : Z)
| JSString (s : string)
| JSObj (props : list (string * JSValue)).

(** An object is the list of its own enumerable string-keyed properties in
    the order [Object.entries] walks them: the names that are array
    indices first, in ascending numeric order, then the other names in the
    order they were created.  Names are pairwise distinct.  The prototype
    of an object is not part of this model. *)
Abbreviation JSObject := (list (string * JSValue)).

Definition Object_entries (o : JSObject) : list (string * JSValue) := o.

Definition Object_keys (o : JSObject) : list string := (Object_entries o).*1.

(** The value of a string of decimal digits. *)
Fixpoint digits (s : string) (acc : N) : option N :=
  match s with
  | EmptyString => Some acc
  | String c r =>
      let d := Ascii.N_of_ascii c in
      if ((48 <=? d) && (d <=? 57))%N then digits r (10 * acc + (d - 48))%N
      else None
  end.

(** A property name is an array index when it is the canonical decimal
    form of an integer from [0] to [2^32 - 2]. *)
Definition array_index (k : string) : option N :=
  if String.eqb k "0" then Some 0%N
  else if String.prefix "0" k then None
  else if String.eqb k "" then None
  else
    match digits k 0 with
    | Some n => if (n <? 4294967295)%N then Some n else None
    | None => None
    end.

(** [o[k]] restricted to own properties. *)
Fixpoint obj_get (o : JSObject) (k : string) : option JSValue :=
  match o with
  | [] => None
  | (k', v) :: o' => if String.eqb k' k then Some v else obj_get o' k
  end.

(** The value of an existing own property is replaced where it stands. *)
Fixpoint obj_replace (o : JSObject) (k : string) (v : JSValue) : JSObject :=
  match o with
  | [] => []
  | (k', v') :: o' =>
      if String.eqb k' k then (k', v) :: o' else (k', v') :: obj_replace o' k v
  end.

(** A new array index [n] goes after the smaller indices and before
    everything else. *)
Fixpoint obj_insert_index (n : N) (k : string) (v : JSValue) (o : JSObject) : JSObject :=
  match o with
  | [] => [(k, v)]
  | (k', v') :: o' =>
      match array_index k' with
      | Some m =>
          if (m <? n)%N then (k', v') :: obj_insert_index n k v o'
          else (k, v) :: o
      | None => (k, v) :: o
      end
  end.

(** Defining the own property [k] of [o] (a property of an object
    literal, a parsed JSON member): an existing property keeps its
    position, a new array index is put in numeric order, any other new
    name goes last. *)
Definition obj_define (o : JSObject) (k : string) (v : JSValue) : JSObject :=
  match obj_get o k with
  | Some _ => obj_replace o k v
  | None =>
      match array_index k with
      | Some n => obj_insert_index n k v o
      | None => o ++ [(k, v)]
      end
  end.

(** [o[k] = v] on a plain object.  Assigning to [__proto__] goes to the
    setter inherited from [Object.prototype]: no own property is created
    or changed. *)
Definition obj_set (o : JSObject) (k : string) (v : JSValue) : JSObject :=
  if String.eqb k "__proto__" then o else obj_define o k v.

(** The object that has the properties [props], created in this order:
    [{ [k1]: v1, [k2]: v2, ... }]. *)
Definition object_of (props : list (string * JSValue)) : JSObject :=
  fold_left (fun o kv => obj_define o kv.1 kv.2) props [].

(** The properties whose names are array indices, and the others. *)
Definition index_named (props : list (string * JSValue)) : list (string * JSValue) :=
  filter (fun kv => is_Some (array_index kv.1)) props.

Definition otherwise_named (props : list (string * JSValue)) : list (string * JSValue) :=
  filter (fun kv => array_index kv.1 = None) props.

(** Two properties named by array indices, the first index not above the
    second. *)
Definition index_le (a b : string * JSValue) : Prop :=
  match array_index a.1, array_index b.1 with
  | Some m, Some n => (m <= n)%N
  | _, _ => False
  end.

(** [Object.assign(target, ...sources)]: every own enumerable property of
    every source is assigned to the target, in order. *)
Definition Object_assign (target : JSObject) (sources : list JSObject) : JSObject :=
  fold_left
    (fun tgt src => fold_left (fun t kv => obj_set t kv.1 kv.2) (Object_entries src) tgt)
    sources target.

(** [Array.prototype.join] on an array of strings. *)
Fixpoint join (sep : string) (xs : list string) : string :=
  match xs with
  | [] => ""
  | [x] => x
  | x :: xs' => x +:+ sep +:+ join sep xs'
  end.

(** A thrown [Error]. *)
Inductive Thrown : Type := Error (msg : string).

(* ------------------------------------------------------------------ *)
(** ** src/result.ts *)
(* ------------------------------------------------------------------ *)

(** The fields of [AWSError] the library reads. *)
Module AWSError.
Record t : Type := mk { code : string; message : string; statusCode : Z }.
End AWSError.

Module ErrorStatusCodeRange.
Inductive t : Type := Client | Server.
Definition value (r : t) : Z :=
  match r with Client => 400 | Server => 500 end.
End ErrorStatusCodeRange.

Module ErrorType.
Inductive t : Type :=
| BadRequest | Unauthorized | Forbidden | NotFound | Conflict
| InternalServerError | ServiceUnavailable.
Definition value (e : t) : Z :=
  match e with
  | BadRequest => 400
  | Unauthorized => 401
  | Forbidden => 403
  | NotFound => 404
  | Conflict => 409
  | InternalServerError => 500
  | ServiceUnavailable => 503
  end.
End ErrorType.

Module SuccessType.
Inductive t : Type := Ok | Created | NoContent.
Definition value (s : t) : Z :=
  match s with Ok => 200 | Created => 201 | NoContent => 204 end.
End SuccessType.

Module AwsErrorCode.
Definition AccessDeniedException : string := "AccessDeniedException".
Definition ConditionalCheckFailedException : string := "ConditionalCheckFailedException".
Definition IncompleteSignatureException : string := "IncompleteSignatureException".
Definition ItemCollectionSizeLimitExceededException : string :=
  "ItemCollectionSizeLimitExceededException".
Definition LimitExceededException : string := "LimitExceededException".
Definition MissingAuthenticationTokenException : string :=
  "MissingAuthenticationTokenException".
Definition ProvisionedThroughputExceededException : string :=
  "ProvisionedThroughputExceededException".
Definition RequestLimitExceeded : string := "RequestLimitExceeded".
Definition ResourceInUseException : string := "ResourceInUseException".
Definition ResourceNotFoundException : string := "ResourceNotFoundException".
Definition ThrottlingException : string := "ThrottlingException".
Definition UnrecognizedClientException : string := "UnrecognizedClientException".
Definition ValidationException : string := "ValidationException".
End AwsErrorCode.

Definition determineErrorStatusRange (statusCode : Z) : ErrorStatusCodeRange.t :=
  if 500 <=? statusCode then ErrorStatusCodeRange.Server
  else ErrorStatusCodeRange.Client.

(** The names every plain object answers to without owning them: the
    members of [Object.prototype].  All of them are functions, except
    [__proto__], which reads as [Object.prototype] itself; all are
    truthy, and none is a number. *)
Definition Object_prototype : list string :=
  ["constructor"; "__defineGetter__"; "__defineSetter__"; "hasOwnProperty";
   "__lookupGetter__"; "__lookupSetter__"; "isPrototypeOf";
   "propertyIsEnumerable"; "toString"; "valueOf"; "__proto__";
   "toLocaleString"].

(** What [defaultStatusCode] holds at run time: an [ErrorType], or the
    member of [Object.prototype] that reading the override table under an
    inherited name returns. *)
Inductive StatusCode : Type :=
| Status (type : ErrorType.t)
| Inherited (member : string).
Coercion Status : ErrorType.t >-> StatusCode.

(** The number a status code is, if it is one. *)
Definition status_number (s : StatusCode) : option Z :=
  match s with
  | Status type => Some (ErrorType.value type)
  | Inherited _ => None
  end.

(** [table[code]] on a plain object with the own entries [table]:
    [None] is [undefined]. *)
Definition table_get (table : gmap string ErrorType.t) (code : string)
    : option StatusCode :=
  match table !! code with
  | Some type => Some (Status type)
  | None =>
      if bool_decide (code ∈ Object_prototype) then Some (Inherited code)
      else None
  end.

(** [determineErrorStatusRange(errorType)]: for a member of
    [Object.prototype] the comparison [statusCode >= 500] is false. *)
Definition status_range (s : StatusCode) : ErrorStatusCodeRange.t :=
  match s with
  | Status type => determineErrorStatusRange (ErrorType.value type)
  | Inherited _ => ErrorStatusCodeRange.Client
  end.

(** Truthiness of an optional string: [undefined] and [''] are falsy. *)
Definition truthy_string (s : option string) : bool :=
  match s with
  | Some m => negb (String.eqb m "")
  | None => false
  end.

Module Err.
Record t : Type := mk {
  isAwsError : bool;
  defaultStatusCode : StatusCode;
  message : string;
  errorStatusCodeRange : ErrorStatusCodeRange.t;
  awsError : option AWSError.t
}.

Module Builder.
Record t : Type := mk {
  message : option string;
  errorType : option ErrorType.t;
  awsError : option AWSError.t;
  awsErrorCodeToErrorTypeOverride : gmap string ErrorType.t
}.

(** [new Err.Builder()] *)
Definition new : t :=
  {| message := None; errorType := None; awsError := None;
     awsErrorCodeToErrorTypeOverride := ∅ |}.

Definition withAwsError (e : AWSError.t) (b : t) : t :=
  {| message := message b; errorType := errorType b; awsError := Some e;
     awsErrorCodeToErrorTypeOverride := awsErrorCodeToErrorTypeOverride b |}.

Definition withErrorType (type : ErrorType.t) (b : t) : t :=
  {| message := message b; errorType := Some type; awsError := awsError b;
     awsErrorCodeToErrorTypeOverride := awsErrorCodeToErrorTypeOverride b |}.

Definition withMessage (msg : string) (b : t) : t :=
  {| message := Some msg; errorType := errorType b; awsError := awsError b;
     awsErrorCodeToErrorTypeOverride := awsErrorCodeToErrorTypeOverride b |}.

(** [Object.assign({}, this.override, override)]: the argument's
    entries win over the ones already there; an entry named [__proto__]
    is assigned through the inherited setter, which ignores a number, and
    so is not copied. *)
Definition withAwsErrorCodeToErrorTypeOverride
    (override : gmap string ErrorType.t) (b : t) : t :=
  {| message := message b; errorType := errorType b; awsError := awsError b;
     awsErrorCodeToErrorTypeOverride :=
       delete "__proto__" (override ∪ awsErrorCodeToErrorTypeOverride b) |}.

(** [!this.awsError && !(this.errorType && this.message)]: every
    [ErrorType] is a non-zero number, so a set [errorType] is truthy. *)
Definition validate (b : t) : Thrown + unit :=
  if negb (bool_decide (is_Some (awsError b)))
     && negb (bool_decide (is_Some (errorType b)) && truthy_string (message b))
  then inl (Error "Both errorType and message have to be supplied when no AWSError provided")
  else inr tt.

Definition build (b : t) : Thrown + Err.t :=
  match validate b with
  | inl exn => inl exn
  | inr _ =>
      match awsError b with
      | Some e =>
          let errorType :=
            if AWSError.statusCode e =? 503 then Status ErrorType.ServiceUnavailable
            else if AWSError.statusCode e =? 500 then Status ErrorType.InternalServerError
            else default (Status ErrorType.BadRequest)
                   (table_get (awsErrorCodeToErrorTypeOverride b) (AWSError.code e)) in
          inr (Err.mk true errorType (AWSError.message e)
                 (status_range errorType) (Some e))
      | None =>
          match errorType b, message b with
          | Some type, Some msg =>
              inr (Err.mk false (Status type) msg (status_range (Status type)) None)
          | _, _ =>
              (* not reached: [validate] has thrown *)
              inl (Error "Both errorType and message have to be supplied when no AWSError provided")
          end
      end
  end.
End Builder.
End Err.

Module Ok.
Record t (T : Type) : Type := mk {
  defaultStatusCode : SuccessType.t;
  data : option T
}.
Arguments mk {T} _ _.
Arguments defaultStatusCode {T} _.
Arguments data {T} _.

Module Builder.
Record t (T : Type) : Type := mk {
  data : option T;
  defaultStatusCode : option SuccessType.t
}.
Arguments mk {T} _ _.
Arguments data {T} _.
Arguments defaultStatusCode {T} _.

Definition new {T : Type} : t T :=
  {| data := None; defaultStatusCode := None |}.

Definition withData {T : Type} (d : T) (b : t T) : t T :=
  {| data := Some d; defaultStatusCode := defaultStatusCode b |}.

Definition withDefaultStatusCode {T : Type} (c : SuccessType.t) (b : t T) : t T :=
  {| data := data b; defaultStatusCode := Some c |}.

(** [!this.defaultStatusCode]: every [SuccessType] is non-zero. *)
Definition validate {T : Type} (b : t T) : Thrown + unit :=
  match defaultStatusCode b with
  | None => inl (Error "defaultStatusCode has to be set")
  | Some _ => inr tt
  end.

Definition build {T : Type} (b : t T) : Thrown + Ok.t T :=
  match validate b with
  | inl exn => inl exn
  | inr _ =>
      match defaultStatusCode b with
      | Some c => inr (Ok.mk c (data b))
      | None =>
          (* not reached: [validate] has thrown *)
          inl (Error "defaultStatusCode has to be set")
      end
  end.
End Builder.
End Ok.

(** The state a promise has reached once the event loop is idle. *)
Inductive Promise (T : Type) : Type :=
| Pending
| Fulfilled (v : T)
| Rejected (e : Err.t).
Arguments Pending {T}.
Arguments Fulfilled {T} _.
Arguments Rejected {T} _.

Module Result.
Record t (T : Type) : Type := mk { callPromise : Promise T }.
Arguments mk {T} _.
Arguments callPromise {T} _.
Definition promise {T : Type} (r : t T) : Promise T := callPromise r.
End Result.

(* ------------------------------------------------------------------ *)
(** ** src/utils.ts *)
(* ------------------------------------------------------------------ *)

Record IDynamoUpdateArgs : Type := {
  UpdateExpression : string;
  ExpressionAttributeValues : JSObject
}.

(** One turn of the [for ... of Object.entries(data)] loop: push the
    clause, bind the value. *)
Definition parseDynamoUpdateArgs_step
    (acc : list string * JSObject) (kv : string * JSValue) : list string * JSObject :=
  (acc.1 ++ [kv.1 +:+ " = :" +:+ kv.1], obj_set acc.2 (":" +:+ kv.1) kv.2).

Definition parseDynamoUpdateArgs (data : JSObject) : IDynamoUpdateArgs :=
  let acc := fold_left parseDynamoUpdateArgs_step (Object_entries data) ([], []) in
  {| UpdateExpression := "SET " +:+ join "," acc.1;
     ExpressionAttributeValues := acc.2 |}.

(** *** [prereqWith]: run a prerequisite before every decorated method *)

(** What a promise is rejected with, or a function throws: an [Error] of
    the runtime, or a value of the program. *)
Inductive Reason : Type :=
| Exception (x : Thrown)
| Rejection (v : JSValue).

(** The state a promise of any value has reached once the event loop is
    idle. *)
Inductive Settlement (V : Type) : Type :=
| Resolved (v : V)
| Failed (reason : Reason)
| Unsettled.
Arguments Resolved {V} _.
Arguments Failed {V} _.
Arguments Unsettled {V}.

(** What a method hands back: a plain value, a promise, or an instance of
    the wrapper class around a promise. *)
Inductive Returned : Type :=
| Value (v : JSValue)
| APromise (p : Settlement Returned)
| Wrapper (p : Settlement Returned).

Inductive Completion : Type :=
| Return (r : Returned)
| Raise (x : Reason).

Module Decorator.
Section Decorator.
(** The state the methods of the class act on: the fields of the
    instance and whatever else they touch. *)
Variable St : Type.

Definition Method : Type := list JSValue -> St -> Completion * St.

(** A data property of the prototype: a function of the class, the
    function the decorator puts in its place, or anything else.
    Accessor properties come further down, with [Property]. *)
Inductive Member : Type :=
| Function (f : Method)
| Decorated (prereqFunc : string) (originalProp : Member) (WrapperClass : bool)
| Data (v : JSValue).

(** [target.prototype] of a class that declares no accessors, in the
    order of [Object.getOwnPropertyNames]. *)
Definition Prototype : Type := list (string * Member).

(** An instance, as a property lookup on it sees it: the fields of the
    instance, then the properties of its class, then what the class
    inherits.  The first property of a name hides the later ones. *)
Definition Instance : Type := list (string * Member).

Definition instance (fields proto inherited : Prototype) : Instance :=
  fields ++ proto ++ inherited.

Fixpoint member_get (proto : Prototype) (prop : string) : option Member :=
  match proto with
  | [] => None
  | (k, m) :: rest => if String.eqb k prop then Some m else member_get rest prop
  end.

Fixpoint member_set (proto : Prototype) (prop : string) (m : Member) : Prototype :=
  match proto with
  | [] => [(prop, m)]
  | (k, m') :: rest =>
      if String.eqb k prop then (k, m) :: rest else (k, m') :: member_set rest prop m
  end.

(** [originalProp instanceof Function] *)
Definition instanceof_Function (m : option Member) : bool :=
  match m with
  | Some (Function _) | Some (Decorated _ _ _) => true
  | Some (Data _) | None => false
  end.

(** [appliedFuncs.includes(prop)] *)
Definition includes (l : list string) (prop : string) : bool :=
  existsb (String.eqb prop) l.

(** One turn of the loop over the property names, on a class without
    accessors, where reading and writing a property cannot throw. An
    absent [appliedFuncs] is falsy, an empty one is not. *)
Definition prereqWith_step (prereqFunc : string) (appliedFuncs : option (list string))
    (WrapperClass : bool) (proto : Prototype) (prop : string) : Prototype :=
  if String.eqb prop prereqFunc then proto
  else if match appliedFuncs with
          | Some l => negb (includes l prop)
          | None => false
          end
  then proto
  else
    let originalProp := member_get proto prop in
    if instanceof_Function originalProp then
      match originalProp with
      | Some f => member_set proto prop (Decorated prereqFunc f WrapperClass)
      | None => proto
      end
    else proto.

(** Whether the loop replaces the property [prop], which holds [m]: it
    is not the prerequisite, it is among [appliedFuncs] if there are any,
    and it is a function. *)
Definition decorates (prereqFunc : string) (appliedFuncs : option (list string))
    (prop : string) (m : option Member) : bool :=
  negb (String.eqb prop prereqFunc)
  && match appliedFuncs with
     | Some l => includes l prop
     | None => true
     end
  && instanceof_Function m.

(** The decorator, applied to the prototype of a class without
    accessors; [prereqWith_class] further down is the decorator on any
    class. *)
Definition prereqWith (prereqFunc : string) (appliedFuncs : option (list string))
    (WrapperClass : bool) (proto : Prototype) : Prototype :=
  fold_left (prereqWith_step prereqFunc appliedFuncs WrapperClass) proto.*1 proto.

(** [WrapperClass ? new WrapperClass(chainedPromise) : chainedPromise] *)
Definition wrap (WrapperClass : bool) (chainedPromise : Settlement Returned) : Returned :=
  if WrapperClass then Wrapper chainedPromise else APromise chainedPromise.

(** What the promise made by [then] settles to, given how its callback
    completed: a returned promise is followed, a throw rejects. *)
Definition chained (c : Completion) : Settlement Returned :=
  match c with
  | Return (APromise p) => p
  | Return r => Resolved r
  | Raise x => Failed x
  end.

Definition not_a_function : Reason :=
  Exception (Error "TypeError: not a function").

(** Calling the member [m] on the instance [this] with [args]; [fuel]
    bounds the nesting of decorated functions that call one another. *)
Fixpoint apply (fuel : nat) (this : Instance) (m : Member) (args : list JSValue)
    (st : St) : option (Completion * St) :=
  match fuel with
  | O => None
  | Datatypes.S n =>
      match m with
      | Function f => Some (f args st)
      | Data _ => Some (Raise not_a_function, st)
      | Decorated prereqFunc originalProp WrapperClass =>
          (* this[prereqFunc]() *)
          let prereqFuncCall :=
            match member_get this prereqFunc with
            | Some pre => apply n this pre [] st
            | None => Some (Raise not_a_function, st)
            end in
          match prereqFuncCall with
          | None => None
          | Some (Raise x, st1) => Some (Raise x, st1)
          | Some (Return (APromise prereqFuncCallResult), st1) =>
              (* prereqFuncCallResult.then(() => originalProp.apply(this, args)) *)
              match prereqFuncCallResult with
              | Resolved _ =>
                  match apply n this originalProp args st1 with
                  | None => None
                  | Some (c, st2) => Some (Return (wrap WrapperClass (chained c)), st2)
                  end
              | Failed reason => Some (Return (wrap WrapperClass (Failed reason)), st1)
              | Unsettled => Some (Return (wrap WrapperClass Unsettled), st1)
              end
          | Some (Return (Value _), st1) | Some (Return (Wrapper _), st1) =>
              (* no [then] on what the prerequisite returned *)
              Some (Raise not_a_function, st1)
          end
      end
  end.

(** [instance.prop(...args)] *)
Definition invoke (fuel : nat) (this : Instance) (prop : string) (args : list JSValue)
    (st : St) : option (Completion * St) :=
  match member_get this prop with
  | Some m => apply fuel this m args st
  | None => Some (Raise not_a_function, st)
  end.

(** A class as written: no property is a decorated function yet. *)
Definition plain (proto : Prototype) : Prop :=
  forall prop prereqFunc originalProp WrapperClass,
    member_get proto prop <> Some (Decorated prereqFunc originalProp WrapperClass).

(** **** Classes that declare accessors *)

(** A property of the prototype of a class that may declare accessors: a
    data property, or an accessor declared with [get] alone.  [get] is
    what the getter does when it is run on the prototype itself, which is
    how the decorator runs it: it throws, or returns a function or
    something else.  Accessors that have a setter are not covered. *)
Inductive Property : Type :=
| Own (m : Member)
| Getter (get : Reason + Member).

Definition Class : Type := list (string * Property).

Fixpoint property_get (cls : Class) (prop : string) : option Property :=
  match cls with
  | [] => None
  | (k, p) :: rest => if String.eqb k prop then Some p else property_get rest prop
  end.

Fixpoint property_set (cls : Class) (prop : string) (p : Property) : Class :=
  match cls with
  | [] => [(prop, p)]
  | (k, p') :: rest =>
      if String.eqb k prop then (k, p) :: rest else (k, p') :: property_set rest prop p
  end.

(** Assigning to an accessor without setter, in strict code. *)
Definition getter_only : Reason :=
  Exception (Error "TypeError: Cannot set property which has only a getter").

(** Whether the loop gets past the two [continue]s for [prop]. *)
Definition visits (prereqFunc : string) (appliedFuncs : option (list string))
    (prop : string) : bool :=
  negb (String.eqb prop prereqFunc)
  && match appliedFuncs with
     | Some l => includes l prop
     | None => true
     end.

(** One turn of the loop on such a class: the class it leaves, or the
    exception that leaves the loop. Reading the property runs a getter;
    writing a function over a getter throws. *)
Definition prereqWith_turn (prereqFunc : string) (appliedFuncs : option (list string))
    (WrapperClass : bool) (cls : Class) (prop : string) : Reason + Class :=
  if String.eqb prop prereqFunc then inr cls
  else if match appliedFuncs with
          | Some l => negb (includes l prop)
          | None => false
          end
  then inr cls
  else
    match property_get cls prop with
    | Some (Own originalProp) =>
        if instanceof_Function (Some originalProp)
        then inr (property_set cls prop (Own (Decorated prereqFunc originalProp WrapperClass)))
        else inr cls
    | Some (Getter (inl x)) => inl x
    | Some (Getter (inr originalProp)) =>
        if instanceof_Function (Some originalProp) then inl getter_only else inr cls
    | None => inr cls
    end.

(** The loop over the names: the class as the loop leaves it, and the
    exception if one ended it. *)
Fixpoint prereqWith_loop (prereqFunc : string) (appliedFuncs : option (list string))
    (WrapperClass : bool) (names : list string) (cls : Class) : Class * option Reason :=
  match names with
  | [] => (cls, None)
  | prop :: rest =>
      match prereqWith_turn prereqFunc appliedFuncs WrapperClass cls prop with
      | inl x => (cls, Some x)
      | inr cls' => prereqWith_loop prereqFunc appliedFuncs WrapperClass rest cls'
      end
  end.

(** The decorator, applied to a class that may declare accessors. *)
Definition prereqWith_class (prereqFunc : string) (appliedFuncs : option (list string))
    (WrapperClass : bool) (cls : Class) : Class * option Reason :=
  prereqWith_loop prereqFunc appliedFuncs WrapperClass cls.*1 cls.

(** The same in one pass over the properties: every function the loop
    visits is replaced, up to the first accessor it visits whose getter
    throws or returns a function; from there on nothing is touched. *)
Fixpoint in_one_pass (prereqFunc : string) (appliedFuncs : option (list string))
    (WrapperClass : bool) (cls : Class) : Class * option Reason :=
  match cls with
  | [] => ([], None)
  | (prop, p) :: rest =>
      let further p' :=
        let result := in_one_pass prereqFunc appliedFuncs WrapperClass rest in
        ((prop, p') :: result.1, result.2) in
      if visits prereqFunc appliedFuncs prop then
        match p with
        | Own m =>
            if instanceof_Function (Some m)
            then further (Own (Decorated prereqFunc m WrapperClass))
            else further p
        | Getter (inl x) => (cls, Some x)
        | Getter (inr m) =>
            if instanceof_Function (Some m) then (cls, Some getter_only) else further p
        end
      else further p
  end.

(** A class without accessors. *)
Definition data_properties (proto : Prototype) : Class :=
  (fun km => (km.1, Own km.2)) <$> proto.
End Decorator.

Arguments Function {St} _.
Arguments Decorated {St} _ _ _.
Arguments Data {St} _.
Arguments member_get {St} _ _.
Arguments member_set {St} _ _ _.
Arguments instanceof_Function {St} _.
Arguments decorates {St} _ _ _ _.
Arguments prereqWith_step {St} _ _ _ _ _.
Arguments prereqWith {St} _ _ _ _.
Arguments apply {St} _ _ _ _ _.
Arguments invoke {St} _ _ _ _ _.
Arguments plain {St} _.
Arguments instance {St} _ _ _.
Arguments Own {St} _.
Arguments Getter {St} _.
Arguments property_get {St} _ _.
Arguments property_set {St} _ _ _.
Arguments prereqWith_turn {St} _ _ _ _ _.
Arguments prereqWith_loop {St} _ _ _ _ _.
Arguments prereqWith_class {St} _ _ _ _.
Arguments in_one_pass {St} _ _ _ _.
Arguments data_properties {St} _.

(** The class of [test/utils.spec.ts]: every method appends its name to
    [audit] and returns a resolved promise. *)
Definition logging (name : string) (result : string) : Method (list string) :=
  fun _ audit => (Return (APromise (Resolved (Value (JSString result)))), audit ++ [name]).

Definition TestClass : Prototype (list string) :=
  [ ("constructor", Function (fun _ audit => (Return (Value JSNull), audit)));
    ("prereqFunc", Function (logging "prereq" "prereqFunc call result"));
    ("f1", Function (logging "f1" "f1 call result"));
    ("f2", Function (logging "f2" "f2 call result")) ].

(** The class of the second test: the prerequisite rejects. *)
Definition RejectingClass : Prototype (list string) :=
  [ ("constructor", Function (fun _ audit => (Return (Value JSNull), audit)));
    ("prereqFunc",
     Function (fun _ audit =>
                 (Return (APromise (Failed (Rejection (JSString "prereqFunc rejection")))),
                  audit ++ ["prereq"])));
    ("f1", Function (logging "f1" "f1 call result")) ].

(** The prototype of [RestOnDynamoClient], for a decorator: the
    constructor, [keySchemaSync], the three getters, which read
    [this.keys] and so throw on the prototype, and the six verbs. *)
Definition undefined_keys : Reason :=
  Exception (Error "TypeError: Cannot read property of undefined").

Definition a_method : Member (list string) :=
  Function (fun _ audit => (Return (APromise Unsettled), audit)).

Definition ClientClass : Class (list string) :=
  [ ("constructor", Own a_method);
    ("keySchemaSync", Own a_method);
    ("keyNotExistConditionalExpression", Getter (inl undefined_keys));
    ("keyExistConditionalExpression", Getter (inl undefined_keys));
    ("keyProjectionExpression", Getter (inl undefined_keys));
    ("get", Own a_method); ("post", Own a_method); ("put", Own a_method);
    ("delete", Own a_method); ("patch", Own a_method); ("head", Own a_method) ].
End Decorator.

(* ------------------------------------------------------------------ *)
(** ** The DynamoDB service, as the client sees it *)
(* ------------------------------------------------------------------ *)

Record KeySchemaElement : Type := {
  AttributeName : string;
  KeyType : string
}.

Module DescribeTableInput.
Record t : Type := mk { TableName : string }.
End DescribeTableInput.

Module DescribeTableOutput.
(** [d.Table.KeySchema] *)
Record t : Type := mk { KeySchema : list KeySchemaElement }.
End DescribeTableOutput.

Module GetItemInput.
Record t : Type := mk {
  TableName : string;
  Key : JSObject;
  ProjectionExpression : option string
}.
End GetItemInput.

Module GetItemOutput.
Record t : Type := mk { Item : option JSObject }.
End GetItemOutput.

Module PutItemInput.
Record t : Type := mk {
  TableName : string;
  Item : JSObject;
  ConditionExpression : string
}.
End PutItemInput.

Module DeleteItemInput.
Record t : Type := mk { TableName : string; Key : JSObject }.
End DeleteItemInput.

Module UpdateItemInput.
Record t : Type := mk {
  TableName : string;
  Key : JSObject;
  ConditionExpression : string;
  ReturnValues : string;
  UpdateExpression : string;
  ExpressionAttributeValues : JSObject
}.
End UpdateItemInput.

Module UpdateItemOutput.
Record t : Type := mk { Attributes : option JSObject }.
End UpdateItemOutput.

(** An SDK call hands its callback either an [AWSError] or the data. *)
Abbreviation Reply D := (AWSError.t + D)%type.

(** [DynamoDB] together with the [DocumentClient] built on it, over a
    table state [S] the library never looks into. *)
Module DynamoDB.
Record t (S : Type) : Type := mk {
  describeTable : DescribeTableInput.t -> S -> Reply DescribeTableOutput.t * S;
  get : GetItemInput.t -> S -> Reply GetItemOutput.t * S;
  put : PutItemInput.t -> S -> Reply unit * S;
  delete : DeleteItemInput.t -> S -> Reply unit * S;
  update : UpdateItemInput.t -> S -> Reply UpdateItemOutput.t * S
}.
Arguments mk {S} _ _ _ _ _.
Arguments describeTable {S} _ _ _.
Arguments get {S} _ _ _.
Arguments put {S} _ _ _.
Arguments delete {S} _ _ _.
Arguments update {S} _ _ _.
End DynamoDB.

(** What went over the wire: the parameters of a call and the reply its
    callback received. *)
Inductive Exchange : Type :=
| DescribeTableX (params : DescribeTableInput.t) (reply : Reply DescribeTableOutput.t)
| GetX (params : GetItemInput.t) (reply : Reply GetItemOutput.t)
| PutX (params : PutItemInput.t) (reply : Reply unit)
| DeleteX (params : DeleteItemInput.t) (reply : Reply unit)
| UpdateX (params : UpdateItemInput.t) (reply : Reply UpdateItemOutput.t).

Definition is_describe (x : Exchange) : bool :=
  match x with DescribeTableX _ _ => true | _ => false end.

(** The item operations among the exchanges: everything but the schema
    lookup. *)
Definition item_operations (tr : list Exchange) : list Exchange :=
  filter (fun x => is_describe x = false) tr.

Definition schema_lookups (tr : list Exchange) : list Exchange :=
  filter (fun x => is_describe x = true) tr.

(** The failure an exchange ended in, if it did. *)
Definition failure_of (x : Exchange) : option AWSError.t :=
  match x with
  | DescribeTableX _ (inl e) | GetX _ (inl e) | PutX _ (inl e)
  | DeleteX _ (inl e) | UpdateX _ (inl e) => Some e
  | _ => None
  end.

(** The [Key] or [Item] an item operation carried. *)
Definition carried_object (x : Exchange) : option JSObject :=
  match x with
  | DescribeTableX _ _ => None
  | GetX p _ => Some (GetItemInput.Key p)
  | PutX p _ => Some (PutItemInput.Item p)
  | DeleteX p _ => Some (DeleteItemInput.Key p)
  | UpdateX p _ => Some (UpdateItemInput.Key p)
  end.

(* ------------------------------------------------------------------ *)
(** ** src/client.ts *)
(* ------------------------------------------------------------------ *)

(** What the body of an SDK callback ends up doing. *)
Inductive Action (T : Type) : Type :=
| Res (v : T)                       (* res(v) *)
| Rej (e : Err.t)                   (* rej(e) *)
| Callback (e : option Err.t) (d : option (Ok.t JSObject))
                                    (* callback(e, d); neither res nor rej *)
| Throw (x : Thrown).               (* an exception left the body *)
Arguments Res {T} _.
Arguments Rej {T} _.
Arguments Callback {T} _ _.
Arguments Throw {T} _.

(** The state of the promise inside the returned [Result]. *)
Definition promise_of {T : Type} (a : Action T) : Promise T :=
  match a with
  | Res v => Fulfilled v
  | Rej e => Rejected e
  | Callback _ _ | Throw _ => Pending
  end.

(** The [Result] a verb returns. *)
Definition result_of {T : Type} (a : Action T) : Result.t T :=
  Result.mk (promise_of a).

(** The arguments the user's callback was invoked with, if it was. *)
Definition callback_of {T : Type} (a : Action T)
  : option (option Err.t * option (Ok.t JSObject)) :=
  match a with
  | Callback e d => Some (e, d)
  | _ => None
  end.

(** The [Ok] or [Err] the caller gets to see, on either path. *)
Definition delivered (a : Action (Ok.t JSObject)) : option (Err.t + Ok.t JSObject) :=
  match a with
  | Res ok => Some (inr ok)
  | Rej err => Some (inl err)
  | Callback (Some err) _ => Some (inl err)
  | Callback None (Some ok) => Some (inr ok)
  | Callback None None => None
  | Throw _ => None
  end.

Notation "x |> f" := (f x) (at level 45, left associativity, only parsing).

Module RestOnDynamoClient.
Section Client.
Context {S : Type}.
Variable tableName : string.
Variable dynamodb : DynamoDB.t S.

(** The mutable part: [this.keys] and the table behind the service. *)
Record Env : Type := mkEnv {
  keys : option (list string);
  table : S
}.

(** A computation reads and updates the environment and writes down its
    exchanges with the service, oldest first. *)
Definition M (A : Type) : Type := Env -> A * list Exchange * Env.

Definition ret {A : Type} (a : A) : M A := fun env => (a, [], env).

Definition bind {A B : Type} (m : M A) (k : A -> M B) : M B :=
  fun env =>
    let '(a, tr1, env1) := m env in
    let '(b, tr2, env2) := k a env1 in
    (b, tr1 ++ tr2, env2).

Notation "x <- m ;; k" := (bind m (fun x => k))
  (at level 100, m at next level, right associativity).

Definition getKeys : M (option (list string)) :=
  fun env => (keys env, [], env).

Definition setKeys (ks : list string) : M unit :=
  fun env => (tt, [], mkEnv (Some ks) (table env)).

(** Calling the service: run the operation on the table and record the
    exchange. *)
Definition sdk {P D : Type} (op : P -> S -> Reply D * S)
    (record : P -> Reply D -> Exchange) (params : P) : M (Reply D) :=
  fun env =>
    let '(r, s') := op params (table env) in
    (r, [record params r], mkEnv (keys env) s').

(** [p.then(() => q)] *)
Definition then_ {A B : Type} (p : M (Action A)) (q : A -> M (Action B)) : M (Action B) :=
  a <- p ;;
  match a with
  | Res v => q v
  | Rej e => ret (Rej e)
  | Callback e d => ret (Callback e d)
  | Throw x => ret (Throw x)
  end.

(** Continue with a built value; a throwing [build()] leaves the
    callback body. *)
Definition built {X T : Type} (b : Thrown + X) (k : X -> Action T) : Action T :=
  match b with
  | inl exn => Throw exn
  | inr v => k v
  end.

(** The callback of [describeTable]. *)
Definition keySchemaSync_callback (r : Reply DescribeTableOutput.t) : M (Action unit) :=
  match r with
  | inl e =>
      ret (built (Err.Builder.new |> Err.Builder.withAwsError e |> Err.Builder.build)
             (fun err => Rej err))
  | inr d =>
      _ <- setKeys (map AttributeName (DescribeTableOutput.KeySchema d)) ;;
      ret (Res tt)
  end.

(** The synchronous part: with [this.keys] unset, the lookup to issue. *)
Definition keySchemaSync_params (ks : option (list string)) : option DescribeTableInput.t :=
  match ks with
  | None => Some (DescribeTableInput.mk tableName)
  | Some _ => None
  end.

Definition keySchemaSync : M (Action unit) :=
  ks <- getKeys ;;
  match keySchemaSync_params ks with
  | Some params =>
      r <- sdk (DynamoDB.describeTable dynamodb) DescribeTableX params ;;
      keySchemaSync_callback r
  | None => ret (Res tt)
  end.

Definition keyNotExistConditionalExpression (ks : list string) : string :=
  join " AND " (map (fun keyName => "attribute_not_exists(" +:+ keyName +:+ ")") ks).

Definition keyExistConditionalExpression (ks : list string) : string :=
  join " AND " (map (fun keyName => "attribute_exists(" +:+ keyName +:+ ")") ks).

Definition keyProjectionExpression (ks : list string) : string :=
  join "," ks.

(** Reading [this.keys] inside a getter; on [undefined] the [.map]
    would throw. *)
Definition this_keys {T : Type} (k : list string -> M (Action T)) : M (Action T) :=
  ks <- getKeys ;;
  match ks with
  | Some l => k l
  | None => ret (Throw (Error "TypeError: Cannot read property of undefined"))
  end.

(** [callback ? callback(err, null) : rej(err)] *)
Definition fail {T : Type} (callback : bool) (err : Err.t) : Action T :=
  if callback then Callback (Some err) None else Rej err.

(** [callback ? callback(null, ok) : res(ok)] *)
Definition succeed (callback : bool) (ok : Ok.t JSObject) : Action (Ok.t JSObject) :=
  if callback then Callback None (Some ok) else Res ok.

(** The callback handed to [docClient.get] by [get]. *)
Definition get_callback (callback : bool) (r : Reply GetItemOutput.t)
  : Action (Ok.t JSObject) :=
  match r with
  | inl e =>
      built (Err.Builder.new |> Err.Builder.withAwsError e |> Err.Builder.build)
        (fail callback)
  | inr data =>
      match GetItemOutput.Item data with
      | Some item =>
          built (Ok.Builder.new
                   |> Ok.Builder.withDefaultStatusCode SuccessType.Ok
                   |> Ok.Builder.withData item
                   |> Ok.Builder.build)
            (succeed callback)
      | None =>
          built (Err.Builder.new
                   |> Err.Builder.withErrorType ErrorType.NotFound
                   |> Err.Builder.withMessage "Key does not exist"
                   |> Err.Builder.build)
            (fail callback)
      end
  end.

Definition get (id : JSObject) (callback : bool) : M (Action (Ok.t JSObject)) :=
  then_ keySchemaSync (fun _ =>
    r <- sdk (DynamoDB.get dynamodb) GetX (GetItemInput.mk tableName id None) ;;
    ret (get_callback callback r)).

(** The callback handed to [docClient.put] by [post]. *)
Definition post_callback (item : JSObject) (callback : bool) (r : Reply unit)
  : Action (Ok.t JSObject) :=
  match r with
  | inl e =>
      built (Err.Builder.new
               |> Err.Builder.withAwsError e
               |> Err.Builder.withAwsErrorCodeToErrorTypeOverride
                    {[ AwsErrorCode.ConditionalCheckFailedException := ErrorType.Conflict ]}
               |> Err.Builder.build)
        (fail callback)
  | inr _ =>
      built (Ok.Builder.new
               |> Ok.Builder.withData item
               |> Ok.Builder.withDefaultStatusCode SuccessType.Created
               |> Ok.Builder.build)
        (succeed callback)
  end.

Definition post (id data : JSObject) (callback : bool) : M (Action (Ok.t JSObject)) :=
  let item := Object_assign [] [data; id] in
  then_ keySchemaSync (fun _ =>
    this_keys (fun ks =>
      r <- sdk (DynamoDB.put dynamodb) PutX
            (PutItemInput.mk tableName item (keyNotExistConditionalExpression ks)) ;;
      ret (post_callback item callback r))).

(** The callback handed to [docClient.put] by [put]. *)
Definition put_callback (item : JSObject) (callback : bool) (r : Reply unit)
  : Action (Ok.t JSObject) :=
  match r with
  | inl e =>
      built (Err.Builder.new
               |> Err.Builder.withAwsError e
               |> Err.Builder.withAwsErrorCodeToErrorTypeOverride
                    {[ AwsErrorCode.ConditionalCheckFailedException := ErrorType.NotFound ]}
               |> Err.Builder.build)
        (fail callback)
  | inr _ =>
      built (Ok.Builder.new
               |> Ok.Builder.withData item
               |> Ok.Builder.withDefaultStatusCode SuccessType.Ok
               |> Ok.Builder.build)
        (succeed callback)
  end.

Definition put (id data : JSObject) (callback : bool) : M (Action (Ok.t JSObject)) :=
  let item := Object_assign [] [data; id] in
  then_ keySchemaSync (fun _ =>
    this_keys (fun ks =>
      r <- sdk (DynamoDB.put dynamodb) PutX
            (PutItemInput.mk tableName item (keyExistConditionalExpression ks)) ;;
      ret (put_callback item callback r))).

(** The callback handed to [docClient.delete] by [delete]. *)
Definition delete_callback (callback : bool) (r : Reply unit) : Action (Ok.t JSObject) :=
  match r with
  | inl e =>
      built (Err.Builder.new |> Err.Builder.withAwsError e |> Err.Builder.build)
        (fail callback)
  | inr _ =>
      built (Ok.Builder.new
               |> Ok.Builder.withDefaultStatusCode SuccessType.NoContent
               |> Ok.Builder.build)
        (succeed callback)
  end.

Definition delete (id : JSObject) (callback : bool) : M (Action (Ok.t JSObject)) :=
  then_ keySchemaSync (fun _ =>
    r <- sdk (DynamoDB.delete dynamodb) DeleteX (DeleteItemInput.mk tableName id) ;;
    ret (delete_callback callback r)).

(** [withData(d.Attributes)]: an absent [Attributes] leaves [data]
    unset. *)
Definition withData_opt (d : option JSObject) (b : Ok.Builder.t JSObject)
  : Ok.Builder.t JSObject :=
  match d with
  | Some x => Ok.Builder.withData x b
  | None => b
  end.

(** The callback handed to [docClient.update] by [patch]. *)
Definition patch_callback (callback : bool) (r : Reply UpdateItemOutput.t)
  : Action (Ok.t JSObject) :=
  match r with
  | inl e =>
      built (Err.Builder.new
               |> Err.Builder.withAwsError e
               |> Err.Builder.withAwsErrorCodeToErrorTypeOverride
                    {[ AwsErrorCode.ConditionalCheckFailedException := ErrorType.NotFound ]}
               |> Err.Builder.build)
        (fail callback)
  | inr d =>
      built (Ok.Builder.new
               |> withData_opt (UpdateItemOutput.Attributes d)
               |> Ok.Builder.withDefaultStatusCode SuccessType.Ok
               |> Ok.Builder.build)
        (succeed callback)
  end.

Definition patch (id data : JSObject) (callback : bool) : M (Action (Ok.t JSObject)) :=
  then_ keySchemaSync (fun _ =>
    this_keys (fun ks =>
      let args := parseDynamoUpdateArgs data in
      r <- sdk (DynamoDB.update dynamodb) UpdateX
            (UpdateItemInput.mk tableName id (keyExistConditionalExpression ks) "ALL_NEW"
               (UpdateExpression args) (ExpressionAttributeValues args)) ;;
      ret (patch_callback callback r))).

(** The callback handed to [docClient.get] by [head]. *)
Definition head_callback (callback : bool) (r : Reply GetItemOutput.t)
  : Action (Ok.t JSObject) :=
  match r with
  | inl e =>
      built (Err.Builder.new |> Err.Builder.withAwsError e |> Err.Builder.build)
        (fail callback)
  | inr d =>
      match GetItemOutput.Item d with
      | Some _ =>
          built (Ok.Builder.new
                   |> Ok.Builder.withDefaultStatusCode SuccessType.NoContent
                   |> Ok.Builder.build)
            (succeed callback)
      | None =>
          built (Err.Builder.new
                   |> Err.Builder.withErrorType ErrorType.NotFound
                   |> Err.Builder.withMessage "Key not found"
                   |> Err.Builder.build)
            (fail callback)
      end
  end.

Definition head (id : JSObject) (callback : bool) : M (Action (Ok.t JSObject)) :=
  then_ keySchemaSync (fun _ =>
    this_keys (fun ks =>
      r <- sdk (DynamoDB.get dynamodb) GetX
            (GetItemInput.mk tableName id (Some (keyProjectionExpression ks))) ;;
      ret (head_callback callback r))).

Inductive Verb : Type := GET | HEAD | POST | PUT | PATCH | DELETE.

(** One call of a verb; [data] is ignored by the verbs that take none. *)
Definition call (verb : Verb) (id data : JSObject) (callback : bool)
  : M (Action (Ok.t JSObject)) :=
  match verb with
  | GET => get id callback
  | HEAD => head id callback
  | POST => post id data callback
  | PUT => put id data callback
  | PATCH => patch id data callback
  | DELETE => delete id callback
  end.

(** The override table a verb hands to the error builder. *)
Definition override_of (verb : Verb) : gmap string ErrorType.t :=
  match verb with
  | POST => {[ AwsErrorCode.ConditionalCheckFailedException := ErrorType.Conflict ]}
  | PUT | PATCH => {[ AwsErrorCode.ConditionalCheckFailedException := ErrorType.NotFound ]}
  | GET | HEAD | DELETE => ∅
  end.

(** The object an item operation carries: the merged item for the two
    writes, the [Id] as given for the others. *)
Definition sent_object (verb : Verb) (id data : JSObject) : JSObject :=
  match verb with
  | POST | PUT => Object_assign [] [data; id]
  | GET | HEAD | PATCH | DELETE => id
  end.

(** A call with its arguments. *)
Record Invocation : Type := {
  verb : Verb;
  id : JSObject;
  data : JSObject;
  callback : bool
}.

(** Calls made in turn, each awaited before the next one starts. *)
Fixpoint in_turn (calls : list Invocation) : M (list (Action (Ok.t JSObject))) :=
  match calls with
  | [] => ret []
  | c :: rest =>
      a <- call (verb c) (id c) (data c) (callback c) ;;
      others <- in_turn rest ;;
      ret (a :: others)
  end.

(** The second stage of a verb on its own: the item operation sent
    once the key schema [ks] is known, and what its callback does. *)
Definition item_exchange (verb : Verb) (ks : list string) (id data : JSObject)
    (callback : bool) (s : S) : Action (Ok.t JSObject) * Exchange * S :=
  match verb with
  | GET =>
      let p := GetItemInput.mk tableName id None in
      let '(r, s') := DynamoDB.get dynamodb p s in
      (get_callback callback r, GetX p r, s')
  | HEAD =>
      let p := GetItemInput.mk tableName id (Some (keyProjectionExpression ks)) in
      let '(r, s') := DynamoDB.get dynamodb p s in
      (head_callback callback r, GetX p r, s')
  | POST =>
      let item := Object_assign [] [data; id] in
      let p := PutItemInput.mk tableName item (keyNotExistConditionalExpression ks) in
      let '(r, s') := DynamoDB.put dynamodb p s in
      (post_callback item callback r, PutX p r, s')
  | PUT =>
      let item := Object_assign [] [data; id] in
      let p := PutItemInput.mk tableName item (keyExistConditionalExpression ks) in
      let '(r, s') := DynamoDB.put dynamodb p s in
      (put_callback item callback r, PutX p r, s')
  | PATCH =>
      let args := parseDynamoUpdateArgs data in
      let p := UpdateItemInput.mk tableName id (keyExistConditionalExpression ks) "ALL_NEW"
                 (UpdateExpression args) (ExpressionAttributeValues args) in
      let '(r, s') := DynamoDB.update dynamodb p s in
      (patch_callback callback r, UpdateX p r, s')
  | DELETE =>
      let p := DeleteItemInput.mk tableName id in
      let '(r, s') := DynamoDB.delete dynamodb p s in
      (delete_callback callback r, DeleteX p r, s')
  end.

(** How a call came by the key schema: from the cache, or by a lookup
    that succeeded. *)
Inductive Resolution (env : Env) : list string -> list Exchange -> S -> Prop :=
| cached ks :
    keys env = Some ks ->
    Resolution env ks [] (table env)
| looked_up d s1 :
    keys env = None ->
    DynamoDB.describeTable dynamodb (DescribeTableInput.mk tableName) (table env)
    = (inr d, s1) ->
    Resolution env (map AttributeName (DescribeTableOutput.KeySchema d))
      [DescribeTableX (DescribeTableInput.mk tableName) (inr d)] s1.

End Client.

Arguments mkEnv {S} _ _.
Arguments keys {S} _.
Arguments table {S} _.

(** A client straight out of the constructor: [keys] is still unset. *)
Definition fresh {S : Type} (s : S) : Env := mkEnv None s.

(** The attribute names of [id] are exactly the key attributes [ks]. *)
Definition matches_key_schema (ks : list string) (id : JSObject) : bool :=
  Nat.eqb (length id) (length ks)
  && forallb (fun k => bool_decide (is_Some (obj_get id k))) ks.

End RestOnDynamoClient.

(* ------------------------------------------------------------------ *)
(** ** A table kept in memory *)
(* ------------------------------------------------------------------ *)

(** A stand-in for the service, used to run the client on concrete
    calls: one table, keyed by scalar attributes, that checks the key of
    every request against its schema and the two existence conditions the
    client sends. *)
Module MemTable.
Record t : Type := mk {
  name : string;
  schema : list KeySchemaElement;
  items : list JSObject
}.

Definition key_names (s : t) : list string := map AttributeName (schema s).

Definition scalar_eqb (a b : JSValue) : bool :=
  match a, b with
  | JSString x, JSString y => String.eqb x y
  | JSNumber x, JSNumber y => Z.eqb x y
  | JSBoolean x, JSBoolean y => Bool.eqb x y
  | _, _ => false
  end.

(** The attribute names of [key] are exactly the key attributes. *)
Definition key_matches (s : t) (key : JSObject) : bool :=
  Nat.eqb (length key) (length (key_names s))
  && forallb (fun k => bool_decide (is_Some (obj_get key k))) (key_names s).

(** [item] carries every key attribute. *)
Definition has_key (s : t) (item : JSObject) : bool :=
  forallb (fun k => bool_decide (is_Some (obj_get item k))) (key_names s).

Definition same_key (s : t) (key item : JSObject) : bool :=
  forallb
    (fun k =>
       match obj_get key k, obj_get item k with
       | Some a, Some b => scalar_eqb a b
       | _, _ => false
       end)
    (key_names s).

Definition lookup (s : t) (key : JSObject) : option JSObject :=
  List.find (same_key s key) (items s).

Definition remove (s : t) (key : JSObject) : list JSObject :=
  List.filter (fun it => negb (same_key s key it)) (items s).

Definition with_items (s : t) (l : list JSObject) : t :=
  mk (name s) (schema s) l.

Definition ResourceNotFound : AWSError.t :=
  AWSError.mk AwsErrorCode.ResourceNotFoundException
    "Requested resource not found" 400.

Definition Validation : AWSError.t :=
  AWSError.mk AwsErrorCode.ValidationException
    "The provided key element does not match the schema" 400.

Definition ConditionalCheckFailed : AWSError.t :=
  AWSError.mk AwsErrorCode.ConditionalCheckFailedException
    "The conditional request failed" 400.

Definition describeTable (p : DescribeTableInput.t) (s : t)
  : Reply DescribeTableOutput.t * t :=
  if String.eqb (DescribeTableInput.TableName p) (name s)
  then (inr (DescribeTableOutput.mk (schema s)), s)
  else (inl ResourceNotFound, s).

Definition project (names : list string) (item : JSObject) : JSObject :=
  List.filter (fun kv => bool_decide (kv.1 ∈ names)) item.

Definition get (p : GetItemInput.t) (s : t) : Reply GetItemOutput.t * t :=
  if negb (String.eqb (GetItemInput.TableName p) (name s)) then (inl ResourceNotFound, s)
  else if negb (key_matches s (GetItemInput.Key p)) then (inl Validation, s)
  else
    match GetItemInput.ProjectionExpression p with
    | None => (inr (GetItemOutput.mk (lookup s (GetItemInput.Key p))), s)
    | Some e =>
        if String.eqb e (RestOnDynamoClient.keyProjectionExpression (key_names s))
        then (inr (GetItemOutput.mk
                     (project (key_names s) <$> lookup s (GetItemInput.Key p))), s)
        else (inl Validation, s)
    end.

Definition put (p : PutItemInput.t) (s : t) : Reply unit * t :=
  let item := PutItemInput.Item p in
  let cond := PutItemInput.ConditionExpression p in
  if negb (String.eqb (PutItemInput.TableName p) (name s)) then (inl ResourceNotFound, s)
  else if negb (has_key s item) then (inl Validation, s)
  else if String.eqb cond (RestOnDynamoClient.keyNotExistConditionalExpression (key_names s))
  then
    match lookup s item with
    | Some _ => (inl ConditionalCheckFailed, s)
    | None => (inr tt, with_items s (items s ++ [item]))
    end
  else if String.eqb cond (RestOnDynamoClient.keyExistConditionalExpression (key_names s))
  then
    match lookup s item with
    | Some _ => (inr tt, with_items s (remove s item ++ [item]))
    | None => (inl ConditionalCheckFailed, s)
    end
  else (inl Validation, s).

Definition delete (p : DeleteItemInput.t) (s : t) : Reply unit * t :=
  if negb (String.eqb (DeleteItemInput.TableName p) (name s)) then (inl ResourceNotFound, s)
  else if negb (key_matches s (DeleteItemInput.Key p)) then (inl Validation, s)
  else (inr tt, with_items s (remove s (DeleteItemInput.Key p))).

(** [:name] back to [name]. *)
Definition unbind (b : string) : string :=
  match b with
  | String _ rest => rest
  | EmptyString => EmptyString
  end.

Definition apply_bindings (item bindings : JSObject) : JSObject :=
  fold_left (fun it kv => obj_set it (unbind kv.1) kv.2) bindings item.

Definition update (p : UpdateItemInput.t) (s : t) : Reply UpdateItemOutput.t * t :=
  let key := UpdateItemInput.Key p in
  if negb (String.eqb (UpdateItemInput.TableName p) (name s)) then (inl ResourceNotFound, s)
  else if negb (key_matches s key) then (inl Validation, s)
  else if negb (String.eqb (UpdateItemInput.ConditionExpression p)
                  (RestOnDynamoClient.keyExistConditionalExpression (key_names s)))
  then (inl Validation, s)
  else
    match lookup s key with
    | None => (inl ConditionalCheckFailed, s)
    | Some it =>
        let it' := apply_bindings it (UpdateItemInput.ExpressionAttributeValues p) in
        (inr (UpdateItemOutput.mk (Some it')), with_items s (remove s key ++ [it']))
    end.

Definition service : DynamoDB.t t :=
  DynamoDB.mk describeTable get put delete update.

(** The table of the integration tests: named [test], keyed by [id]. *)
Definition test_table (l : list JSObject) : t :=
  mk "test" [ {| AttributeName := "id"; KeyType := "HASH" |} ] l.

Definition Unavailable : AWSError.t :=
  AWSError.mk "ServiceUnavailable" "Service is currently unavailable" 503.

(** The same table behind a service that is down for its first [n]
    calls. *)
Definition during_outage {P D : Type} (op : P -> t -> Reply D * t)
    (p : P) (s : nat * t) : Reply D * (nat * t) :=
  match s.1 with
  | O => let '(r, s') := op p s.2 in (r, (O, s'))
  | Datatypes.S n => (inl Unavailable, (n, s.2))
  end.

Definition flaky : DynamoDB.t (nat * t) :=
  DynamoDB.mk (during_outage describeTable) (during_outage get) (during_outage put)
    (during_outage delete) (during_outage update).
End MemTable.

(* ------------------------------------------------------------------ *)
(** ** Reading the outcome of calls *)
(* ------------------------------------------------------------------ *)

(** What a settled action turns into when the caller passed a callback. *)
Definition via_callback (a : Action (Ok.t JSObject)) : Action (Ok.t JSObject) :=
  match a with
  | Res ok => Callback None (Some ok)
  | Rej err => Callback (Some err) None
  | other => other
  end.

Definition is_successful_lookup (x : Exchange) : bool :=
  match x with
  | DescribeTableX _ (inr _) => true
  | _ => false
  end.

Definition successful_lookups (tr : list Exchange) : list Exchange :=
  filter (fun x => is_successful_lookup x = true) tr.

(** The update-expression clause and the binding of one attribute. *)
Definition clause (name : string) : string := name +:+ " = :" +:+ name.
Definition binding (kv : string * JSValue) : string * JSValue := (":" +:+ kv.1, kv.2).

(** Readings of the code that it does not bear out; each is refuted on a
    concrete input further down. *)

(** An [Id] that does not match the resolved key schema is answered with
    a 400 and nothing is sent to the table. *)
Definition rejected_before_the_store
    (outcome : Action (Ok.t JSObject) * list Exchange * @RestOnDynamoClient.Env MemTable.t)
    (id : JSObject) : Prop :=
  forall ks,
    RestOnDynamoClient.keys outcome.2 = Some ks ->
    RestOnDynamoClient.matches_key_schema ks id = false ->
    (exists err, delivered outcome.1.1 = Some (inl err)
                 /\ status_number (Err.defaultStatusCode err) = Some 400)
    /\ item_operations outcome.1.2 = [].

(** A backend failure whose status is neither 503 nor 500 and whose
    code the override table has no entry for is built into a 400. *)
Definition unlisted_code_is_BadRequest (b : Err.Builder.t) (e : AWSError.t) : Prop :=
  Err.Builder.awsError b = Some e ->
  AWSError.statusCode e <> 503 -> AWSError.statusCode e <> 500 ->
  Err.Builder.awsErrorCodeToErrorTypeOverride b !! AWSError.code e = None ->
  exists err, Err.Builder.build b = inr err
              /\ status_number (Err.defaultStatusCode err) = Some 400.

(** With a callback, the promise settles with what the callback got. *)
Definition settles_like_the_callback (a : Action (Ok.t JSObject)) : Prop :=
  (exists ok, callback_of a = Some (None, Some ok)
              /\ Result.promise (result_of a) = Fulfilled ok)
  \/ (exists err d, callback_of a = Some (Some err, d)
                    /\ Result.promise (result_of a) = Rejected err).

(** The clauses of the update expression follow the order in which the
    attributes were put into the map. *)
Definition clauses_in_insertion_order (props : list (string * JSValue)) : Prop :=
  UpdateExpression (parseDynamoUpdateArgs (object_of props))
  = "SET " +:+ join "," (map clause props.*1).


(** A client looks the key schema up at most once. *)
Definition looked_up_at_most_once (tr : list Exchange) : Prop :=
  (length (schema_lookups tr) <= 1)%nat.

(** The calls these readings are tried on. *)
Module Examples.
Import RestOnDynamoClient.

Definition wrong_key : JSObject := [("wrong-key", JSString "value")].
Definition test_id_0 : JSObject := [("id", JSString "test-id-0")].
Definition test_item_0 : JSObject :=
  [("attr1", JSString "value1"); ("id", JSString "test-id-0")].

(** A failure with status 400 whose code is [constructor]. *)
Definition constructor_failure : AWSError.t :=
  AWSError.mk "constructor" "fake aws error message" 400.

(** [client.get({'wrong-key': 'value'})] on a new client. *)
Definition get_wrong_key :=
  call "test" MemTable.service GET wrong_key [] false (fresh (MemTable.test_table [])).

(** [client.get({id: 'test-id-0'}, callback)] with the item present. *)
Definition get_with_callback :=
  call "test" MemTable.service GET test_id_0 [] true
    (fresh (MemTable.test_table [test_item_0])).

(** Two [get]s in turn on one client while the service recovers from
    an outage. *)
Definition two_gets : list Invocation :=
  [ {| verb := GET; id := test_id_0; data := []; callback := false |};
    {| verb := GET; id := test_id_0; data := []; callback := false |} ].

Definition two_gets_after_outage :=
  in_turn "test" MemTable.flaky two_gets
    (fresh (1%nat, MemTable.test_table [test_item_0])).

(** [client.delete({id: 'test-id-0'})] with no such item. *)
Definition delete_absent :=
  call "test" MemTable.service DELETE test_id_0 [] false (fresh (MemTable.test_table [])).

(** A second [post] of the same [Id]. *)
Definition post_again :=
  call "test" MemTable.service POST test_id_0 [("attr1", JSString "value2")] false
    (fresh (MemTable.test_table [test_item_0])).


(** [put] and [patch] of an [Id] the table does not hold. *)
Definition put_absent :=
  call "test" MemTable.service PUT test_id_0 [("attr1", JSString "value1")] false
    (fresh (MemTable.test_table [])).

Definition patch_absent :=
  call "test" MemTable.service PATCH test_id_0 [("attr1", JSString "value1")] false
    (fresh (MemTable.test_table [])).



(** The properties of [{b: 'x', 2: 'y', 1: 'z'}], as written. *)
Definition integer_like_names : list (string * JSValue) :=
  [("b", JSString "x"); ("2", JSString "y"); ("1", JSString "z")].

(** How a new client on the test table comes by the key schema. *)
Definition looked_up_test (l : list JSObject) :
  Resolution "test" MemTable.service (fresh (MemTable.test_table l)) ["id"]
    [DescribeTableX (DescribeTableInput.mk "test")
       (inr (DescribeTableOutput.mk (MemTable.schema (MemTable.test_table l))))]
    (MemTable.test_table l) :=
  looked_up "test" MemTable.service (fresh (MemTable.test_table l))
    (DescribeTableOutput.mk (MemTable.schema (MemTable.test_table l)))
    (MemTable.test_table l) eq_refl eq_refl.
End Examples.

(** Further calls on the table of the integration tests. *)
Module MoreExamples.
Import RestOnDynamoClient.

(** [client.get({id: 'test-id-0'})] with the item present. *)
Definition get_present :=
  call "test" MemTable.service GET Examples.test_id_0 [] false
    (fresh (MemTable.test_table [Examples.test_item_0])).

(** [client.head({id: 'test-id-0'})] with the item present. *)
Definition head_present :=
  call "test" MemTable.service HEAD Examples.test_id_0 [] false
    (fresh (MemTable.test_table [Examples.test_item_0])).

(** [client.head({id: 'test-id-0'})] with no such item. *)
Definition head_absent :=
  call "test" MemTable.service HEAD Examples.test_id_0 [] false
    (fresh (MemTable.test_table [])).

(** [client.post({id: 'test-id-0'}, {attr1: 'value1'})] on an empty
    table. *)
Definition post_new :=
  call "test" MemTable.service POST Examples.test_id_0 [("attr1", JSString "value1")] false
    (fresh (MemTable.test_table [])).

(** [client.patch({id: 'test-id-0'}, {attr2: 'value2'})] with the item
    present. *)
Definition patch_present :=
  call "test" MemTable.service PATCH Examples.test_id_0 [("attr2", JSString "value2")] false
    (fresh (MemTable.test_table [Examples.test_item_0])).

(** [client.patch({id: 'test-id-0'}, {})] with the item present. *)
Definition patch_nothing :=
  call "test" MemTable.service PATCH Examples.test_id_0 [] false
    (fresh (MemTable.test_table [Examples.test_item_0])).
End MoreExamples.

(* ------------------------------------------------------------------ *)
(** ** The error classifier and the builders *)
(* ------------------------------------------------------------------ *)

Section Classifier.
Import Err.

Lemma validate_awsError (b : Builder.t) (e : AWSError.t) :
  Builder.awsError b = Some e -> Builder.validate b = inr tt.
Proof.
  intros H. unfold Builder.validate. rewrite H.
  rewrite bool_decide_eq_true_2 by eauto. reflexivity.
Qed.

(** With a backend failure on board, [build] succeeds and copies the
    failure and its message. *)
Lemma build_awsError (b : Builder.t) (e : AWSError.t) :
  Builder.awsError b = Some e ->
  exists code,
    Builder.build b
    = inr (Err.mk true code (AWSError.message e) (status_range code) (Some e))
    /\ code = (if AWSError.statusCode e =? 503 then Status ErrorType.ServiceUnavailable
               else if AWSError.statusCode e =? 500 then Status ErrorType.InternalServerError
               else default (Status ErrorType.BadRequest)
                      (table_get (Builder.awsErrorCodeToErrorTypeOverride b)
                         (AWSError.code e))).
Proof.
  intros H. eexists. split; [|reflexivity].
  unfold Builder.build. rewrite (validate_awsError b e H), H. reflexivity.
Qed.

Lemma determineErrorStatusRange_Server (c : Z) :
  determineErrorStatusRange c = ErrorStatusCodeRange.Server <-> 500 <= c.
Proof.
  unfold determineErrorStatusRange. destruct (Z.leb_spec 500 c); split; intros; try lia; done.
Qed.

Lemma determineErrorStatusRange_Client (c : Z) :
  determineErrorStatusRange c = ErrorStatusCodeRange.Client <-> c < 500.
Proof.
  unfold determineErrorStatusRange. destruct (Z.leb_spec 500 c); split; intros; try lia; done.
Qed.

(** Whatever [build] returns has its range computed from its code. *)
Lemma build_range (b : Builder.t) (err : Err.t) :
  Builder.build b = inr err ->
  errorStatusCodeRange err = status_range (defaultStatusCode err).
Proof.
  unfold Builder.build.
  destruct (Builder.validate b); [done|].
  destruct (Builder.awsError b) as [e|].
  - intros [= <-]. reflexivity.
  - destruct (Builder.errorType b), (Builder.message b); try done.
    intros [= <-]. reflexivity.
Qed.

(** Reading the table: an own entry is found first; without one, the
    names of [Object.prototype] still answer. *)
Lemma table_get_own (table : gmap string ErrorType.t) code type :
  table !! code = Some type -> table_get table code = Some (Status type).
Proof. unfold table_get. by intros ->. Qed.

Lemma table_get_undefined (table : gmap string ErrorType.t) code :
  table !! code = None -> code ∉ Object_prototype -> table_get table code = None.
Proof.
  unfold table_get. intros -> Hnot. by rewrite bool_decide_eq_false_2.
Qed.

Lemma table_get_inherited (table : gmap string ErrorType.t) code :
  table !! code = None -> code ∈ Object_prototype ->
  table_get table code = Some (Inherited code).
Proof.
  unfold table_get. intros -> Hin. by rewrite bool_decide_eq_true_2.
Qed.
End Classifier.

(** X15. An [Err] built from a backend failure: status 503 gives
    ServiceUnavailable (503); otherwise status 500 gives
    InternalServerError (500); otherwise the failure's code is read in
    the override table: an entry of the table is the error type, and
    without an entry it is BadRequest (400) when the code is not the name
    of a member the table inherits from [Object.prototype]. *)
Theorem build_classifies_backend_failure
    (b : Err.Builder.t) (e : AWSError.t) :
  Err.Builder.awsError b = Some e ->
  exists err,
    Err.Builder.build b = inr err
    /\ Err.isAwsError err = true
    /\ Err.awsError err = Some e
    /\ (AWSError.statusCode e = 503 ->
        Err.defaultStatusCode err = ErrorType.ServiceUnavailable
        /\ status_number (Err.defaultStatusCode err) = Some 503)
    /\ (AWSError.statusCode e <> 503 -> AWSError.statusCode e = 500 ->
        Err.defaultStatusCode err = ErrorType.InternalServerError
        /\ status_number (Err.defaultStatusCode err) = Some 500)
    /\ (AWSError.statusCode e <> 503 -> AWSError.statusCode e <> 500 ->
        (forall type : ErrorType.t,
            Err.Builder.awsErrorCodeToErrorTypeOverride b !! AWSError.code e = Some type ->
            Err.defaultStatusCode err = type
            /\ status_number (Err.defaultStatusCode err) = Some (ErrorType.value type))
        /\ (Err.Builder.awsErrorCodeToErrorTypeOverride b !! AWSError.code e = None ->
            AWSError.code e ∉ Object_prototype ->
            Err.defaultStatusCode err = ErrorType.BadRequest
            /\ status_number (Err.defaultStatusCode err) = Some 400)).
Proof.
  intros Haws.
  destruct (build_awsError b e Haws) as (code & Hbuild & Hcode).
  eexists. split; [exact Hbuild|]. cbn. subst code.
  split; [reflexivity|]. split; [reflexivity|].
  split; [|split].
  - intros ->. split; reflexivity.
  - intros _ ->. split; reflexivity.
  - intros H503 H500.
    apply Z.eqb_neq in H503, H500. rewrite H503, H500.
    split.
    + intros type Hown. rewrite (table_get_own _ _ _ Hown). split; reflexivity.
    + intros Hnone Hnot. rewrite (table_get_undefined _ _ Hnone Hnot).
      split; reflexivity.
Qed.

Lemma build_classifies_backend_failure_witness :
  (exists err,
      Err.Builder.build
        (Err.Builder.new
           |> Err.Builder.withAwsError MemTable.ConditionalCheckFailed
           |> Err.Builder.withAwsErrorCodeToErrorTypeOverride
                {[ AwsErrorCode.ConditionalCheckFailedException := ErrorType.Conflict ]})
      = inr err
      /\ status_number (Err.defaultStatusCode err) = Some 409)
  /\ (exists err,
      Err.Builder.build (Err.Builder.new |> Err.Builder.withAwsError MemTable.Validation)
      = inr err
      /\ status_number (Err.defaultStatusCode err) = Some 400).
Proof.
  split.
  - destruct (build_classifies_backend_failure
                (Err.Builder.new
                   |> Err.Builder.withAwsError MemTable.ConditionalCheckFailed
                   |> Err.Builder.withAwsErrorCodeToErrorTypeOverride
                        {[ AwsErrorCode.ConditionalCheckFailedException := ErrorType.Conflict ]})
                MemTable.ConditionalCheckFailed eq_refl)
      as (err & Hbuild & _ & _ & _ & _ & Hclient).
    exists err. split; [exact Hbuild|].
    destruct Hclient as [Hoverride _]; [discriminate|discriminate|].
    apply (Hoverride ErrorType.Conflict). reflexivity.
  - destruct (build_classifies_backend_failure
                (Err.Builder.new |> Err.Builder.withAwsError MemTable.Validation)
                MemTable.Validation eq_refl)
      as (err & Hbuild & _ & _ & _ & _ & Hclient).
    exists err. split; [exact Hbuild|].
    destruct Hclient as [_ Hdefault]; [discriminate|discriminate|].
    apply Hdefault; [reflexivity|].
    unfold Object_prototype. cbn. intros Hin.
    repeat (apply elem_of_cons in Hin as [Hin|Hin]; [discriminate Hin|]).
    by apply elem_of_nil in Hin.
Defined.

(** C4, at a failure the code gets wrong. For a failure with status 400
    whose code is [constructor], and no override table, the table
    answers with the function every object inherits under that name: the
    [Err] built has that function as its status code, which is no number,
    and not BadRequest (400) as a code without an entry should give. *)
Theorem inherited_member_as_status_code :
  Err.Builder.build
    (Err.Builder.new |> Err.Builder.withAwsError Examples.constructor_failure)
  = inr (Err.mk true (Inherited "constructor") "fake aws error message"
           ErrorStatusCodeRange.Client (Some Examples.constructor_failure))
  /\ Err.Builder.awsErrorCodeToErrorTypeOverride
       (Err.Builder.new |> Err.Builder.withAwsError Examples.constructor_failure)
     !! AWSError.code Examples.constructor_failure = None
  /\ ~ unlisted_code_is_BadRequest
        (Err.Builder.new |> Err.Builder.withAwsError Examples.constructor_failure)
        Examples.constructor_failure.
Proof.
  split; [reflexivity|]. split; [reflexivity|].
  intros H.
  destruct H as (err & Hbuild & Hcode); [reflexivity|discriminate|discriminate|reflexivity|].
  injection Hbuild as <-. discriminate Hcode.
Qed.

(** C5. Every [Err] the builder produces, from a backend failure or from
    a type and a message, has range Server exactly when its status code
    is at least 500 and range Client otherwise.  A status code that is no
    number is not at least 500. *)
Theorem build_range_follows_status_code (b : Err.Builder.t) (err : Err.t) :
  Err.Builder.build b = inr err ->
  (Err.errorStatusCodeRange err = ErrorStatusCodeRange.Server
     <-> exists n, status_number (Err.defaultStatusCode err) = Some n /\ 500 <= n)
  /\ (Err.errorStatusCodeRange err = ErrorStatusCodeRange.Client
     <-> ~ exists n, status_number (Err.defaultStatusCode err) = Some n /\ 500 <= n)
  /\ (forall type,
        Err.defaultStatusCode err = Status type ->
        (Err.errorStatusCodeRange err = ErrorStatusCodeRange.Server
           <-> 500 <= ErrorType.value type)
        /\ (Err.errorStatusCodeRange err = ErrorStatusCodeRange.Client
           <-> ErrorType.value type < 500)).
Proof.
  intros Hbuild. rewrite (build_range b err Hbuild).
  destruct (Err.defaultStatusCode err) as [type|member]; cbn.
  - rewrite determineErrorStatusRange_Server, determineErrorStatusRange_Client.
    split; [|split].
    + split; [intros H; eauto|intros (n & [= <-] & H); exact H].
    + split; [intros H (n & [= <-] & H'); lia|].
      intros H. destruct (Z.lt_ge_cases (ErrorType.value type) 500); [done|].
      exfalso. apply H. eauto.
    + intros type' [= <-].
      rewrite determineErrorStatusRange_Server, determineErrorStatusRange_Client. done.
  - split; [|split].
    + split; [done|intros (n & [=] & _)].
    + split; [intros _ (n & [=] & _)|done].
    + intros type [=].
Qed.

Lemma build_range_follows_status_code_witness :
  (ErrorStatusCodeRange.Client = ErrorStatusCodeRange.Server <-> 500 <= 404)
  /\ (ErrorStatusCodeRange.Client = ErrorStatusCodeRange.Client <-> 404 < 500).
Proof.
  exact (proj2 (proj2 (build_range_follows_status_code
           (Err.Builder.new
              |> Err.Builder.withErrorType ErrorType.NotFound
              |> Err.Builder.withMessage "Key does not exist")
           (Err.mk false ErrorType.NotFound "Key does not exist"
              ErrorStatusCodeRange.Client None)
           eq_refl)) ErrorType.NotFound eq_refl).
Defined.

(** C6. [Err.Builder.build()] throws when there is no backend error and
    the type, the message or both are missing; [Ok.Builder.build()]
    throws when no status code was set. A build that returns copies what
    was supplied: the backend error, or the type and the message; the
    status code and the data. *)
Theorem build_rejects_incomplete_builders :
  (forall b : Err.Builder.t,
      Err.Builder.awsError b = None ->
      Err.Builder.errorType b = None \/ Err.Builder.message b = None ->
      Err.Builder.build b
      = inl (Error "Both errorType and message have to be supplied when no AWSError provided"))
  /\ (forall (T : Type) (b : Ok.Builder.t T),
      Ok.Builder.defaultStatusCode b = None ->
      Ok.Builder.build b = inl (Error "defaultStatusCode has to be set"))
  /\ (forall (b : Err.Builder.t) (err : Err.t),
      Err.Builder.build b = inr err ->
      (exists e, Err.Builder.awsError b = Some e
                 /\ Err.awsError err = Some e /\ Err.isAwsError err = true
                 /\ Err.message err = AWSError.message e)
      \/ (Err.Builder.awsError b = None
          /\ (exists type, Err.Builder.errorType b = Some type
                           /\ Err.defaultStatusCode err = Status type)
          /\ Err.Builder.message b = Some (Err.message err)
          /\ Err.awsError err = None /\ Err.isAwsError err = false))
  /\ (forall (T : Type) (b : Ok.Builder.t T) (ok : Ok.t T),
      Ok.Builder.build b = inr ok ->
      Ok.Builder.defaultStatusCode b = Some (Ok.defaultStatusCode ok)
      /\ Ok.data ok = Ok.Builder.data b).
Proof.
  split; [|split; [|split]].
  - intros b Haws Hmissing.
    unfold Err.Builder.build, Err.Builder.validate. rewrite Haws.
    destruct Hmissing as [-> | ->]; cbn.
    + reflexivity.
    + rewrite andb_false_r. reflexivity.
  - intros T b Hcode.
    unfold Ok.Builder.build, Ok.Builder.validate. rewrite Hcode. reflexivity.
  - intros b err.
    unfold Err.Builder.build.
    destruct (Err.Builder.validate b); [done|].
    destruct (Err.Builder.awsError b) as [e|].
    + intros [= <-]. left. exists e. done.
    + destruct (Err.Builder.errorType b), (Err.Builder.message b); try done.
      intros [= <-]. right. cbn. eauto 10.
  - intros T b ok.
    unfold Ok.Builder.build, Ok.Builder.validate.
    destruct (Ok.Builder.defaultStatusCode b); [|done].
    intros [= <-]. done.
Qed.

Lemma build_rejects_incomplete_builders_witness :
  Err.Builder.build (Err.Builder.new |> Err.Builder.withErrorType ErrorType.BadRequest)
  = inl (Error "Both errorType and message have to be supplied when no AWSError provided")
  /\ Err.Builder.build (Err.Builder.new |> Err.Builder.withMessage "fake message")
     = inl (Error "Both errorType and message have to be supplied when no AWSError provided")
  /\ Err.Builder.build Err.Builder.new
     = inl (Error "Both errorType and message have to be supplied when no AWSError provided")
  /\ Ok.Builder.build (@Ok.Builder.new JSObject)
     = inl (Error "defaultStatusCode has to be set").
Proof.
  destruct build_rejects_incomplete_builders as (Herr & Hok & _ & _).
  split; [|split; [|split]].
  - apply Herr; [reflexivity | right; reflexivity].
  - apply Herr; [reflexivity | left; reflexivity].
  - apply Herr; [reflexivity | left; reflexivity].
  - apply Hok. reflexivity.
Defined.

(** The cases of [test/result.spec.ts]. *)
Example valid_Err_without_AWSError :
  Err.Builder.build
    (Err.Builder.new
       |> Err.Builder.withErrorType ErrorType.BadRequest
       |> Err.Builder.withMessage "fake error message")
  = inr (Err.mk false ErrorType.BadRequest "fake error message"
           ErrorStatusCodeRange.Client None).
Proof. reflexivity. Qed.

Example valid_Err_with_AWSError :
  let awsError := AWSError.mk "ValidationException" "fake aws error message" 400 in
  Err.Builder.build (Err.Builder.new |> Err.Builder.withAwsError awsError)
  = inr (Err.mk true ErrorType.BadRequest "fake aws error message"
           ErrorStatusCodeRange.Client (Some awsError)).
Proof. reflexivity. Qed.

Example valid_Ok_without_data :
  Ok.Builder.build
    (@Ok.Builder.new JSObject |> Ok.Builder.withDefaultStatusCode SuccessType.Ok)
  = inr (Ok.mk SuccessType.Ok None).
Proof. reflexivity. Qed.

(** An empty message counts as no message. *)
Example empty_message_is_rejected :
  Err.Builder.build
    (Err.Builder.new
       |> Err.Builder.withErrorType ErrorType.BadRequest
       |> Err.Builder.withMessage "")
  = inl (Error "Both errorType and message have to be supplied when no AWSError provided").
Proof. reflexivity. Qed.

(* ------------------------------------------------------------------ *)
(** ** Objects: reading, writing, merging *)
(* ------------------------------------------------------------------ *)

Section Objects.
Implicit Types (o src tgt : JSObject) (k : string) (v : JSValue).

Lemma obj_get_None o k : k ∉ Object_keys o -> obj_get o k = None.
Proof.
  unfold Object_keys, Object_entries.
  induction o as [|[k' v'] o IH]; cbn; [done|].
  intros Hnotin. apply not_elem_of_cons in Hnotin as [Hne Hnotin].
  destruct (String.eqb_spec k' k); [congruence | auto].
Qed.

Lemma obj_get_elem_of o k v :
  NoDup (Object_keys o) -> (k, v) ∈ o -> obj_get o k = Some v.
Proof.
  unfold Object_keys, Object_entries.
  induction o as [|[k' v'] o IH]; cbn; intros Hnodup Hin.
  - by apply elem_of_nil in Hin.
  - apply NoDup_cons in Hnodup as [Hfresh Hnodup].
    apply elem_of_cons in Hin as [[= -> ->] | Hin].
    + by rewrite String.eqb_refl.
    + destruct (String.eqb_spec k' k) as [-> | _]; [|auto].
      exfalso. apply Hfresh. apply list_elem_of_fmap. by exists (k, v).
Qed.






(** Defining a name the object does not have, and that is no array index,
    appends it. *)
Lemma obj_define_fresh o k v :
  k ∉ Object_keys o -> array_index k = None -> obj_define o k v = o ++ [(k, v)].
Proof.
  intros Hfresh Hindex. unfold obj_define.
  by rewrite (obj_get_None o k Hfresh), Hindex.
Qed.

Lemma obj_set_fresh o k v :
  k ∉ Object_keys o -> array_index k = None -> k <> "__proto__" ->
  obj_set o k v = o ++ [(k, v)].
Proof.
  intros Hfresh Hindex Hproto. unfold obj_set.
  destruct (String.eqb_spec k "__proto__"); [done|]. by apply obj_define_fresh.
Qed.

(** Properties created one after the other, none of them an array index,
    stay in the order of their creation. *)
Lemma object_of_loop (props : list (string * JSValue)) o :
  NoDup (Object_keys o ++ props.*1) ->
  (forall name, name ∈ props.*1 -> array_index name = None) ->
  fold_left (fun o kv => obj_define o kv.1 kv.2) props o = o ++ props.
Proof.
  unfold Object_keys, Object_entries.
  revert o. induction props as [|[k v] props IH]; intros o Hnodup Hindex; cbn.
  - by rewrite app_nil_r.
  - cbn in Hnodup. apply NoDup_app in Hnodup as (Ho & Hdisj & Hprops).
    apply NoDup_cons in Hprops as [Hk Hprops].
    rewrite obj_define_fresh.
    + rewrite IH.
      * by rewrite <- app_assoc.
      * rewrite fmap_app. cbn. rewrite <- app_assoc. cbn.
        apply NoDup_app. split; [done|]. split; [|by apply NoDup_cons].
        intros x Hx. apply Hdisj, Hx.
      * intros name Hname. apply Hindex. cbn. by right.
    + intros Hin. apply (Hdisj k Hin). by left.
    + apply Hindex. cbn. by left.
Qed.

(** A new array index goes among the array indices, whatever follows
    them. *)
Lemma obj_insert_index_app n k v (indices others : JSObject) :
  Forall (fun kv => is_Some (array_index kv.1)) indices ->
  Forall (fun kv => array_index kv.1 = None) others ->
  obj_insert_index n k v (indices ++ others)
  = obj_insert_index n k v indices ++ others.
Proof.
  intros Hindices Hothers. induction Hindices as [|[k' v'] indices [m Hm] _ IH]; cbn.
  - destruct Hothers as [|[k' v'] others Hk' _]; cbn; [done|].
    cbn in Hk'. by rewrite Hk'.
  - cbn in Hm. rewrite Hm. destruct (m <? n)%N; [by rewrite IH | done].
Qed.

Lemma obj_insert_index_Permutation n k v (o : JSObject) :
  obj_insert_index n k v o ≡ₚ (k, v) :: o.
Proof.
  induction o as [|[k' v'] o IH]; cbn; [done|].
  destruct (array_index k') as [m|]; [destruct (m <? n)%N|]; try done.
  rewrite IH. apply Permutation_swap.
Qed.

Lemma obj_insert_index_sorted n k v (indices : JSObject) :
  array_index k = Some n ->
  Forall (fun kv => is_Some (array_index kv.1)) indices ->
  StronglySorted index_le indices ->
  StronglySorted index_le (obj_insert_index n k v indices).
Proof.
  intros Hk Hindices Hsorted.
  induction Hsorted as [|[k' v'] indices Hsorted IH Hhead]; cbn.
  - repeat constructor.
  - apply Forall_cons in Hindices as [[m Hm] Hindices]. cbn in Hm. rewrite Hm.
    destruct (N.ltb_spec m n) as [Hlt | Hge].
    + constructor; [by apply IH|].
      rewrite obj_insert_index_Permutation. constructor; [|exact Hhead].
      unfold index_le. cbn. rewrite Hm, Hk. lia.
    + constructor; [by constructor|].
      constructor; [unfold index_le; cbn; rewrite Hm, Hk; lia|].
      eapply Forall_impl; [exact Hhead|].
      intros [k'' v'']. unfold index_le. cbn. rewrite Hm, Hk.
      destruct (array_index k''); [lia | done].
Qed.

(** Properties created one after the other, under pairwise distinct
    names, on an object that lists its array indices first. *)
Lemma object_of_loop_order (props : list (string * JSValue)) :
  forall indices others : JSObject,
    NoDup (Object_keys (indices ++ others) ++ props.*1) ->
    Forall (fun kv => is_Some (array_index kv.1)) indices ->
    Forall (fun kv => array_index kv.1 = None) others ->
    fold_left (fun o kv => obj_define o kv.1 kv.2) props (indices ++ others)
    = fold_left
        (fun o kv => obj_insert_index (default 0%N (array_index kv.1)) kv.1 kv.2 o)
        (index_named props) indices
      ++ others ++ otherwise_named props.
Proof.
  unfold Object_keys, Object_entries, index_named, otherwise_named.
  induction props as [|[k v] props IH]; intros indices others Hnodup Hindices Hothers.
  - cbn. by rewrite app_nil_r.
  - assert (k ∉ (indices ++ others).*1) as Hfresh.
    { apply NoDup_app in Hnodup as (_ & Hdisjoint & _).
      intros Hin. apply (Hdisjoint k Hin). cbn. left. }
    assert (forall o : JSObject,
               o.*1 ≡ₚ k :: (indices ++ others).*1 -> NoDup (o.*1 ++ props.*1)) as Hnext.
    { intros o Ho. rewrite Ho. cbn in Hnodup.
      apply NoDup_app in Hnodup as (Hold & Hdisjoint & Hnew).
      apply NoDup_cons in Hnew as [Hk Hnew].
      apply NoDup_app. split; [by apply NoDup_cons|]. split; [|done].
      intros x [-> | Hx]%elem_of_cons; [done|].
      intros Hin. apply (Hdisjoint x Hx). by right. }
    cbn [fold_left fst snd]. unfold obj_define.
    rewrite (obj_get_None (indices ++ others) k Hfresh).
    destruct (array_index k) as [n|] eqn:Hk.
    + rewrite obj_insert_index_app by done.
      rewrite (filter_cons_True (fun kv => is_Some (array_index kv.1)))
        by (cbn; by rewrite Hk).
      rewrite (filter_cons_False (fun kv => array_index kv.1 = None))
        by (cbn; by rewrite Hk).
      cbn [fold_left fst snd]. rewrite Hk. cbn [default].
      apply IH; [|by rewrite obj_insert_index_Permutation; constructor|done].
      apply Hnext. rewrite !fmap_app, obj_insert_index_Permutation. done.
    + rewrite (filter_cons_False (fun kv => is_Some (array_index kv.1)))
        by (cbn; rewrite Hk; by intros [? ?]).
      rewrite (filter_cons_True (fun kv => array_index kv.1 = None)) by done.
      rewrite <- app_assoc.
      rewrite IH; [by rewrite <- app_assoc| |done|].
      * apply Hnext. rewrite !fmap_app. cbn.
        by rewrite (Permutation_app_comm others.*1 [k]), (Permutation_middle).
      * apply Forall_app. split; [done|]. by constructor.
Qed.

(** The array indices among the properties, put in numeric order. *)
Lemma index_named_sorted (props : list (string * JSValue)) :
  forall indices : JSObject,
    Forall (fun kv => is_Some (array_index kv.1)) indices ->
    StronglySorted index_le indices ->
    let sorted :=
      fold_left
        (fun o kv => obj_insert_index (default 0%N (array_index kv.1)) kv.1 kv.2 o)
        (index_named props) indices in
    sorted ≡ₚ indices ++ index_named props
    /\ Forall (fun kv => is_Some (array_index kv.1)) sorted
    /\ StronglySorted index_le sorted.
Proof.
  unfold index_named.
  induction props as [|[k v] props IH]; intros indices Hindices Hsorted.
  - cbn. by rewrite app_nil_r.
  - destruct (array_index k) as [n|] eqn:Hk.
    + rewrite (filter_cons_True (fun kv => is_Some (array_index kv.1)))
        by (cbn; by rewrite Hk).
      cbn [fold_left fst snd]. rewrite Hk. cbn [default].
      destruct (IH (obj_insert_index n k v indices)) as (Hperm & Hall & Hord).
      * rewrite obj_insert_index_Permutation. constructor; [cbn; by rewrite Hk | done].
      * by apply obj_insert_index_sorted.
      * split; [|done]. rewrite Hperm, obj_insert_index_Permutation.
        cbn. apply Permutation_middle.
    + rewrite (filter_cons_False (fun kv => is_Some (array_index kv.1)))
        by (cbn; rewrite Hk; by intros [? ?]).
      by apply IH.
Qed.

(** The order of the properties of an object: the array indices first,
    in numeric order, then the other names in the order of their
    creation. *)
Lemma object_of_order (props : list (string * JSValue)) :
  NoDup props.*1 ->
  exists indices,
    Object_entries (object_of props) = indices ++ otherwise_named props
    /\ indices ≡ₚ index_named props
    /\ StronglySorted index_le indices.
Proof.
  intros Hnodup. unfold object_of, Object_entries.
  pose proof (object_of_loop_order props [] [] Hnodup (Forall_nil_2 _) (Forall_nil_2 _))
    as Hloop.
  cbn [app] in Hloop. rewrite Hloop.
  destruct (index_named_sorted props []) as (Hperm & _ & Hsorted);
    [constructor..|].
  eexists. split; [reflexivity|]. split; [exact Hperm | exact Hsorted].
Qed.

Lemma index_named_otherwise_named (props : list (string * JSValue)) :
  index_named props ++ otherwise_named props ≡ₚ props.
Proof.
  unfold index_named, otherwise_named.
  induction props as [|[k v] props IH]; [done|].
  destruct (array_index k) as [n|] eqn:Hk.
  - rewrite (filter_cons_True (fun kv => is_Some (array_index kv.1)))
      by (cbn; by rewrite Hk).
    rewrite (filter_cons_False (fun kv => array_index kv.1 = None))
      by (cbn; by rewrite Hk).
    cbn. by rewrite IH.
  - rewrite (filter_cons_False (fun kv => is_Some (array_index kv.1)))
      by (cbn; rewrite Hk; by intros [? ?]).
    rewrite (filter_cons_True (fun kv => array_index kv.1 = None)) by done.
    by rewrite <- Permutation_middle, IH.
Qed.

(** The object has the properties it was given, each once. *)
Lemma object_of_Permutation (props : list (string * JSValue)) :
  NoDup props.*1 ->
  Object_entries (object_of props) ≡ₚ props
  /\ NoDup (Object_keys (object_of props)).
Proof.
  intros Hnodup.
  destruct (object_of_order props Hnodup) as (indices & Hentries & Hperm & _).
  assert (Object_entries (object_of props) ≡ₚ props) as Hsame
    by (by rewrite Hentries, Hperm, index_named_otherwise_named).
  split; [exact Hsame|]. unfold Object_keys. by rewrite Hsame.
Qed.

Lemma object_of_insertion_order (props : list (string * JSValue)) :
  NoDup props.*1 ->
  (forall name, name ∈ props.*1 -> array_index name = None) ->
  object_of props = props.
Proof.
  intros Hnodup Hindex. unfold object_of. by rewrite object_of_loop.
Qed.


End Objects.

(* ------------------------------------------------------------------ *)
(** ** The update-expression builder *)
(* ------------------------------------------------------------------ *)

Section UpdateArgs.
Lemma binding_name_inj (a b : string) : ":" +:+ a = ":" +:+ b -> a = b.
Proof. intros H. cbv [String.append] in H. by injection H. Qed.

(** A binding name starts with a colon: it is no array index, and it is
    not [__proto__]. *)
Lemma binding_name_plain (a : string) :
  array_index (":" +:+ a) = None /\ ":" +:+ a <> "__proto__".
Proof. split; [reflexivity | discriminate]. Qed.

(** The loop, started from any clauses and bindings collected so far. *)
Lemma parseDynamoUpdateArgs_loop (data : JSObject) (cl : list string) (bs : JSObject) :
  NoDup (Object_keys data) ->
  (forall name, name ∈ Object_keys data -> ":" +:+ name ∉ Object_keys bs) ->
  fold_left parseDynamoUpdateArgs_step data (cl, bs)
  = (cl ++ map clause (Object_keys data), bs ++ map binding data).
Proof.
  unfold Object_keys, Object_entries.
  revert cl bs. induction data as [|[k v] data IH]; intros cl bs Hnodup Hfresh.
  - cbn. by rewrite !app_nil_r.
  - apply NoDup_cons in Hnodup as [Hk Hnodup].
    cbn [fold_left]. unfold parseDynamoUpdateArgs_step at 2. cbn [fst snd].
    rewrite obj_set_fresh;
      [|apply Hfresh; cbn; left|apply binding_name_plain..].
    rewrite IH; [|done|].
    + cbn. by rewrite <- !app_assoc.
    + intros name Hname.
      unfold Object_keys, Object_entries. rewrite fmap_app. cbn.
      intros Hin. apply elem_of_app in Hin as [Hin | Hin].
      * apply (Hfresh name); [cbn; by right | done].
      * apply list_elem_of_singleton in Hin.
        apply binding_name_inj in Hin. subst name. by apply Hk.
Qed.

Lemma obj_get_bindings (data : JSObject) (name : string) (value : JSValue) :
  NoDup (Object_keys data) -> (name, value) ∈ data ->
  obj_get (map binding data) (":" +:+ name) = Some value.
Proof.
  unfold Object_keys, Object_entries.
  induction data as [|[k v] data IH]; intros Hnodup Hin.
  - by apply elem_of_nil in Hin.
  - apply NoDup_cons in Hnodup as [Hk Hnodup].
    cbn [map obj_get binding fst snd].
    apply elem_of_cons in Hin as [[= -> ->] | Hin].
    + by rewrite String.eqb_refl.
    + destruct (String.eqb_spec (":" +:+ k) (":" +:+ name)) as [Heq | _]; [|auto].
      apply binding_name_inj in Heq. subst k.
      exfalso. apply Hk. apply list_elem_of_fmap. by exists (name, value).
Qed.
End UpdateArgs.

(** C7, as the code has it. On a flat attribute map, the builder emits
    the clause [name = :name] for each entry, in the order in which
    [Object.entries] lists the entries, joined by commas after [SET ],
    and binds [:name] to the value of each entry, in the same order;
    being a function of the entries, the output is the same whenever they
    are. For a map none of whose attribute names is an array index, that
    order is the order in which the attributes were put into the map. On
    [{key1:"v1", key2:123, key3:{a:"b"}}] the builder gives
    [SET key1 = :key1,key2 = :key2,key3 = :key3] and
    [{":key1":"v1", ":key2":123, ":key3":{a:"b"}}]. *)
Theorem parseDynamoUpdateArgs_clauses_and_bindings :
  (forall data : JSObject,
      NoDup (Object_keys data) ->
      UpdateExpression (parseDynamoUpdateArgs data)
      = "SET " +:+ join "," (map (fun name => name +:+ " = :" +:+ name) (Object_keys data))
      /\ ExpressionAttributeValues (parseDynamoUpdateArgs data)
         = map (fun kv => (":" +:+ kv.1, kv.2)) (Object_entries data)
      /\ (forall name value,
             (name, value) ∈ Object_entries data ->
             obj_get (ExpressionAttributeValues (parseDynamoUpdateArgs data)) (":" +:+ name)
             = Some value))
  /\ (forall props : list (string * JSValue),
      NoDup props.*1 ->
      (forall name, name ∈ props.*1 -> array_index name = None) ->
      Object_entries (object_of props) = props
      /\ UpdateExpression (parseDynamoUpdateArgs (object_of props))
         = "SET " +:+ join "," (map (fun name => name +:+ " = :" +:+ name) props.*1)
      /\ ExpressionAttributeValues (parseDynamoUpdateArgs (object_of props))
         = map (fun kv => (":" +:+ kv.1, kv.2)) props)
  /\ (forall props : list (string * JSValue),
      NoDup props.*1 ->
      exists indices,
        Object_entries (object_of props) = indices ++ otherwise_named props
        /\ indices ≡ₚ index_named props
        /\ StronglySorted index_le indices
        /\ UpdateExpression (parseDynamoUpdateArgs (object_of props))
           = "SET " +:+ join ","
                          (map (fun name => name +:+ " = :" +:+ name)
                             (indices ++ otherwise_named props).*1))
  /\ parseDynamoUpdateArgs
       (object_of [("key1", JSString "v1"); ("key2", JSNumber 123);
                   ("key3", JSObj [("a", JSString "b")])])
     = {| UpdateExpression := "SET key1 = :key1,key2 = :key2,key3 = :key3";
          ExpressionAttributeValues :=
            [(":key1", JSString "v1"); (":key2", JSNumber 123);
             (":key3", JSObj [("a", JSString "b")])] |}.
Proof.
  assert (forall data : JSObject,
             NoDup (Object_keys data) ->
             parseDynamoUpdateArgs data
             = {| UpdateExpression := "SET " +:+ join "," (map clause (Object_keys data));
                  ExpressionAttributeValues := map binding data |}) as Hloop.
  { intros data Hnodup. unfold parseDynamoUpdateArgs, Object_entries.
    rewrite (parseDynamoUpdateArgs_loop data [] []); [done|done|].
    intros name _ Hin. by apply elem_of_nil in Hin. }
  split; [|split; [|split; [|reflexivity]]].
  - intros data Hnodup. rewrite (Hloop data Hnodup).
    cbn [UpdateExpression ExpressionAttributeValues].
    split; [reflexivity|]. split; [reflexivity|].
    intros name value Hin. by apply obj_get_bindings.
  - intros props Hnodup Hindex.
    rewrite (object_of_insertion_order props Hnodup Hindex).
    split; [reflexivity|]. by rewrite (Hloop props Hnodup).
  - intros props Hnodup.
    destruct (object_of_order props Hnodup) as (indices & Hentries & Hperm & Hsorted).
    destruct (object_of_Permutation props Hnodup) as [_ Hkeys].
    exists indices. split; [exact Hentries|]. split; [exact Hperm|].
    split; [exact Hsorted|].
    rewrite (Hloop _ Hkeys). cbn [UpdateExpression].
    unfold Object_keys. by rewrite Hentries.
Qed.

Lemma parseDynamoUpdateArgs_clauses_and_bindings_witness :
  UpdateExpression (parseDynamoUpdateArgs (object_of [("attr2", JSString "v2")]))
  = "SET attr2 = :attr2"
  /\ ExpressionAttributeValues (parseDynamoUpdateArgs (object_of [("attr2", JSString "v2")]))
     = [(":attr2", JSString "v2")].
Proof.
  destruct parseDynamoUpdateArgs_clauses_and_bindings as (_ & Hall & _ & _).
  destruct (Hall [("attr2", JSString "v2")]) as (_ & Hclauses & Hbindings).
  - apply NoDup_cons. split; [apply not_elem_of_nil | apply NoDup_nil_2].
  - intros name Hin. apply list_elem_of_singleton in Hin. by subst name.
  - split; [exact Hclauses | exact Hbindings].
Defined.

(** C7, as stated, fails for attribute names that are array indices:
    in [{b: 'x', 2: 'y', 1: 'z'}] the clauses of [1] and [2] come first,
    in this order. *)
Lemma integer_like_names_come_first :
  ~ clauses_in_insertion_order Examples.integer_like_names.
Proof.
  unfold clauses_in_insertion_order. vm_compute. discriminate.
Qed.

Example integer_like_names_update_expression :
  UpdateExpression (parseDynamoUpdateArgs (object_of Examples.integer_like_names))
  = "SET 1 = :1,2 = :2,b = :b".
Proof. reflexivity. Qed.

(* ------------------------------------------------------------------ *)
(** ** The client: the shape of a call *)
(* ------------------------------------------------------------------ *)

Section Calls.
Import RestOnDynamoClient.
Context {S : Type}.
Variable tableName : string.
Variable dynamodb : DynamoDB.t S.

Local Abbreviation call := (RestOnDynamoClient.call tableName dynamodb).
Local Abbreviation item_exchange := (RestOnDynamoClient.item_exchange tableName dynamodb).
Local Abbreviation Resolution := (RestOnDynamoClient.Resolution tableName dynamodb).

(** The laws of [bind] and [ret], at every environment. *)
Lemma bind_ret_l {A B : Type} (a : A) (k : A -> M (S:=S) B) (env : Env) :
  bind (ret a) k env = k a env.
Proof. unfold bind, ret. by destruct (k a env) as [[b tr] env']. Qed.

Lemma bind_ret_r {A : Type} (m : M (S:=S) A) (env : Env) :
  bind m ret env = m env.
Proof. unfold bind, ret. destruct (m env) as [[a tr] env']. by rewrite app_nil_r. Qed.

Lemma bind_assoc {A B C : Type} (m : M (S:=S) A) (k : A -> M B) (h : B -> M C)
    (env : Env) :
  bind (bind m k) h env = bind m (fun a => bind (k a) h) env.
Proof.
  unfold bind. destruct (m env) as [[a tr1] env1].
  destruct (k a env1) as [[b tr2] env2]. destruct (h b env2) as [[c tr3] env3].
  by rewrite app_assoc.
Qed.

(** A call either stops at a failed schema lookup, or resolves the
    schema and makes exactly one item operation. *)
Lemma call_inv verb id data callback (env : Env)
    (a : Action (Ok.t JSObject)) (tr : list Exchange) (env' : Env) :
  call verb id data callback env = (a, tr, env') ->
  (exists e s1 err,
      keys env = None
      /\ DynamoDB.describeTable dynamodb (DescribeTableInput.mk tableName) (table env)
         = (inl e, s1)
      /\ Err.Builder.build (Err.Builder.new |> Err.Builder.withAwsError e) = inr err
      /\ a = Rej err
      /\ tr = [DescribeTableX (DescribeTableInput.mk tableName) (inl e)]
      /\ env' = mkEnv None s1)
  \/ (exists ks lookups s1 x s2,
      Resolution env ks lookups s1
      /\ item_exchange verb ks id data callback s1 = (a, x, s2)
      /\ tr = lookups ++ [x]
      /\ env' = mkEnv (Some ks) s2).
Proof.
  destruct env as [ks s].
  unfold RestOnDynamoClient.call. intros Hcall.
  destruct verb;
    unfold get, head, post, put, patch, delete, then_, this_keys, keySchemaSync,
      keySchemaSync_params, keySchemaSync_callback, bind, sdk, getKeys, setKeys, ret
      in Hcall;
    revert Hcall;
    (destruct ks as [ks|]; cbn;
     [|destruct (DynamoDB.describeTable dynamodb (DescribeTableInput.mk tableName) s)
         as [[e|d] s1] eqn:Hlookup]).
  all: intros Hcall; cbn in Hcall.
  all: try (injection Hcall as <- <- <-; left; exists e, s1; eexists; cbn; done).
  all: right; unfold RestOnDynamoClient.item_exchange; revert Hcall.
  all: match goal with
       | |- context [DynamoDB.get ?d ?p ?t] =>
           destruct (DynamoDB.get d p t) as [r s2] eqn:Hop
       | |- context [DynamoDB.put ?d ?p ?t] =>
           destruct (DynamoDB.put d p t) as [r s2] eqn:Hop
       | |- context [DynamoDB.delete ?d ?p ?t] =>
           destruct (DynamoDB.delete d p t) as [r s2] eqn:Hop
       | |- context [DynamoDB.update ?d ?p ?t] =>
           destruct (DynamoDB.update d p t) as [r s2] eqn:Hop
       end.
  all: intros Hcall; injection Hcall as <- <- <-.
  all: first
    [ exists ks, [], s; do 2 eexists; split; [by apply cached|];
      rewrite Hop; done
    | eexists _, _, s1; do 2 eexists; split; [by apply looked_up|];
      rewrite Hop; done ].
Qed.
End Calls.

Section Verbs.
Import RestOnDynamoClient.
Context {S : Type}.
Variable tableName : string.
Variable dynamodb : DynamoDB.t S.

Local Abbreviation call := (RestOnDynamoClient.call tableName dynamodb).
Local Abbreviation item_exchange := (RestOnDynamoClient.item_exchange tableName dynamodb).
Local Abbreviation Resolution := (RestOnDynamoClient.Resolution tableName dynamodb).

(** A resolution costs at most one exchange, a schema lookup. *)
Lemma Resolution_lookups (env : Env) ks lookups s1 :
  Resolution env ks lookups s1 ->
  item_operations lookups = []
  /\ schema_lookups lookups = lookups
  /\ (lookups = [] /\ keys env = Some ks
      \/ exists d, lookups = [DescribeTableX (DescribeTableInput.mk tableName) (inr d)]
                   /\ keys env = None
                   /\ ks = map AttributeName (DescribeTableOutput.KeySchema d)).
Proof.
  intros [ks' Hks | d s1' Hks Hlookup]; repeat split; eauto.
Qed.

Lemma item_exchange_not_describe verb ks id data callback s a x s2 :
  item_exchange verb ks id data callback s = (a, x, s2) -> is_describe x = false.
Proof.
  unfold RestOnDynamoClient.item_exchange.
  destruct verb;
    match goal with
    | |- context [let '(_, _) := ?op in _] => destruct op
    end; by intros [= <- <- <-].
Qed.

(** The exchanges of a call that resolved the schema. *)
Lemma trace_split (env : Env) ks lookups s1 verb id data callback a x s2 :
  Resolution env ks lookups s1 ->
  item_exchange verb ks id data callback s1 = (a, x, s2) ->
  item_operations (lookups ++ [x]) = [x]
  /\ schema_lookups (lookups ++ [x]) = lookups
  /\ (forall y, y ∈ lookups ++ [x] -> is_describe y = false -> y = x).
Proof.
  intros Hres Hitem.
  pose proof (item_exchange_not_describe _ _ _ _ _ _ _ _ _ Hitem) as Hx.
  destruct (Resolution_lookups _ _ _ _ Hres) as (Hops & Hlookups & Hshape).
  unfold item_operations, schema_lookups in *.
  rewrite !filter_app, Hops, Hlookups.
  split; [|split].
  - rewrite filter_cons_True by done. done.
  - rewrite filter_cons_False by (rewrite Hx; done). by rewrite filter_nil, app_nil_r.
  - intros y Hy Hdescribe. apply elem_of_app in Hy as [Hy | Hy].
    + assert (y ∈ filter (fun x => is_describe x = false) lookups) as Hin
        by (apply list_elem_of_filter; done).
      rewrite Hops in Hin. by apply elem_of_nil in Hin.
    + by apply list_elem_of_singleton in Hy.
Qed.

(** What the callback of an item operation does with a failure: the
    builder gets the failure and the verb's override table. *)
Lemma item_exchange_failure verb ks id data callback s a x s2 e :
  item_exchange verb ks id data callback s = (a, x, s2) ->
  failure_of x = Some e ->
  exists b err,
    Err.Builder.awsError b = Some e
    /\ Err.Builder.awsErrorCodeToErrorTypeOverride b = override_of verb
    /\ Err.Builder.build b = inr err
    /\ a = fail callback err.
Proof.
  unfold RestOnDynamoClient.item_exchange.
  destruct verb;
    match goal with
    | |- context [let '(_, _) := ?op in _] => destruct op as [[e'|d] s']
    end; intros Hx Hfailure; injection Hx as <- <- <-;
    try discriminate Hfailure; injection Hfailure as ->.
  all: match goal with
       | |- context [override_of ?v] =>
           exists (Err.Builder.mk None None (Some e) (override_of v))
       end.
  all: eexists; split; [reflexivity|split; [reflexivity|split; [reflexivity|]]].
  all: reflexivity.
Qed.

Lemma Resolution_functional (env : Env) ks lookups s1 ks' lookups' s1' :
  Resolution env ks lookups s1 ->
  Resolution env ks' lookups' s1' ->
  ks = ks' /\ lookups = lookups' /\ s1 = s1'.
Proof.
  intros [k Hk | d t Hk Hd] [k' Hk' | d' t' Hk' Hd']; try congruence.
  - rewrite Hk in Hk'. by injection Hk' as ->.
  - rewrite Hd in Hd'. by injection Hd' as -> ->.
Qed.

(** The converse of [call_inv]: with the schema resolved, a call is its
    item operation, after the lookup if there was one. *)
Lemma call_resolved verb id data callback (env : Env) ks lookups s1 a x s2 :
  Resolution env ks lookups s1 ->
  item_exchange verb ks id data callback s1 = (a, x, s2) ->
  call verb id data callback env = (a, lookups ++ [x], mkEnv (Some ks) s2).
Proof.
  intros Hres Hx.
  destruct (call verb id data callback env) as [[a' tr'] env''] eqn:Hcall.
  apply call_inv in Hcall
    as [(e0 & t & err0 & Hnone & Hfailed & _)
       | (ks' & lookups' & s1' & x' & s2' & Hres' & Hx' & -> & ->)].
  - destruct Hres as [k Hk | d t' Hk Hd]; congruence.
  - destruct (Resolution_functional _ _ _ _ _ _ _ Hres' Hres) as (-> & -> & ->).
    rewrite Hx in Hx'. by injection Hx' as <- <- <-.
Qed.

(** A call that finds no schema cached and whose lookup fails rejects
    with the classified failure and sends nothing else. *)
Lemma call_unresolved verb id data callback (env : Env) e s1 :
  keys env = None ->
  DynamoDB.describeTable dynamodb (DescribeTableInput.mk tableName) (table env)
  = (inl e, s1) ->
  exists err,
    Err.Builder.build (Err.Builder.new |> Err.Builder.withAwsError e) = inr err
    /\ call verb id data callback env
       = (Rej err, [DescribeTableX (DescribeTableInput.mk tableName) (inl e)],
          mkEnv None s1).
Proof.
  intros Hnone Hfailed.
  destruct (call verb id data callback env) as [[a' tr'] env''] eqn:Hcall.
  apply call_inv in Hcall
    as [(e0 & t & err0 & _ & Hfailed' & Hbuild & -> & -> & ->)
       | (ks' & lookups' & s1' & x' & s2' & Hres' & _)].
  - rewrite Hfailed in Hfailed'. injection Hfailed' as <- <-. eauto.
  - destruct Hres' as [k Hk | d t' Hk Hd]; congruence.
Qed.

Lemma delivered_fail callback err : delivered (fail callback err) = Some (inl err).
Proof. by destruct callback. Qed.

Lemma delivered_succeed callback ok : delivered (succeed callback ok) = Some (inr ok).
Proof. by destruct callback. Qed.

(** A failed item operation reaches the caller as the [Err] the
    classifier makes of the failure under the verb's override table. *)
Lemma failed_item_operation verb id data callback (env : Env) a tr env' x e :
  call verb id data callback env = (a, tr, env') ->
  x ∈ tr -> is_describe x = false -> failure_of x = Some e ->
  exists err,
    a = fail callback err
    /\ Err.isAwsError err = true
    /\ Err.awsError err = Some e
    /\ Err.defaultStatusCode err
       = (if AWSError.statusCode e =? 503 then Status ErrorType.ServiceUnavailable
          else if AWSError.statusCode e =? 500 then Status ErrorType.InternalServerError
          else default (Status ErrorType.BadRequest)
                 (table_get (override_of verb) (AWSError.code e))).
Proof.
  intros Hcall Hin Hitem Hfailure.
  apply call_inv in Hcall
    as [(e0 & s1 & err0 & _ & _ & _ & -> & -> & ->)
       | (ks & lookups & s1 & x' & s2 & Hres & Hx & -> & ->)].
  - apply list_elem_of_singleton in Hin. subst x. discriminate.
  - destruct (trace_split _ _ _ _ _ _ _ _ _ _ _ Hres Hx) as (_ & _ & Honly).
    apply Honly in Hin; [|done]. subst x'.
    destruct (item_exchange_failure _ _ _ _ _ _ _ _ _ _ Hx Hfailure)
      as (b & err & Haws & Hoverride & Hbuild & ->).
    destruct (build_awsError b e Haws) as (type & Hbuild' & Htype).
    rewrite Hbuild' in Hbuild. injection Hbuild as <-.
    eexists. split; [reflexivity|]. cbn. rewrite <- Hoverride. by subst type.
Qed.
End Verbs.

(* ------------------------------------------------------------------ *)
(** ** The client: what the verbs guarantee *)
(* ------------------------------------------------------------------ *)

Section Dispatcher.
Import RestOnDynamoClient.
Context {S : Type}.
Variable tableName : string.
Variable dynamodb : DynamoDB.t S.

Local Abbreviation call := (RestOnDynamoClient.call tableName dynamodb).
Local Abbreviation item_exchange := (RestOnDynamoClient.item_exchange tableName dynamodb).

Lemma item_exchange_carries verb ks id data callback s a x s2 :
  item_exchange verb ks id data callback s = (a, x, s2) ->
  carried_object x = Some (sent_object verb id data).
Proof.
  unfold RestOnDynamoClient.item_exchange.
  destruct verb;
    match goal with
    | |- context [let '(_, _) := ?op in _] => destruct op
    end; by intros [= <- <- <-].
Qed.

(** C1, as the code has it. The client never compares an [Id] with the
    key schema. Once the schema is resolved, a call, and so one whose
    [Id] does not match the schema, sends exactly one item operation
    carrying the [Id] as given; the call ends in an [Err] with status
    400 when the store rejects that operation with a failure whose
    status is neither 503 nor 500 and whose code the verb does not
    override and no object inherits a member for, as is the case of a
    [ValidationException]. *)
Theorem key_schema_violation_is_left_to_the_store
    verb id data callback (env : Env) a tr env' ks :
  call verb id data callback env = (a, tr, env') ->
  keys env' = Some ks ->
  exists x,
    item_operations tr = [x]
    /\ carried_object x = Some (sent_object verb id data)
    /\ (forall e,
           failure_of x = Some e ->
           AWSError.statusCode e <> 503 -> AWSError.statusCode e <> 500 ->
           override_of verb !! AWSError.code e = None ->
           AWSError.code e ∉ Object_prototype ->
           exists err,
             delivered a = Some (inl err)
             /\ Err.isAwsError err = true
             /\ Err.awsError err = Some e
             /\ Err.defaultStatusCode err = ErrorType.BadRequest
             /\ status_number (Err.defaultStatusCode err) = Some 400).
Proof.
  intros Hcall Hkeys.
  pose proof Hcall as Hinv.
  apply call_inv in Hinv
    as [(e0 & s1 & err0 & _ & _ & _ & _ & _ & ->)
       | (ks' & lookups & s1 & x & s2 & Hres & Hx & -> & ->)]; [discriminate|].
  destruct (trace_split _ _ _ _ _ _ _ _ _ _ _ _ _ Hres Hx) as (Hops & _ & _).
  exists x. split; [exact Hops|].
  split; [exact (item_exchange_carries _ _ _ _ _ _ _ _ _ Hx)|].
  intros e Hfailure H503 H500 Hoverride Hown.
  destruct (failed_item_operation _ _ _ _ _ _ _ _ _ _ x e Hcall)
    as (err & -> & Haws & Hsame & Htype).
  - apply elem_of_app. right. apply list_elem_of_here.
  - exact (item_exchange_not_describe _ _ _ _ _ _ _ _ _ _ _ Hx).
  - exact Hfailure.
  - exists err. rewrite delivered_fail.
    apply Z.eqb_neq in H503, H500.
    rewrite H503, H500, (table_get_undefined _ _ Hoverride Hown) in Htype.
    cbn in Htype. rewrite Htype. done.
Qed.

(** What the classifier makes of a [ConditionalCheckFailedException]
    with a client-range status under a table that has an entry for it. *)
Lemma build_conditional_check_failure (e : AWSError.t) (type : ErrorType.t) :
  AWSError.code e = AwsErrorCode.ConditionalCheckFailedException ->
  400 <= AWSError.statusCode e < 500 ->
  Err.Builder.build
    (Err.Builder.new
       |> Err.Builder.withAwsError e
       |> Err.Builder.withAwsErrorCodeToErrorTypeOverride
            {[ AwsErrorCode.ConditionalCheckFailedException := type ]})
  = inr (Err.mk true (Status type) (AWSError.message e)
           (determineErrorStatusRange (ErrorType.value type)) (Some e)).
Proof.
  intros Hcode Hrange.
  destruct (build_awsError
              (Err.Builder.new
                 |> Err.Builder.withAwsError e
                 |> Err.Builder.withAwsErrorCodeToErrorTypeOverride
                      {[ AwsErrorCode.ConditionalCheckFailedException := type ]})
              e eq_refl) as (code & -> & ->).
  assert ((AWSError.statusCode e =? 503) = false) as -> by (apply Z.eqb_neq; lia).
  assert ((AWSError.statusCode e =? 500) = false) as -> by (apply Z.eqb_neq; lia).
  cbn [Err.Builder.awsErrorCodeToErrorTypeOverride Err.Builder.withAwsErrorCodeToErrorTypeOverride
       Err.Builder.withAwsError Err.Builder.new].
  rewrite Hcode. reflexivity.
Qed.

(** C3. Once the key schema is resolved, [post] sends its conditional
    write, and when the store answers it with a
    [ConditionalCheckFailedException] of client-range status the call
    ends in an [Err] with status 409 (Conflict); [put] sends its write
    and [patch] its update, and the same answer ends in an [Err] with
    status 404 (NotFound).  Nothing else is sent, and the [Err] goes to
    the callback if there is one and rejects the promise if not. *)
Theorem conditional_check_failure_per_verb
    id data callback (env : Env) ks lookups s1 (e : AWSError.t) s2 :
  RestOnDynamoClient.Resolution tableName dynamodb env ks lookups s1 ->
  AWSError.code e = AwsErrorCode.ConditionalCheckFailedException ->
  400 <= AWSError.statusCode e < 500 ->
  (forall p,
      p = PutItemInput.mk tableName (Object_assign [] [data; id])
            (keyNotExistConditionalExpression ks) ->
      DynamoDB.put dynamodb p s1 = (inl e, s2) ->
      exists err,
        post tableName dynamodb id data callback env
        = (fail callback err, lookups ++ [PutX p (inl e)], mkEnv (Some ks) s2)
        /\ delivered (fail callback err) = Some (inl err)
        /\ Err.awsError err = Some e
        /\ Err.defaultStatusCode err = ErrorType.Conflict
        /\ status_number (Err.defaultStatusCode err) = Some 409)
  /\ (forall p,
      p = PutItemInput.mk tableName (Object_assign [] [data; id])
            (keyExistConditionalExpression ks) ->
      DynamoDB.put dynamodb p s1 = (inl e, s2) ->
      exists err,
        put tableName dynamodb id data callback env
        = (fail callback err, lookups ++ [PutX p (inl e)], mkEnv (Some ks) s2)
        /\ delivered (fail callback err) = Some (inl err)
        /\ Err.awsError err = Some e
        /\ Err.defaultStatusCode err = ErrorType.NotFound
        /\ status_number (Err.defaultStatusCode err) = Some 404)
  /\ (forall p,
      p = UpdateItemInput.mk tableName id (keyExistConditionalExpression ks) "ALL_NEW"
            (UpdateExpression (parseDynamoUpdateArgs data))
            (ExpressionAttributeValues (parseDynamoUpdateArgs data)) ->
      DynamoDB.update dynamodb p s1 = (inl e, s2) ->
      exists err,
        patch tableName dynamodb id data callback env
        = (fail callback err, lookups ++ [UpdateX p (inl e)], mkEnv (Some ks) s2)
        /\ delivered (fail callback err) = Some (inl err)
        /\ Err.awsError err = Some e
        /\ Err.defaultStatusCode err = ErrorType.NotFound
        /\ status_number (Err.defaultStatusCode err) = Some 404).
Proof.
  intros Hres Hcode Hrange.
  split; [|split]; intros p -> Hop; eexists.
  - split.
    + apply (call_resolved tableName dynamodb POST _ _ _ _ _ _ _ _ _ _ Hres).
      unfold RestOnDynamoClient.item_exchange. rewrite Hop.
      unfold post_callback. rewrite (build_conditional_check_failure e _ Hcode Hrange).
      reflexivity.
    + by rewrite delivered_fail.
  - split.
    + apply (call_resolved tableName dynamodb PUT _ _ _ _ _ _ _ _ _ _ Hres).
      unfold RestOnDynamoClient.item_exchange. rewrite Hop.
      unfold put_callback. rewrite (build_conditional_check_failure e _ Hcode Hrange).
      reflexivity.
    + by rewrite delivered_fail.
  - split.
    + apply (call_resolved tableName dynamodb PATCH _ _ _ _ _ _ _ _ _ _ Hres).
      unfold RestOnDynamoClient.item_exchange. rewrite Hop.
      unfold patch_callback. rewrite (build_conditional_check_failure e _ Hcode Hrange).
      reflexivity.
    + by rewrite delivered_fail.
Qed.

(** C8. Once the key schema is resolved, [delete] sends the store one
    delete of the key alone, with no condition on the item being there;
    whenever that delete succeeds, present item or not, the call ends in
    [Ok] with status 204 and no data.  An [Err] comes only from a
    backend failure, put through the classifier: the failure of the
    delete, or of the schema lookup, after which nothing is sent. *)
Theorem delete_succeeds_whenever_the_store_does id callback (env : Env) :
  (forall ks lookups s1 r s2,
      RestOnDynamoClient.Resolution tableName dynamodb env ks lookups s1 ->
      DynamoDB.delete dynamodb (DeleteItemInput.mk tableName id) s1 = (r, s2) ->
      exists a,
        delete tableName dynamodb id callback env
        = (a, lookups ++ [DeleteX (DeleteItemInput.mk tableName id) r],
           mkEnv (Some ks) s2)
        /\ match r with
           | inr _ =>
               a = succeed callback (Ok.mk SuccessType.NoContent None)
               /\ delivered a = Some (inr (Ok.mk SuccessType.NoContent None))
           | inl e =>
               exists err,
                 a = fail callback err
                 /\ delivered a = Some (inl err)
                 /\ Err.Builder.build (Err.Builder.new |> Err.Builder.withAwsError e)
                    = inr err
                 /\ Err.isAwsError err = true
                 /\ Err.awsError err = Some e
           end)
  /\ (forall e s1,
      keys env = None ->
      DynamoDB.describeTable dynamodb (DescribeTableInput.mk tableName) (table env)
      = (inl e, s1) ->
      exists err,
        delete tableName dynamodb id callback env
        = (Rej err, [DescribeTableX (DescribeTableInput.mk tableName) (inl e)],
           mkEnv None s1)
        /\ Err.Builder.build (Err.Builder.new |> Err.Builder.withAwsError e) = inr err
        /\ Err.isAwsError err = true
        /\ Err.awsError err = Some e)
  /\ (forall a tr env' err,
      delete tableName dynamodb id callback env = (a, tr, env') ->
      delivered a = Some (inl err) ->
      exists x e,
        x ∈ tr /\ failure_of x = Some e
        /\ Err.Builder.build (Err.Builder.new |> Err.Builder.withAwsError e) = inr err
        /\ Err.isAwsError err = true).
Proof.
  split; [|split].
  - intros ks lookups s1 r s2 Hres Hop. eexists. split.
    + apply (call_resolved tableName dynamodb DELETE id [] callback _ _ _ _ _ _ _ Hres).
      unfold RestOnDynamoClient.item_exchange. rewrite Hop. reflexivity.
    + destruct r as [e|u]; cbn.
      * destruct (build_awsError (Err.Builder.new |> Err.Builder.withAwsError e) e eq_refl)
          as (code & Hbuild & _).
        eexists. split; [reflexivity|]. rewrite delivered_fail.
        split; [reflexivity|]. split; [reflexivity|]. done.
      * by rewrite delivered_succeed.
  - intros e s1 Hnone Hfailed.
    destruct (call_unresolved tableName dynamodb DELETE id [] callback env e s1 Hnone Hfailed)
      as (err & Hbuild & Hcall).
    exists err. split; [exact Hcall|]. split; [exact Hbuild|].
    destruct (build_awsError (Err.Builder.new |> Err.Builder.withAwsError e) e eq_refl)
      as (code & Hbuild' & _).
    rewrite Hbuild' in Hbuild. by injection Hbuild as <-.
  - intros a tr env' err Hcall.
    change (call DELETE id [] callback env = (a, tr, env')) in Hcall.
    apply call_inv in Hcall
      as [(e0 & s1 & err0 & _ & _ & Hbuild & -> & -> & ->)
         | (ks & lookups & s1 & x & s2 & Hres & Hx & -> & ->)].
    + intros [= <-]. eexists _, e0. split; [apply list_elem_of_here|].
      split; [reflexivity|]. split; [exact Hbuild|].
      destruct (build_awsError (Err.Builder.new |> Err.Builder.withAwsError e0) e0 eq_refl)
        as (code & Hbuild' & _).
      rewrite Hbuild' in Hbuild. by injection Hbuild as <-.
    + unfold RestOnDynamoClient.item_exchange in Hx.
      destruct (DynamoDB.delete dynamodb (DeleteItemInput.mk tableName id) s1)
        as [r s'].
      injection Hx as <- <- <-.
      intros Hdelivered. destruct r as [e|[]]; cbn in Hdelivered.
      * rewrite delivered_fail in Hdelivered. injection Hdelivered as <-.
        eexists _, e. split; [apply elem_of_app; right; apply list_elem_of_here|].
        done.
      * rewrite delivered_succeed in Hdelivered. discriminate.
Qed.


(** The callback flag changes neither the operation nor the table, only
    the way the outcome is handed over. *)
Lemma item_exchange_callback verb ks id data s a1 x1 s1 a2 x2 s2 :
  item_exchange verb ks id data true s = (a1, x1, s1) ->
  item_exchange verb ks id data false s = (a2, x2, s2) ->
  x1 = x2 /\ s1 = s2 /\ a1 = via_callback a2
  /\ ((exists ok, a2 = Res ok) \/ (exists err, a2 = Rej err)).
Proof.
  unfold RestOnDynamoClient.item_exchange.
  destruct verb;
    match goal with
    | |- context [let '(_, _) := ?op in _] => destruct op as [[e|d] s']
    end; intros [= <- <- <-] [= <- <- <-]; cbn;
    try (destruct (GetItemOutput.Item d)); cbn; eauto 10.
Qed.

(** C2, as the code has it. A call does the same work whether or not a
    callback is passed. Once the key schema is resolved, every verb
    hands its [Ok] or [Err] either to the callback or to the promise,
    never to both: with a callback the promise in the returned [Result]
    stays pending, without one the callback is not involved; the [Ok]
    or [Err] is the same on either path. *)
Theorem callback_receives_what_the_promise_would
    verb id data (env : Env) a_cb tr_cb env_cb a_p tr_p env_p ks :
  call verb id data true env = (a_cb, tr_cb, env_cb) ->
  call verb id data false env = (a_p, tr_p, env_p) ->
  keys env_p = Some ks ->
  tr_cb = tr_p /\ env_cb = env_p
  /\ Result.promise (result_of a_cb) = Pending
  /\ callback_of a_p = None
  /\ ((exists ok, Result.promise (result_of a_p) = Fulfilled ok
                  /\ callback_of a_cb = Some (None, Some ok))
      \/ (exists err, Result.promise (result_of a_p) = Rejected err
                      /\ callback_of a_cb = Some (Some err, None)))
  /\ delivered a_cb = delivered a_p.
Proof.
  intros Hcb Hp Hkeys.
  apply call_inv in Hp
    as [(e0 & s1 & err0 & _ & _ & _ & _ & _ & ->)
       | (ks2 & lookups2 & t2 & x2 & s2 & Hres2 & Hx2 & -> & ->)]; [discriminate|].
  apply call_inv in Hcb
    as [(e0 & s1 & err0 & Hnone & Hfailed & _)
       | (ks1 & lookups1 & t1 & x1 & s1 & Hres1 & Hx1 & -> & ->)].
  - destruct Hres2 as [k Hk | d t Hk Hd]; congruence.
  - destruct (Resolution_functional tableName dynamodb _ _ _ _ _ _ _ Hres1 Hres2)
      as (-> & -> & ->).
    destruct (item_exchange_callback _ _ _ _ _ _ _ _ _ _ _ Hx1 Hx2)
      as (-> & -> & -> & [[ok ->] | [err ->]]); cbn; eauto 10.
Qed.

(** A single call and the cache: a cached schema is used as it is;
    without one the call makes exactly one lookup and caches the schema
    if the lookup succeeds. *)
Lemma call_lookups verb id data callback (env : Env) a tr env' :
  call verb id data callback env = (a, tr, env') ->
  match keys env with
  | Some ks => schema_lookups tr = [] /\ keys env' = Some ks
  | None =>
      exists r,
        schema_lookups tr = [DescribeTableX (DescribeTableInput.mk tableName) r]
        /\ match r with
           | inr d =>
               keys env' = Some (map AttributeName (DescribeTableOutput.KeySchema d))
           | inl e =>
               keys env' = None /\ item_operations tr = []
               /\ exists err, a = Rej err /\ Err.awsError err = Some e
           end
  end.
Proof.
  intros Hcall.
  apply call_inv in Hcall
    as [(e0 & s1 & err0 & -> & _ & Hbuild & -> & -> & ->)
       | (ks & lookups & s1 & x & s2 & Hres & Hx & -> & ->)].
  - exists (inl e0). split; [done|]. split; [done|]. split; [done|].
    exists err0. split; [done|].
    destruct (build_awsError (Err.Builder.new |> Err.Builder.withAwsError e0) e0 eq_refl)
      as (type & Hbuild' & _).
    rewrite Hbuild' in Hbuild. by injection Hbuild as <-.
  - destruct (trace_split _ _ _ _ _ _ _ _ _ _ _ _ _ Hres Hx) as (_ & -> & _).
    destruct Hres as [k -> | d t -> Hd]; [done|].
    by exists (inr d).
Qed.

Lemma successful_lookups_app tr1 tr2 :
  successful_lookups (tr1 ++ tr2) = successful_lookups tr1 ++ successful_lookups tr2.
Proof. apply filter_app. Qed.

Lemma schema_lookups_app tr1 tr2 :
  schema_lookups (tr1 ++ tr2) = schema_lookups tr1 ++ schema_lookups tr2.
Proof. apply filter_app. Qed.

(** The successful lookups are among the lookups. *)
Lemma successful_lookups_schema_lookups tr :
  successful_lookups tr = successful_lookups (schema_lookups tr).
Proof.
  unfold successful_lookups, schema_lookups.
  induction tr as [|x tr IH]; [done|].
  destruct (decide (is_describe x = true)) as [Hdescribe | Hother].
  - rewrite (filter_cons_True (fun x => is_describe x = true)) by done.
    destruct (decide (is_successful_lookup x = true)) as [Hok | Hfailed].
    + rewrite !(filter_cons_True (fun x => is_successful_lookup x = true)) by done.
      by rewrite IH.
    + rewrite !(filter_cons_False (fun x => is_successful_lookup x = true)) by done.
      exact IH.
  - rewrite (filter_cons_False (fun x => is_describe x = true)) by done.
    rewrite (filter_cons_False (fun x => is_successful_lookup x = true)); [exact IH|].
    by destruct x as [p [e|d]| | | |].
Qed.

Lemma in_turn_cons c rest (env : Env) actions tr env' :
  in_turn tableName dynamodb (c :: rest) env = (actions, tr, env') ->
  exists a tr1 env1 others tr2,
    call (verb c) (RestOnDynamoClient.id c) (RestOnDynamoClient.data c)
      (RestOnDynamoClient.callback c) env = (a, tr1, env1)
    /\ in_turn tableName dynamodb rest env1 = (others, tr2, env')
    /\ actions = a :: others /\ tr = tr1 ++ tr2.
Proof.
  cbn [in_turn]. unfold bind, ret.
  destruct (RestOnDynamoClient.call _ _ _ _ _ _ env) as [[a tr1] env1].
  destruct (in_turn _ _ rest env1) as [[others tr2] env2] eqn:Hrest.
  intros [= <- <- <-]. exists a, tr1, env1, others, tr2.
  by rewrite app_nil_r.
Qed.

(** Calls made in turn: with the schema cached at the start no lookup
    is made and the cache stays; in any case at most one lookup
    succeeds, and none did while the cache is still empty. *)
Lemma in_turn_lookups calls :
  forall (env : Env) actions tr env',
    in_turn tableName dynamodb calls env = (actions, tr, env') ->
    (forall ks, keys env = Some ks -> schema_lookups tr = [] /\ keys env' = Some ks)
    /\ (length (successful_lookups tr) <= 1)%nat
    /\ (keys env' = None -> successful_lookups tr = []).
Proof.
  induction calls as [|c rest IH]; intros env actions tr env' Hrun.
  - injection Hrun as <- <- <-. cbn. split; [done|]. split; [lia|done].
  - apply in_turn_cons in Hrun
      as (a & tr1 & env1 & others & tr2 & Hcall & Hrest & -> & ->).
    apply call_lookups in Hcall.
    destruct (IH _ _ _ _ Hrest) as (IHcached & IHonce & IHnone).
    rewrite successful_lookups_app, schema_lookups_app, length_app.
    destruct (keys env) as [ks0|] eqn:Hkeys.
    + destruct Hcall as [Hno Hkept].
      destruct (IHcached ks0 Hkept) as [Hno' Hkept'].
      rewrite (successful_lookups_schema_lookups tr1), Hno.
      rewrite (successful_lookups_schema_lookups tr2), Hno'. cbn.
      split; [|split; [lia|done]].
      intros ks [= <-]. done.
    + destruct Hcall as ([e|d] & Hone & Hafter).
      * destruct Hafter as (Hnone & _ & _).
        rewrite (successful_lookups_schema_lookups tr1), Hone.
        change (successful_lookups [DescribeTableX _ (inl e)]) with (@nil Exchange).
        split; [done|]. split; [exact IHonce | exact IHnone].
      * destruct (IHcached _ Hafter) as [Hno' Hkept'].
        rewrite (successful_lookups_schema_lookups tr1), Hone.
        rewrite (successful_lookups_schema_lookups tr2), Hno'.
        change (successful_lookups [DescribeTableX ?p (inr d)])
          with [DescribeTableX p (inr d)].
        change (successful_lookups []) with (@nil Exchange).
        split; [done|]. split; [cbn; lia|]. congruence.
Qed.

(** C9, as the code has it. A call that finds the key schema cached
    makes no lookup and leaves the cache as it is; a call that finds
    none makes exactly one lookup, caches the schema if the lookup
    succeeds and, if it fails, caches nothing, sends no item operation
    and rejects with the classified failure, so that the next call
    looks the schema up again. Over any number of calls made in turn on
    one client at most one lookup succeeds, and from the first
    successful one on no further lookup is made and the cache does not
    change. *)
Theorem key_schema_cached_once_resolved :
  (forall verb id data callback (env : Env) a tr env',
      call verb id data callback env = (a, tr, env') ->
      match keys env with
      | Some ks => schema_lookups tr = [] /\ keys env' = Some ks
      | None =>
          exists r,
            schema_lookups tr = [DescribeTableX (DescribeTableInput.mk tableName) r]
            /\ match r with
               | inr d =>
                   keys env'
                   = Some (map AttributeName (DescribeTableOutput.KeySchema d))
               | inl e =>
                   keys env' = None /\ item_operations tr = []
                   /\ exists err, a = Rej err /\ Err.awsError err = Some e
               end
      end)
  /\ (forall calls (env : Env) actions tr env',
      in_turn tableName dynamodb calls env = (actions, tr, env') ->
      (forall ks, keys env = Some ks -> schema_lookups tr = [] /\ keys env' = Some ks)
      /\ (length (successful_lookups tr) <= 1)%nat).
Proof.
  split.
  - apply call_lookups.
  - intros calls env actions tr env' Hrun.
    destruct (in_turn_lookups calls env actions tr env' Hrun) as (Hcached & Honce & _).
    done.
Qed.

(** No verb lets an exception escape: the builders always get what
    they need, and [this.keys] is set whenever a getter reads it. *)
Lemma call_never_throws verb id data callback (env : Env) a tr env' :
  call verb id data callback env = (a, tr, env') -> forall x, a <> Throw x.
Proof.
  intros Hcall.
  apply call_inv in Hcall
    as [(e0 & s1 & err0 & _ & _ & _ & -> & _)
       | (ks & lookups & s1 & x & s2 & _ & Hx & _)]; [done|].
  revert Hx. unfold RestOnDynamoClient.item_exchange.
  destruct verb;
    match goal with
    | |- context [let '(_, _) := ?op in _] => destruct op as [[e|d] s']
    end; intros [= <- <- <-]; cbn;
    try (destruct (GetItemOutput.Item d)); cbn; by destruct callback.
Qed.

(** When the lookup fails the promise rejects and the callback, if
    there is one, is not called. *)
Lemma lookup_failure_bypasses_callback verb id data callback (env : Env) a tr env' :
  call verb id data callback env = (a, tr, env') ->
  keys env' = None ->
  callback_of a = None /\ exists err, Result.promise (result_of a) = Rejected err.
Proof.
  intros Hcall Hkeys.
  apply call_inv in Hcall
    as [(e0 & s1 & err0 & _ & _ & _ & -> & _)
       | (ks & lookups & s1 & x & s2 & _ & _ & _ & ->)]; [|discriminate].
  cbn. eauto.
Qed.

(** The lookup is issued by every call that starts while [this.keys]
    is unset, and its callback writes [this.keys] whatever is there:
    calls started before the first lookup has answered do not share
    it. *)
Lemma lookup_not_shared (d : DescribeTableOutput.t) (env : Env) :
  keySchemaSync_params tableName None = Some (DescribeTableInput.mk tableName)
  /\ keys (keySchemaSync_callback (S:=S) (inr d) env).2
     = Some (map AttributeName (DescribeTableOutput.KeySchema d)).
Proof. done. Qed.
End Dispatcher.

(* ------------------------------------------------------------------ *)
(** ** The verbs on the table of the integration tests *)
(* ------------------------------------------------------------------ *)

Lemma key_schema_violation_is_left_to_the_store_witness :
  exists x err,
    item_operations Examples.get_wrong_key.1.2 = [x]
    /\ carried_object x = Some Examples.wrong_key
    /\ failure_of x = Some MemTable.Validation
    /\ delivered Examples.get_wrong_key.1.1 = Some (inl err)
    /\ status_number (Err.defaultStatusCode err) = Some 400.
Proof.
  destruct (key_schema_violation_is_left_to_the_store "test" MemTable.service
              RestOnDynamoClient.GET Examples.wrong_key [] false
              (RestOnDynamoClient.fresh (MemTable.test_table []))
              Examples.get_wrong_key.1.1 Examples.get_wrong_key.1.2
              Examples.get_wrong_key.2 ["id"] eq_refl eq_refl)
    as (x & Hops & Hcarried & Hfailed).
  vm_compute in Hops. injection Hops as <-.
  destruct (Hfailed MemTable.Validation eq_refl) as (err & Hdelivered & _ & _ & _ & Hcode);
    [discriminate | discriminate | reflexivity | |].
  { unfold Object_prototype. cbn. intros Hin.
    repeat (apply elem_of_cons in Hin as [Hin|Hin]; [discriminate Hin|]).
    by apply elem_of_nil in Hin. }
  eexists _, err. split; [reflexivity|]. split; [reflexivity|]. split; [reflexivity|].
  split; [exact Hdelivered | exact Hcode].
Defined.

(** C1, as stated, fails: [get({'wrong-key': 'value'})] on a table keyed
    by [id] sends the [get] to the store, and the 400 is the store's
    answer. *)
Lemma key_schema_violation_reaches_the_store :
  ~ rejected_before_the_store Examples.get_wrong_key Examples.wrong_key.
Proof.
  intros Hclaim.
  destruct (Hclaim ["id"] eq_refl eq_refl) as [_ Hnone].
  vm_compute in Hnone. discriminate Hnone.
Qed.

Lemma callback_receives_what_the_promise_would_witness :
  Result.promise (result_of Examples.get_with_callback.1.1) = Pending
  /\ exists ok,
       callback_of Examples.get_with_callback.1.1 = Some (None, Some ok)
       /\ Ok.defaultStatusCode ok = SuccessType.Ok
       /\ Ok.data ok = Some Examples.test_item_0.
Proof.
  destruct (callback_receives_what_the_promise_would "test" MemTable.service
              RestOnDynamoClient.GET Examples.test_id_0 []
              (RestOnDynamoClient.fresh (MemTable.test_table [Examples.test_item_0]))
              Examples.get_with_callback.1.1 Examples.get_with_callback.1.2
              Examples.get_with_callback.2
              (Res (Ok.mk SuccessType.Ok (Some Examples.test_item_0)))
              Examples.get_with_callback.1.2 Examples.get_with_callback.2
              ["id"] eq_refl eq_refl eq_refl)
    as (_ & _ & Hpending & _ & [(ok & Hok & Hcb) | (err & Herr & _)] & _).
  - split; [exact Hpending|]. exists ok. split; [exact Hcb|].
    injection Hok as <-. split; reflexivity.
  - discriminate Herr.
Defined.

(** C2, as stated, fails: [get] of a present item with a callback hands
    the [Ok] to the callback and leaves the promise pending. *)
Lemma promise_stays_pending_with_callback :
  ~ settles_like_the_callback Examples.get_with_callback.1.1.
Proof.
  intros [(ok & _ & Hpromise) | (err & d & _ & Hpromise)]; discriminate Hpromise.
Qed.

Lemma conditional_check_failure_per_verb_witness :
  (exists err,
      delivered Examples.post_again.1.1 = Some (inl err)
      /\ Err.defaultStatusCode err = ErrorType.Conflict
      /\ status_number (Err.defaultStatusCode err) = Some 409)
  /\ (exists err,
      delivered Examples.put_absent.1.1 = Some (inl err)
      /\ Err.defaultStatusCode err = ErrorType.NotFound
      /\ status_number (Err.defaultStatusCode err) = Some 404)
  /\ (exists err,
      delivered Examples.patch_absent.1.1 = Some (inl err)
      /\ Err.defaultStatusCode err = ErrorType.NotFound
      /\ status_number (Err.defaultStatusCode err) = Some 404).
Proof.
  assert (400 <= AWSError.statusCode MemTable.ConditionalCheckFailed < 500) as Hrange
    by (split; [by vm_compute | reflexivity]).
  split; [|split].
  - destruct (conditional_check_failure_per_verb "test" MemTable.service
                Examples.test_id_0 [("attr1", JSString "value2")] false _ _ _ _
                MemTable.ConditionalCheckFailed
                (MemTable.test_table [Examples.test_item_0])
                (Examples.looked_up_test [Examples.test_item_0]) eq_refl Hrange)
      as (Hpost & _ & _).
    destruct (Hpost _ eq_refl eq_refl) as (err & Hcall & Hdelivered & _ & Htype & Hcode).
    exists err. unfold Examples.post_again.
    change (RestOnDynamoClient.call ?t ?d RestOnDynamoClient.POST ?i ?x ?c)
      with (RestOnDynamoClient.post t d i x c).
    rewrite Hcall. done.
  - destruct (conditional_check_failure_per_verb "test" MemTable.service
                Examples.test_id_0 [("attr1", JSString "value1")] false _ _ _ _
                MemTable.ConditionalCheckFailed (MemTable.test_table [])
                (Examples.looked_up_test []) eq_refl Hrange)
      as (_ & Hput & _).
    destruct (Hput _ eq_refl eq_refl) as (err & Hcall & Hdelivered & _ & Htype & Hcode).
    exists err. unfold Examples.put_absent.
    change (RestOnDynamoClient.call ?t ?d RestOnDynamoClient.PUT ?i ?x ?c)
      with (RestOnDynamoClient.put t d i x c).
    rewrite Hcall. done.
  - destruct (conditional_check_failure_per_verb "test" MemTable.service
                Examples.test_id_0 [("attr1", JSString "value1")] false _ _ _ _
                MemTable.ConditionalCheckFailed (MemTable.test_table [])
                (Examples.looked_up_test []) eq_refl Hrange)
      as (_ & _ & Hpatch).
    destruct (Hpatch _ eq_refl eq_refl) as (err & Hcall & Hdelivered & _ & Htype & Hcode).
    exists err. unfold Examples.patch_absent.
    change (RestOnDynamoClient.call ?t ?d RestOnDynamoClient.PATCH ?i ?x ?c)
      with (RestOnDynamoClient.patch t d i x c).
    rewrite Hcall. done.
Defined.

Lemma delete_succeeds_whenever_the_store_does_witness :
  item_operations Examples.delete_absent.1.2
  = [DeleteX (DeleteItemInput.mk "test" Examples.test_id_0) (inr tt)]
  /\ delivered Examples.delete_absent.1.1 = Some (inr (Ok.mk SuccessType.NoContent None)).
Proof.
  destruct (delete_succeeds_whenever_the_store_does "test" MemTable.service
              Examples.test_id_0 false
              (RestOnDynamoClient.fresh (MemTable.test_table [])))
    as (Hresolved & _ & _).
  destruct (Hresolved _ _ _ (inr tt) (MemTable.test_table [])
              (Examples.looked_up_test []) eq_refl)
    as (a & Hcall & _ & Hdelivered).
  unfold Examples.delete_absent.
  change (RestOnDynamoClient.call ?t ?d RestOnDynamoClient.DELETE ?i ?x ?c)
    with (RestOnDynamoClient.delete t d i c).
  rewrite Hcall. split; [reflexivity | exact Hdelivered].
Defined.

Lemma key_schema_cached_once_resolved_witness :
  (exists r,
      schema_lookups Examples.get_wrong_key.1.2
      = [DescribeTableX (DescribeTableInput.mk "test") r]
      /\ match r with
         | inr d =>
             RestOnDynamoClient.keys Examples.get_wrong_key.2
             = Some (map AttributeName (DescribeTableOutput.KeySchema d))
         | inl e =>
             RestOnDynamoClient.keys Examples.get_wrong_key.2 = None
             /\ item_operations Examples.get_wrong_key.1.2 = []
             /\ exists err, Examples.get_wrong_key.1.1 = Rej err
                            /\ Err.awsError err = Some e
         end)
  /\ (length (successful_lookups Examples.two_gets_after_outage.1.2) <= 1)%nat.
Proof.
  destruct (key_schema_cached_once_resolved "test" MemTable.service) as [Hcall _].
  destruct (key_schema_cached_once_resolved "test" MemTable.flaky) as [_ Hturn].
  split.
  - exact (Hcall RestOnDynamoClient.GET Examples.wrong_key [] false
             (RestOnDynamoClient.fresh (MemTable.test_table []))
             Examples.get_wrong_key.1.1 Examples.get_wrong_key.1.2
             Examples.get_wrong_key.2 eq_refl).
  - exact (proj2 (Hturn Examples.two_gets
                    (RestOnDynamoClient.fresh (1%nat, MemTable.test_table [Examples.test_item_0]))
                    Examples.two_gets_after_outage.1.1
                    Examples.two_gets_after_outage.1.2
                    Examples.two_gets_after_outage.2 eq_refl)).
Defined.

(** C9, as stated, fails: after a lookup that failed, the next call on
    the same client looks the schema up again. *)
Lemma schema_looked_up_again_after_failure :
  ~ looked_up_at_most_once Examples.two_gets_after_outage.1.2.
Proof.
  unfold looked_up_at_most_once. vm_compute. lia.
Qed.



(* ------------------------------------------------------------------ *)
(** ** The verbs one by one *)
(* ------------------------------------------------------------------ *)

Section VerbByVerb.
Import RestOnDynamoClient.
Context {S : Type}.
Variable tableName : string.
Variable dynamodb : DynamoDB.t S.

Local Abbreviation call := (RestOnDynamoClient.call tableName dynamodb).
Local Abbreviation item_exchange := (RestOnDynamoClient.item_exchange tableName dynamodb).

(** An item operation found among the exchanges of a call is the second
    stage of that call, run with the key schema the call leaves cached. *)
Lemma item_operation_inv verb id data callback (env : Env) a tr env' x :
  call verb id data callback env = (a, tr, env') ->
  x ∈ tr -> is_describe x = false ->
  exists ks s1 s2,
    keys env' = Some ks
    /\ item_exchange verb ks id data callback s1 = (a, x, s2).
Proof.
  intros Hcall Hin Hop.
  apply call_inv in Hcall
    as [(e0 & s1 & err0 & _ & _ & _ & -> & -> & ->)
       | (ks & lookups & s1 & x' & s2 & Hres & Hx & -> & ->)].
  - apply list_elem_of_singleton in Hin. subst x. discriminate.
  - destruct (trace_split _ _ _ _ _ _ _ _ _ _ _ _ _ Hres Hx) as (_ & _ & Honly).
    apply Honly in Hin; [|done]. subst x'. by exists ks, s1, s2.
Qed.

(** X1. Once the key schema is resolved, [get] sends the store one read
    of the [Id] as given, without projection, and nothing else. A found
    item comes back unchanged in [Ok] with status 200; a read that
    succeeds without an item ends in an [Err] that is not a backend
    error: NotFound, range Client, message ["Key does not exist"]; a
    failed read ends in the [Err] of that failure. *)
Theorem get_returns_the_item_or_not_found
    id callback (env : Env) ks lookups s1 r s2 :
  RestOnDynamoClient.Resolution tableName dynamodb env ks lookups s1 ->
  DynamoDB.get dynamodb (GetItemInput.mk tableName id None) s1 = (r, s2) ->
  exists a,
    get tableName dynamodb id callback env
    = (a, lookups ++ [GetX (GetItemInput.mk tableName id None) r], mkEnv (Some ks) s2)
    /\ match r with
       | inl e => exists err, delivered a = Some (inl err) /\ Err.awsError err = Some e
       | inr d =>
           match GetItemOutput.Item d with
           | Some item => delivered a = Some (inr (Ok.mk SuccessType.Ok (Some item)))
           | None =>
               delivered a
               = Some (inl (Err.mk false ErrorType.NotFound "Key does not exist"
                              ErrorStatusCodeRange.Client None))
           end
       end.
Proof.
  intros Hres Hop. eexists. split.
  - apply (call_resolved tableName dynamodb GET id [] callback _ _ _ _ _ _ _ Hres).
    unfold RestOnDynamoClient.item_exchange. rewrite Hop. reflexivity.
  - destruct r as [e|d]; cbn.
    + eexists. by rewrite delivered_fail.
    + destruct (GetItemOutput.Item d); cbn;
        by rewrite ?delivered_succeed, ?delivered_fail.
Qed.

(** X2. Once the key schema is resolved, [head] sends the store one read
    of the [Id] as given that projects the key attributes, joined by
    commas, and nothing else. A found item is answered by [Ok] with
    status 204 and no data, whatever the item holds; a read without an
    item by an [Err] that is not a backend error: NotFound, message
    ["Key not found"]; a failed read by the [Err] of that failure. *)
Theorem head_projects_the_key_and_returns_no_data
    id callback (env : Env) ks lookups s1 r s2 :
  RestOnDynamoClient.Resolution tableName dynamodb env ks lookups s1 ->
  DynamoDB.get dynamodb (GetItemInput.mk tableName id (Some (join "," ks))) s1 = (r, s2) ->
  exists a,
    head tableName dynamodb id callback env
    = (a, lookups ++ [GetX (GetItemInput.mk tableName id (Some (join "," ks))) r],
       mkEnv (Some ks) s2)
    /\ match r with
       | inl e => exists err, delivered a = Some (inl err) /\ Err.awsError err = Some e
       | inr d =>
           match GetItemOutput.Item d with
           | Some _ => delivered a = Some (inr (Ok.mk SuccessType.NoContent None))
           | None =>
               delivered a
               = Some (inl (Err.mk false ErrorType.NotFound "Key not found"
                              ErrorStatusCodeRange.Client None))
           end
       end.
Proof.
  intros Hres Hop. eexists. split.
  - apply (call_resolved tableName dynamodb HEAD id [] callback _ _ _ _ _ _ _ Hres).
    unfold RestOnDynamoClient.item_exchange, keyProjectionExpression.
    rewrite Hop. reflexivity.
  - destruct r as [e|d]; cbn.
    + eexists. by rewrite delivered_fail.
    + destruct (GetItemOutput.Item d); cbn;
        by rewrite ?delivered_succeed, ?delivered_fail.
Qed.

(** X3. The write of [post] is conditioned on every cached key attribute
    being absent ([attribute_not_exists(k)], joined by [ AND ]) and, when
    the store accepts it, ends in [Ok] with status 201 and the merged
    item; the write of [put] is conditioned on every key attribute being
    present ([attribute_exists(k)]) and ends in [Ok] with status 200 and
    the merged item. *)
Theorem writes_are_conditioned_on_the_key
    id data callback (env : Env) a tr env' p r :
  PutX p r ∈ tr ->
  (post tableName dynamodb id data callback env = (a, tr, env') ->
   (exists ks,
       keys env' = Some ks
       /\ PutItemInput.ConditionExpression p
          = join " AND " (map (fun k => "attribute_not_exists(" +:+ k +:+ ")") ks))
   /\ (forall u, r = inr u ->
                 delivered a
                 = Some (inr (Ok.mk SuccessType.Created
                                (Some (Object_assign [] [data; id]))))))
  /\ (put tableName dynamodb id data callback env = (a, tr, env') ->
      (exists ks,
          keys env' = Some ks
          /\ PutItemInput.ConditionExpression p
             = join " AND " (map (fun k => "attribute_exists(" +:+ k +:+ ")") ks))
      /\ (forall u, r = inr u ->
                    delivered a
                    = Some (inr (Ok.mk SuccessType.Ok
                                   (Some (Object_assign [] [data; id])))))).
Proof.
  intros Hin. split; intros Hcall.
  - destruct (item_operation_inv POST id data callback env a tr env' _ Hcall Hin eq_refl)
      as (ks & s1 & s2 & Hkeys & Hx).
    unfold RestOnDynamoClient.item_exchange in Hx.
    destruct (DynamoDB.put dynamodb _ s1) as [r' s'].
    injection Hx as <- <- -> <-. split; [by exists ks|].
    intros u ->. cbn. by rewrite delivered_succeed.
  - destruct (item_operation_inv PUT id data callback env a tr env' _ Hcall Hin eq_refl)
      as (ks & s1 & s2 & Hkeys & Hx).
    unfold RestOnDynamoClient.item_exchange in Hx.
    destruct (DynamoDB.put dynamodb _ s1) as [r' s'].
    injection Hx as <- <- -> <-. split; [by exists ks|].
    intros u ->. cbn. by rewrite delivered_succeed.
Qed.

(** X4. Once the key schema is resolved, [patch] sends the store one
    update and nothing else: it addresses the [Id] as given, is
    conditioned on every key attribute being present, asks for the whole
    new item ([ALL_NEW]) and carries the expression and the bindings
    [parseDynamoUpdateArgs] makes of [data]; for an empty [data] that is
    the bare ["SET "] without bindings, sent all the same. When the store
    accepts the update the call ends in [Ok] with status 200 and the
    attributes the store returned, or no data if it returned none; when
    it does not, in the [Err] of the failure. *)
Theorem patch_sends_the_update_and_returns_the_new_item
    id data callback (env : Env) ks lookups s1 p r s2 :
  RestOnDynamoClient.Resolution tableName dynamodb env ks lookups s1 ->
  p = UpdateItemInput.mk tableName id
        (join " AND " (map (fun k => "attribute_exists(" +:+ k +:+ ")") ks))
        "ALL_NEW"
        (UpdateExpression (parseDynamoUpdateArgs data))
        (ExpressionAttributeValues (parseDynamoUpdateArgs data)) ->
  DynamoDB.update dynamodb p s1 = (r, s2) ->
  exists a,
    patch tableName dynamodb id data callback env
    = (a, lookups ++ [UpdateX p r], mkEnv (Some ks) s2)
    /\ (data = [] ->
        UpdateItemInput.UpdateExpression p = "SET "
        /\ UpdateItemInput.ExpressionAttributeValues p = [])
    /\ match r with
       | inl e => exists err, delivered a = Some (inl err) /\ Err.awsError err = Some e
       | inr d =>
           delivered a
           = Some (inr (Ok.mk SuccessType.Ok (UpdateItemOutput.Attributes d)))
       end.
Proof.
  intros Hres -> Hop. eexists. split; [|split].
  - apply (call_resolved tableName dynamodb PATCH id data callback _ _ _ _ _ _ _ Hres).
    unfold RestOnDynamoClient.item_exchange, keyExistConditionalExpression.
    rewrite Hop. reflexivity.
  - by intros ->.
  - destruct r as [e|d]; cbn.
    + eexists. by rewrite delivered_fail.
    + rewrite delivered_succeed. by destruct (UpdateItemOutput.Attributes d).
Qed.
End VerbByVerb.

(* ------------------------------------------------------------------ *)
(** ** More on the classifier *)
(* ------------------------------------------------------------------ *)

(** X5. A backend error supersedes: a type and a message supplied next
    to it change nothing, the [Err] built carries the backend error and
    its message. *)
Theorem backend_error_supersedes_type_and_message
    (b : Err.Builder.t) (e : AWSError.t) (type : ErrorType.t) (msg : string) :
  Err.Builder.awsError b = Some e ->
  Err.Builder.build (b |> Err.Builder.withErrorType type |> Err.Builder.withMessage msg)
  = Err.Builder.build b
  /\ exists err,
      Err.Builder.build b = inr err
      /\ Err.isAwsError err = true
      /\ Err.awsError err = Some e
      /\ Err.message err = AWSError.message e.
Proof.
  intros Haws. split.
  - unfold Err.Builder.build, Err.Builder.validate. cbn. rewrite Haws. cbn. reflexivity.
  - destruct (build_awsError b e Haws) as (t & Hbuild & _). eexists. by split.
Qed.

Lemma backend_error_supersedes_type_and_message_witness :
  Err.Builder.build
    (Err.Builder.new
       |> Err.Builder.withAwsError MemTable.Validation
       |> Err.Builder.withErrorType ErrorType.Conflict
       |> Err.Builder.withMessage "mine")
  = inr (Err.mk true ErrorType.BadRequest
           "The provided key element does not match the schema"
           ErrorStatusCodeRange.Client (Some MemTable.Validation)).
Proof.
  destruct (backend_error_supersedes_type_and_message
              (Err.Builder.new |> Err.Builder.withAwsError MemTable.Validation)
              MemTable.Validation ErrorType.Conflict "mine" eq_refl) as [Hsame _].
  rewrite Hsame. reflexivity.
Defined.

(** X6. Override tables accumulate over calls of
    [withAwsErrorCodeToErrorTypeOverride], the later call winning: for a
    backend failure whose status is neither 503 nor 500 and whose code
    is not [__proto__], the status code is the entry of the last table
    for the failure's code, else the entry of the table before, else
    what reading the builder's own table gives, an entry or an inherited
    member, else BadRequest.  An entry named [__proto__] is never
    copied: for the code [__proto__] the status code is the inherited
    member, whatever the tables hold. *)
Theorem overrides_accumulate_and_the_last_wins
    (b : Err.Builder.t) (e : AWSError.t) (o1 o2 : gmap string ErrorType.t) :
  Err.Builder.awsError b = Some e ->
  AWSError.statusCode e <> 503 -> AWSError.statusCode e <> 500 ->
  exists err,
    Err.Builder.build
      (b |> Err.Builder.withAwsErrorCodeToErrorTypeOverride o1
         |> Err.Builder.withAwsErrorCodeToErrorTypeOverride o2)
    = inr err
    /\ (AWSError.code e <> "__proto__" ->
        Err.defaultStatusCode err
        = match o2 !! AWSError.code e with
          | Some type => Status type
          | None =>
              match o1 !! AWSError.code e with
              | Some type => Status type
              | None =>
                  default (Status ErrorType.BadRequest)
                    (table_get (Err.Builder.awsErrorCodeToErrorTypeOverride b)
                       (AWSError.code e))
              end
          end)
    /\ (AWSError.code e = "__proto__" ->
        Err.defaultStatusCode err = Inherited "__proto__").
Proof.
  intros Haws H503 H500.
  destruct (build_awsError
              (b |> Err.Builder.withAwsErrorCodeToErrorTypeOverride o1
                 |> Err.Builder.withAwsErrorCodeToErrorTypeOverride o2) e Haws)
    as (code & Hbuild & ->).
  eexists. split; [exact Hbuild|]. cbn.
  apply Z.eqb_neq in H503, H500. rewrite H503, H500.
  unfold table_get. split.
  - intros Hcode.
    rewrite lookup_delete_ne by done. rewrite lookup_union.
    rewrite lookup_delete_ne by done. rewrite lookup_union.
    destruct (o2 !! AWSError.code e), (o1 !! AWSError.code e),
      (Err.Builder.awsErrorCodeToErrorTypeOverride b !! AWSError.code e); reflexivity.
  - intros ->. rewrite lookup_delete_eq. reflexivity.
Qed.

Lemma overrides_accumulate_and_the_last_wins_witness :
  exists err,
    Err.Builder.build
      (Err.Builder.new
         |> Err.Builder.withAwsError MemTable.ConditionalCheckFailed
         |> Err.Builder.withAwsErrorCodeToErrorTypeOverride
              {[ AwsErrorCode.ConditionalCheckFailedException := ErrorType.Conflict ]}
         |> Err.Builder.withAwsErrorCodeToErrorTypeOverride
              {[ AwsErrorCode.ConditionalCheckFailedException := ErrorType.NotFound ]})
    = inr err
    /\ Err.defaultStatusCode err = ErrorType.NotFound.
Proof.
  destruct (overrides_accumulate_and_the_last_wins
              (Err.Builder.new |> Err.Builder.withAwsError MemTable.ConditionalCheckFailed)
              MemTable.ConditionalCheckFailed
              {[ AwsErrorCode.ConditionalCheckFailedException := ErrorType.Conflict ]}
              {[ AwsErrorCode.ConditionalCheckFailedException := ErrorType.NotFound ]}
              eq_refl) as (err & Hbuild & Htype & _); [discriminate | discriminate |].
  exists err. split; [exact Hbuild | apply Htype; discriminate].
Defined.

(** X7. [determineErrorStatusRange] labels a status code with the
    hundred it lies in exactly for the codes from 400 to 599: below 400
    it still says Client, from 600 on it still says Server. Every
    [ErrorType] lies in the hundred of its range. *)
Theorem range_is_the_hundred_of_error_codes :
  (forall c : Z,
      ErrorStatusCodeRange.value (determineErrorStatusRange c) <= c
        < ErrorStatusCodeRange.value (determineErrorStatusRange c) + 100
      <-> 400 <= c < 600)
  /\ (forall type : ErrorType.t,
      ErrorStatusCodeRange.value (determineErrorStatusRange (ErrorType.value type))
        <= ErrorType.value type
        < ErrorStatusCodeRange.value (determineErrorStatusRange (ErrorType.value type)) + 100)
  /\ (forall c : Z,
      (determineErrorStatusRange c = ErrorStatusCodeRange.Client <-> c < 500)
      /\ (determineErrorStatusRange c = ErrorStatusCodeRange.Server <-> 500 <= c)).
Proof.
  split; [|split].
  - intros c. unfold determineErrorStatusRange.
    destruct (Z.leb_spec 500 c); cbn; lia.
  - intros []; cbn; lia.
  - intros c. split.
    + apply determineErrorStatusRange_Client.
    + apply determineErrorStatusRange_Server.
Qed.

(* ------------------------------------------------------------------ *)
(** ** What no verb does *)
(* ------------------------------------------------------------------ *)

Section AllVerbs.
Import RestOnDynamoClient.
Context {S : Type}.
Variable tableName : string.
Variable dynamodb : DynamoDB.t S.

Local Abbreviation call := (RestOnDynamoClient.call tableName dynamodb).
Local Abbreviation item_exchange := (RestOnDynamoClient.item_exchange tableName dynamodb).

(** The outcome of the second stage, case by case: the [Ok] of the verb,
    the NotFound of a read without an item, or the classified failure. *)
Lemma item_exchange_outcome verb ks id data callback s a x s2 :
  item_exchange verb ks id data callback s = (a, x, s2) ->
  (exists ok, a = succeed callback ok /\ failure_of x = None)
  \/ (exists msg,
         a = fail callback (Err.mk false ErrorType.NotFound msg
                              ErrorStatusCodeRange.Client None)
         /\ failure_of x = None /\ (verb = GET \/ verb = HEAD)
         /\ exists p, x = GetX p (inr (GetItemOutput.mk None)))
  \/ (exists e b err,
         failure_of x = Some e
         /\ Err.Builder.awsError b = Some e
         /\ Err.Builder.awsErrorCodeToErrorTypeOverride b = override_of verb
         /\ Err.Builder.build b = inr err
         /\ a = fail callback err).
Proof.
  intros Hx.
  destruct (failure_of x) as [e|] eqn:Hfailure.
  - right. right.
    destruct (item_exchange_failure _ _ _ _ _ _ _ _ _ _ _ _ Hx Hfailure)
      as (b & err & Hb). by exists e, b, err.
  - revert Hx Hfailure. unfold RestOnDynamoClient.item_exchange.
    destruct verb;
      match goal with
      | |- context [let '(_, _) := ?op in _] => destruct op as [[e|d] s']
      end; intros Hx; injection Hx as <- <- <-; intros Hfailure;
      try discriminate Hfailure; cbn;
      try match goal with
          | d : GetItemOutput.t |- _ => destruct d as [[item|]]
          end; cbn; eauto 15.
Qed.

(** The type the classifier gives a failure under the table of a verb. *)
Lemma classified_under_override verb (b : Err.Builder.t) e err :
  Err.Builder.awsError b = Some e ->
  Err.Builder.awsErrorCodeToErrorTypeOverride b = override_of verb ->
  Err.Builder.build b = inr err ->
  Err.isAwsError err = true
  /\ Err.awsError err = Some e
  /\ Err.message err = AWSError.message e
  /\ (Err.defaultStatusCode err = ErrorType.ServiceUnavailable
      \/ Err.defaultStatusCode err = ErrorType.InternalServerError
      \/ Err.defaultStatusCode err = ErrorType.BadRequest
      \/ Err.defaultStatusCode err = ErrorType.Conflict /\ verb = POST
      \/ Err.defaultStatusCode err = ErrorType.NotFound /\ (verb = PUT \/ verb = PATCH)
      \/ exists member, Err.defaultStatusCode err = Inherited member).
Proof.
  intros Haws Hoverride Hbuild.
  destruct (build_awsError b e Haws) as (code & Hbuild' & Hcode).
  rewrite Hbuild' in Hbuild. injection Hbuild as <-. cbn.
  split; [done|]. split; [done|]. split; [done|]. subst code.
  destruct (AWSError.statusCode e =? 503); [by left|].
  destruct (AWSError.statusCode e =? 500); [by right; left|].
  rewrite Hoverride. unfold table_get.
  destruct (override_of verb !! AWSError.code e) as [type|] eqn:Hown.
  - revert Hown. destruct verb; unfold override_of; rewrite ?lookup_empty; try done.
    all: intros Hown; apply lookup_singleton_Some in Hown as [_ <-]; cbn; eauto 10.
  - destruct (bool_decide (AWSError.code e ∈ Object_prototype)); cbn; eauto 10.
Qed.

(** X8. The errors of the client: an [Err] that reaches the caller is
    never Unauthorized or Forbidden; it is Conflict only from [post]; it
    is not a backend error only when [get] or [head] found no item,
    and is then NotFound; a backend error that is NotFound comes from
    [put] or [patch]; and every backend error is the classified failure
    of one of the call's exchanges, with that failure's message. *)
Theorem errors_delivered_by_the_verbs
    verb id data callback (env : Env) a tr env' err :
  call verb id data callback env = (a, tr, env') ->
  delivered a = Some (inl err) ->
  Err.defaultStatusCode err <> ErrorType.Unauthorized
  /\ Err.defaultStatusCode err <> ErrorType.Forbidden
  /\ (Err.defaultStatusCode err = ErrorType.Conflict -> verb = POST)
  /\ (Err.isAwsError err = false ->
      (verb = GET \/ verb = HEAD)
      /\ Err.defaultStatusCode err = ErrorType.NotFound
      /\ Err.awsError err = None)
  /\ (Err.isAwsError err = true ->
      (Err.defaultStatusCode err = ErrorType.NotFound -> verb = PUT \/ verb = PATCH)
      /\ exists x e,
          x ∈ tr /\ failure_of x = Some e
          /\ Err.awsError err = Some e
          /\ Err.message err = AWSError.message e)
  /\ (Err.isAwsError err = false ->
      exists p, GetX p (inr (GetItemOutput.mk None)) ∈ tr).
Proof.
  intros Hcall Hdelivered.
  apply call_inv in Hcall
    as [(e0 & s1 & err0 & _ & _ & Hbuild & -> & -> & ->)
       | (ks & lookups & s1 & x & s2 & Hres & Hx & -> & ->)].
  - injection Hdelivered as ->.
    destruct (classified_under_override GET
                (Err.Builder.new |> Err.Builder.withAwsError e0) e0 err
                eq_refl eq_refl Hbuild)
      as (Hisaws & Haws & Hmsg & Htype).
    rewrite Hisaws.
    assert (exists x e, x ∈ [DescribeTableX (DescribeTableInput.mk tableName) (inl e0)]
                        /\ failure_of x = Some e /\ Err.awsError err = Some e
                        /\ Err.message err = AWSError.message e) as Hfrom.
    { eexists _, e0. split; [apply list_elem_of_here|]. done. }
    destruct Htype as [Ht | [Ht | [Ht | [[Ht Hv] | [[Ht [Hv | Hv]] | [member Ht]]]]]];
      try discriminate Hv; rewrite Ht;
      (split; [done|]); (split; [done|]); (split; [done|]); (split; [done|]);
      (split; [intros _; (split; [done | exact Hfrom]) | done]).
  - destruct (item_exchange_outcome _ _ _ _ _ _ _ _ _ Hx)
      as [(ok & -> & _)
         | [(msg & -> & _ & Hverb & p & ->)
           | (e & b & err' & Hf & Haws & Hov & Hbuild & ->)]].
    + rewrite delivered_succeed in Hdelivered. discriminate.
    + rewrite delivered_fail in Hdelivered. injection Hdelivered as <-. cbn.
      split; [done|]. split; [done|]. split; [done|]. split; [done|].
      split; [done|]. intros _. exists p.
      apply elem_of_app. right. apply list_elem_of_here.
    + rewrite delivered_fail in Hdelivered. injection Hdelivered as ->.
      destruct (classified_under_override verb b e err Haws Hov Hbuild)
        as (Hisaws & Haws' & Hmsg & Htype).
      rewrite Hisaws.
      assert (exists x' e', x' ∈ lookups ++ [x]
                            /\ failure_of x' = Some e' /\ Err.awsError err = Some e'
                            /\ Err.message err = AWSError.message e') as Hfrom.
      { exists x, e. split; [apply elem_of_app; right; apply list_elem_of_here|]. done. }
      destruct Htype as [Ht | [Ht | [Ht | [[Ht Hv] | [[Ht Hv] | [member Ht]]]]]];
        rewrite Ht;
        (split; [done|]); (split; [done|]); (split; [done|]); (split; [done|]);
        (split; [intros _; (split; [done | exact Hfrom]) | done]).
Qed.

(** X9. One attempt per call: the exchanges of a call are at most one
    schema lookup followed by at most one item operation, and the item
    operation is missing exactly when the call ends without a cached
    schema. *)
Theorem one_lookup_then_one_operation
    verb id data callback (env : Env) a tr env' :
  call verb id data callback env = (a, tr, env') ->
  tr = schema_lookups tr ++ item_operations tr
  /\ (length (schema_lookups tr) <= 1)%nat
  /\ (length (item_operations tr) <= 1)%nat
  /\ (item_operations tr = [] <-> keys env' = None).
Proof.
  intros Hcall.
  apply call_inv in Hcall
    as [(e0 & s1 & err0 & _ & _ & _ & -> & -> & ->)
       | (ks & lookups & s1 & x & s2 & Hres & Hx & -> & ->)].
  - change (schema_lookups [DescribeTableX ?p ?r]) with [DescribeTableX p r].
    change (item_operations [DescribeTableX ?p ?r]) with (@nil Exchange).
    cbn. split; [done|]. split; [lia|]. split; [lia|done].
  - destruct (trace_split _ _ _ _ _ _ _ _ _ _ _ _ _ Hres Hx) as (-> & -> & _).
    split; [done|]. split; [|split; [cbn; lia|done]].
    destruct (Resolution_lookups _ _ _ _ _ _ Hres) as (_ & _ & [[-> _] | (d & -> & _)]);
      cbn; lia.
Qed.

(** X10. Every call hands over exactly one [Ok] or [Err] and lets no
    exception escape. Without a callback the promise of the returned
    [Result] settles; the callback, when it is called, gets either an
    [Err] or an [Ok], never both and never neither, and the promise then
    stays pending. *)
Theorem every_call_delivers_once
    verb id data callback (env : Env) a tr env' :
  call verb id data callback env = (a, tr, env') ->
  (exists outcome, delivered a = Some outcome)
  /\ (forall x, a <> Throw x)
  /\ (callback = false ->
      callback_of a = None /\ Result.promise (result_of a) <> Pending)
  /\ (forall e d,
         callback_of a = Some (e, d) ->
         callback = true
         /\ Result.promise (result_of a) = Pending
         /\ (e = None <-> d <> None)).
Proof.
  intros Hcall.
  apply call_inv in Hcall
    as [(e0 & s1 & err0 & _ & _ & _ & -> & -> & ->)
       | (ks & lookups & s1 & x & s2 & Hres & Hx & -> & ->)].
  - cbn. split; [eauto|]. split; [done|]. split; [done|done].
  - destruct (item_exchange_outcome _ _ _ _ _ _ _ _ _ Hx)
      as [(ok & -> & _) | [(msg & -> & _) | (e & b & err' & _ & _ & _ & _ & ->)]];
      destruct callback; cbn; (split; [eauto|]); (split; [done|]);
      (split; [done|]); intros e' d' Hcb; try discriminate Hcb;
      injection Hcb as <- <-; done.
Qed.
End AllVerbs.

(* ------------------------------------------------------------------ *)
(** ** The class decorator *)
(* ------------------------------------------------------------------ *)

Section DecoratorFacts.
Import Decorator.
Context {St : Type}.
Implicit Types (proto this : Prototype St) (m : Member St) (prop : string).

Lemma member_get_set proto prop m prop' :
  member_get (member_set proto prop m) prop'
  = if String.eqb prop prop' then Some m else member_get proto prop'.
Proof.
  induction proto as [|[k m0] proto IH]; cbn; [done|].
  destruct (String.eqb_spec k prop) as [-> | Hne]; cbn.
  - by destruct (String.eqb prop prop').
  - destruct (String.eqb_spec k prop') as [-> | _]; [|apply IH].
    by destruct (String.eqb_spec prop prop'); [congruence|].
Qed.

(** Replacing a property that is there keeps the names and their order. *)
Lemma member_set_names proto prop m :
  is_Some (member_get proto prop) -> (member_set proto prop m).*1 = proto.*1.
Proof.
  induction proto as [|[k m0] proto IH]; cbn; intros [m' Hm]; [done|].
  destruct (String.eqb_spec k prop); cbn; [done|]. f_equal. apply IH. eauto.
Qed.

Lemma prereqWith_step_names prereqFunc appliedFuncs WrapperClass proto prop :
  (prereqWith_step prereqFunc appliedFuncs WrapperClass proto prop).*1 = proto.*1.
Proof.
  unfold prereqWith_step.
  destruct (String.eqb prop prereqFunc); [done|].
  destruct (match appliedFuncs with Some l => negb (includes l prop) | None => false end);
    [done|].
  destruct (member_get proto prop) as [[f | pre f w | v]|] eqn:Hget; cbn; try done;
    apply member_set_names; by rewrite Hget.
Qed.

Lemma prereqWith_step_get prereqFunc appliedFuncs WrapperClass proto prop prop' :
  member_get (prereqWith_step prereqFunc appliedFuncs WrapperClass proto prop) prop'
  = if String.eqb prop prop' && decorates prereqFunc appliedFuncs prop (member_get proto prop)
    then (fun f => Decorated prereqFunc f WrapperClass) <$> member_get proto prop
    else member_get proto prop'.
Proof.
  unfold prereqWith_step, decorates.
  destruct (String.eqb prop prereqFunc); cbn; [by rewrite andb_false_r|].
  destruct appliedFuncs as [l|]; cbn;
    [destruct (includes l prop); cbn; [|by rewrite andb_false_r]|].
  all: destruct (member_get proto prop) as [[f | pre f w | v]|] eqn:Hget; cbn;
    rewrite ?andb_false_r, ?andb_true_r; try done.
  all: rewrite member_get_set; by destruct (String.eqb prop prop').
Qed.

(** The loop over the names, started from any prototype. *)
Lemma prereqWith_loop_get prereqFunc appliedFuncs WrapperClass names :
  NoDup names ->
  forall proto prop,
    member_get (fold_left (prereqWith_step prereqFunc appliedFuncs WrapperClass) names proto)
      prop
    = if bool_decide (prop ∈ names)
         && decorates prereqFunc appliedFuncs prop (member_get proto prop)
      then (fun f => Decorated prereqFunc f WrapperClass) <$> member_get proto prop
      else member_get proto prop.
Proof.
  induction 1 as [|name names Hfresh Hnodup IH]; intros proto prop; [done|].
  cbn [fold_left]. rewrite IH, !prereqWith_step_get.
  destruct (String.eqb_spec name prop) as [-> | Hne]; cbn.
  - rewrite (bool_decide_eq_false_2 (prop ∈ names)) by done.
    rewrite (bool_decide_eq_true_2 (prop ∈ prop :: names)) by apply list_elem_of_here.
    done.
  - destruct (decide (prop ∈ names)) as [Hin | Hout].
    + rewrite (bool_decide_eq_true_2 (prop ∈ names)) by done.
      by rewrite (bool_decide_eq_true_2 (prop ∈ name :: names))
        by (by apply list_elem_of_further).
    + rewrite (bool_decide_eq_false_2 (prop ∈ names)) by done.
      rewrite (bool_decide_eq_false_2 (prop ∈ name :: names)); [done|].
      intros [?|?]%elem_of_cons; congruence.
Qed.

Lemma member_get_names proto prop :
  is_Some (member_get proto prop) <-> prop ∈ proto.*1.
Proof.
  induction proto as [|[k m] proto IH]; cbn.
  - split; [by intros [? ?] | by intros ?%elem_of_nil].
  - destruct (String.eqb_spec k prop) as [-> | Hne].
    + split; [intros _; apply list_elem_of_here | eauto].
    + rewrite IH. split; [apply list_elem_of_further|].
      intros [?|?]%elem_of_cons; [congruence | done].
Qed.

Lemma prereqWith_get prereqFunc appliedFuncs WrapperClass proto prop :
  NoDup proto.*1 ->
  member_get (prereqWith prereqFunc appliedFuncs WrapperClass proto) prop
  = if decorates prereqFunc appliedFuncs prop (member_get proto prop)
    then (fun f => Decorated prereqFunc f WrapperClass) <$> member_get proto prop
    else member_get proto prop.
Proof.
  intros Hnodup. unfold prereqWith. rewrite prereqWith_loop_get by done.
  destruct (decide (prop ∈ proto.*1)) as [Hin | Hout].
  - by rewrite bool_decide_eq_true_2.
  - rewrite bool_decide_eq_false_2 by done. cbn.
    destruct (member_get proto prop) eqn:Hget; [|by destruct (decorates _ _ _ _)].
    exfalso. apply Hout, member_get_names. by rewrite Hget.
Qed.

Lemma prereqWith_names prereqFunc appliedFuncs WrapperClass proto :
  (prereqWith prereqFunc appliedFuncs WrapperClass proto).*1 = proto.*1.
Proof.
  unfold prereqWith. generalize (proto.*1) at 1 as names. intros names.
  revert proto. induction names as [|name names IH]; intros proto; [done|].
  cbn [fold_left]. by rewrite IH, prereqWith_step_names.
Qed.

Lemma apply_Function this n (f : Method St) args (st : St) :
  apply (Datatypes.S n) this (Function f) args st = Some (f args st).
Proof. reflexivity. Qed.

(** One step of [apply] on a decorated function. *)
Lemma apply_Decorated this n prereqFunc originalProp WrapperClass args (st : St) :
  apply (Datatypes.S n) this (Decorated prereqFunc originalProp WrapperClass) args st
  = match match member_get this prereqFunc with
          | Some pre => apply n this pre [] st
          | None => Some (Raise not_a_function, st)
          end with
    | None => None
    | Some (Raise x, st1) => Some (Raise x, st1)
    | Some (Return (APromise prereqFuncCallResult), st1) =>
        match prereqFuncCallResult with
        | Resolved _ =>
            match apply n this originalProp args st1 with
            | None => None
            | Some (c, st2) => Some (Return (wrap WrapperClass (chained c)), st2)
            end
        | Failed reason => Some (Return (wrap WrapperClass (Failed reason)), st1)
        | Unsettled => Some (Return (wrap WrapperClass Unsettled), st1)
        end
    | Some (Return (Value _), st1) | Some (Return (Wrapper _), st1) =>
        Some (Raise not_a_function, st1)
    end.
Proof. reflexivity. Qed.

(** More fuel does not change a result. *)
Lemma apply_more_fuel this fuel :
  forall m args (st : St) result,
    apply fuel this m args st = Some result ->
    apply (Datatypes.S fuel) this m args st = Some result.
Proof.
  induction fuel as [|n IH]; intros m args st result; [done|].
  destruct m as [f | prereqFunc originalProp w | v]; [done| |done].
  rewrite (apply_Decorated this n), (apply_Decorated this (Datatypes.S n)).
  destruct (member_get this prereqFunc) as [pre|]; [|done].
  destruct (apply n this pre [] st) as [[c st1]|] eqn:Hpre; [|done].
  rewrite (IH _ _ _ _ Hpre).
  destruct c as [[v | [v | reason |] | p] | x]; try done.
  destruct (apply n this originalProp args st1) as [[c st2]|] eqn:Horig; [|done].
  by rewrite (IH _ _ _ _ Horig).
Qed.

Lemma apply_enough_fuel this fuel extra m args (st : St) result :
  apply fuel this m args st = Some result ->
  apply (fuel + extra) this m args st = Some result.
Proof.
  intros Hresult. rewrite Nat.add_comm.
  induction extra as [|k IH]; [done|]. cbn [Nat.add]. by apply apply_more_fuel.
Qed.

Lemma includes_elem_of (l : list string) prop : includes l prop = true <-> prop ∈ l.
Proof.
  unfold includes. rewrite existsb_exists. split.
  - intros (x & Hin & Heq). apply String.eqb_eq in Heq. subst x.
    by apply list_elem_of_In.
  - intros Hin. exists prop. split; [by apply list_elem_of_In | apply String.eqb_refl].
Qed.

(** With an empty [appliedFuncs] the loop skips every property. *)
Lemma prereqWith_none_applied prereqFunc WrapperClass names proto :
  fold_left (prereqWith_step prereqFunc (Some []) WrapperClass) names proto = proto.
Proof.
  induction names as [|name names IH]; [done|].
  cbn [fold_left]. rewrite <- IH at 2. f_equal.
  unfold prereqWith_step. by destruct (String.eqb name prereqFunc).
Qed.

(** A function that is to be decorated is replaced, and the prerequisite
    is left alone. *)
Lemma prereqWith_replaces_the_applied_functions_aux
    (prereqFunc : string) (appliedFuncs : option (list string)) (WrapperClass : bool)
    proto prop m :
  NoDup proto.*1 ->
  member_get proto prop = Some m ->
  instanceof_Function (Some m) = true ->
  prop <> prereqFunc ->
  (forall l, appliedFuncs = Some l -> prop ∈ l) ->
  member_get (prereqWith prereqFunc appliedFuncs WrapperClass proto) prop
  = Some (Decorated prereqFunc m WrapperClass)
  /\ member_get (prereqWith prereqFunc appliedFuncs WrapperClass proto) prereqFunc
     = member_get proto prereqFunc.
Proof.
  intros Hnodup Hget Hfun Hne Happlied. split.
  - rewrite prereqWith_get, Hget by done. unfold decorates.
    rewrite Hfun. apply String.eqb_neq in Hne. rewrite Hne. cbn.
    destruct appliedFuncs as [l|]; [|done].
    by rewrite (proj2 (includes_elem_of l prop) (Happlied l eq_refl)).
  - rewrite prereqWith_get by done. unfold decorates.
    by rewrite String.eqb_refl.
Qed.

(** Two prototypes with the same names, pairwise distinct, and the same
    property under every name are the same. *)
Lemma member_ext proto proto' :
  proto.*1 = proto'.*1 -> NoDup proto.*1 ->
  (forall prop, member_get proto prop = member_get proto' prop) ->
  proto = proto'.
Proof.
  revert proto'. induction proto as [|[k m] proto IH]; intros [|[k' m'] proto']; cbn;
    try done.
  intros [= -> Hnames] Hnodup Hget. apply NoDup_cons in Hnodup as [Hfresh Hnodup].
  pose proof (Hget k') as Hhead. cbn in Hhead. rewrite String.eqb_refl in Hhead.
  injection Hhead as ->. f_equal. apply IH; [done..|].
  intros prop. specialize (Hget prop). cbn in Hget.
  destruct (String.eqb_spec k' prop) as [Heq | _]; [|done].
  rewrite <- Heq. clear Hget.
  destruct (member_get proto k') eqn:Hin.
  - exfalso. apply Hfresh, member_get_names. by rewrite Hin.
  - destruct (member_get proto' k') eqn:Hin'; [|done].
    exfalso. apply Hfresh. rewrite Hnames. apply member_get_names. by rewrite Hin'.
Qed.

(** On a class without accessors the decorator is a map over the
    properties. *)
Lemma prereqWith_map prereqFunc appliedFuncs WrapperClass proto :
  NoDup proto.*1 ->
  prereqWith prereqFunc appliedFuncs WrapperClass proto
  = (fun km =>
       (km.1, if decorates prereqFunc appliedFuncs km.1 (Some km.2)
              then Decorated prereqFunc km.2 WrapperClass else km.2)) <$> proto.
Proof.
  intros Hnodup. apply member_ext.
  - rewrite prereqWith_names. rewrite <- list_fmap_compose. by apply list_fmap_ext.
  - by rewrite prereqWith_names.
  - intros prop. rewrite prereqWith_get by done. clear Hnodup.
    induction proto as [|[k m] proto IH]; cbn.
    + by destruct (decorates _ _ _ _).
    + destruct (String.eqb_spec k prop) as [-> | _]; [|exact IH].
      by destruct (decorates prereqFunc appliedFuncs prop (Some m)).
Qed.

Lemma visits_decorates prereqFunc appliedFuncs prop (found : option (Member St)) :
  decorates prereqFunc appliedFuncs prop found
  = visits prereqFunc appliedFuncs prop && instanceof_Function found.
Proof. reflexivity. Qed.

Lemma property_get_app_fresh (passed rest : Class St) prop :
  prop ∉ passed.*1 -> property_get (passed ++ rest) prop = property_get rest prop.
Proof.
  induction passed as [|[k p] passed IH]; cbn; [done|].
  intros [Hne Hfresh]%not_elem_of_cons.
  destruct (String.eqb_spec k prop); [congruence | auto].
Qed.

Lemma property_set_app_fresh (passed rest : Class St) prop p0 p :
  prop ∉ passed.*1 ->
  property_set (passed ++ (prop, p0) :: rest) prop p = passed ++ (prop, p) :: rest.
Proof.
  induction passed as [|[k q] passed IH]; cbn.
  - by rewrite String.eqb_refl.
  - intros [Hne Hfresh]%not_elem_of_cons.
    destruct (String.eqb_spec k prop); [congruence|]. by rewrite IH.
Qed.

(** The loop over the names of the properties still to come, with the
    properties already passed in front. *)
Lemma prereqWith_loop_in_one_pass prereqFunc appliedFuncs WrapperClass (rest : Class St) :
  forall passed : Class St,
    NoDup (passed.*1 ++ rest.*1) ->
    prereqWith_loop prereqFunc appliedFuncs WrapperClass rest.*1 (passed ++ rest)
    = (passed ++ (in_one_pass prereqFunc appliedFuncs WrapperClass rest).1,
       (in_one_pass prereqFunc appliedFuncs WrapperClass rest).2).
Proof.
  induction rest as [|[prop p] rest IH]; intros passed Hnodup; [done|].
  assert (prop ∉ passed.*1) as Hfresh.
  { apply NoDup_app in Hnodup as (_ & Hdisjoint & _).
    intros Hin. apply (Hdisjoint prop Hin). cbn. left. }
  assert (forall p', NoDup ((passed ++ [(prop, p')]).*1 ++ rest.*1)) as Hnodup'.
  { intros p'. rewrite fmap_app. cbn. by rewrite <- app_assoc. }
  assert (forall p',
             prereqWith_loop prereqFunc appliedFuncs WrapperClass rest.*1
               (passed ++ (prop, p') :: rest)
             = (passed ++ (prop, p')
                  :: (in_one_pass prereqFunc appliedFuncs WrapperClass rest).1,
                (in_one_pass prereqFunc appliedFuncs WrapperClass rest).2)) as Hrest.
  { intros p'. rewrite (cons_middle (prop, p') passed rest), app_assoc.
    rewrite (IH _ (Hnodup' p')). by rewrite <- app_assoc. }
  cbn [fmap list_fmap fst prereqWith_loop in_one_pass].
  unfold prereqWith_turn, visits.
  destruct (String.eqb prop prereqFunc); cbn; [apply Hrest|].
  destruct appliedFuncs as [l|]; cbn;
    [destruct (includes l prop); cbn; [|apply Hrest]|].
  all: rewrite property_get_app_fresh by done; cbn; rewrite String.eqb_refl.
  all: destruct p as [[f | pre o w | v] | [x | [f | pre o w | v]]]; cbn; try done.
  all: rewrite ?property_set_app_fresh by done; apply Hrest.
Qed.

Lemma in_one_pass_names prereqFunc appliedFuncs WrapperClass (cls : Class St) :
  (in_one_pass prereqFunc appliedFuncs WrapperClass cls).1.*1 = cls.*1.
Proof.
  induction cls as [|[prop p] cls IH]; [done|]. cbn [in_one_pass].
  destruct (visits prereqFunc appliedFuncs prop); [|cbn; by rewrite IH].
  destruct p as [m | [x | m]]; [| done |];
    destruct (instanceof_Function (Some m)); cbn; by rewrite ?IH.
Qed.

Lemma in_one_pass_none_applied prereqFunc WrapperClass (cls : Class St) :
  in_one_pass prereqFunc (Some []) WrapperClass cls = (cls, None).
Proof.
  induction cls as [|[prop p] cls IH]; [done|]. cbn [in_one_pass].
  unfold visits. cbn. rewrite andb_false_r. by rewrite IH.
Qed.

Lemma data_properties_names proto : (data_properties proto).*1 = proto.*1.
Proof.
  unfold data_properties. induction proto as [|[k m] proto IH]; cbn; [done|].
  by rewrite IH.
Qed.

Lemma in_one_pass_data_properties prereqFunc appliedFuncs WrapperClass proto :
  in_one_pass prereqFunc appliedFuncs WrapperClass (data_properties proto)
  = (data_properties
       ((fun km =>
           (km.1, if decorates prereqFunc appliedFuncs km.1 (Some km.2)
                  then Decorated prereqFunc km.2 WrapperClass else km.2)) <$> proto),
     None).
Proof.
  induction proto as [|[prop m] proto IH]; [done|].
  unfold data_properties in *. cbn [fmap list_fmap fst snd in_one_pass].
  rewrite IH, visits_decorates. cbn [fst snd].
  destruct (visits prereqFunc appliedFuncs prop); cbn; [|done].
  by destruct m.
Qed.

(** No exception leaves the pass exactly when every accessor it visits
    returns something that is no function. *)
Lemma in_one_pass_completes prereqFunc appliedFuncs WrapperClass (cls : Class St) :
  (in_one_pass prereqFunc appliedFuncs WrapperClass cls).2 = None
  <-> forall prop get,
        (prop, Getter get) ∈ cls -> visits prereqFunc appliedFuncs prop = true ->
        exists m, get = inr m /\ instanceof_Function (Some m) = false.
Proof.
  induction cls as [|[prop p] cls IH].
  - split; [intros _ prop get Hin; by apply elem_of_nil in Hin | done].
  - assert ((forall prop' get,
                (prop', Getter get) ∈ cls -> visits prereqFunc appliedFuncs prop' = true ->
                exists m, get = inr m /\ instanceof_Function (Some m) = false)
            -> (forall get, p = Getter get -> visits prereqFunc appliedFuncs prop = true ->
                            exists m, get = inr m /\ instanceof_Function (Some m) = false)
            -> forall prop' get,
                (prop', Getter get) ∈ (prop, p) :: cls ->
                visits prereqFunc appliedFuncs prop' = true ->
                exists m, get = inr m /\ instanceof_Function (Some m) = false) as Hcons.
    { intros Htail Hhead prop' get [[= -> <-] | Hin]%elem_of_cons; eauto. }
    cbn [in_one_pass].
    destruct (visits prereqFunc appliedFuncs prop) eqn:Hvisits.
    + destruct p as [m | [x | m]].
      * destruct (instanceof_Function (Some m)); cbn [snd]; rewrite IH;
          (split;
           [ intros Htail; apply Hcons; [exact Htail | done]
           | intros Hall prop' get Hin; apply Hall; by apply list_elem_of_further ]).
      * split; [done|]. intros Hall.
        destruct (Hall prop (inl x) (list_elem_of_here _ _) Hvisits) as (m & [=] & _).
      * destruct (instanceof_Function (Some m)) eqn:Hfun; cbn [snd].
        -- split; [done|]. intros Hall.
           destruct (Hall prop (inr m) (list_elem_of_here _ _) Hvisits)
             as (m' & [= <-] & Hnot). congruence.
        -- rewrite IH. split.
           ++ intros Htail. apply Hcons; [exact Htail|].
              intros get [= <-] _. eauto.
           ++ intros Hall prop' get Hin. apply Hall. by apply list_elem_of_further.
    + cbn [snd]. rewrite IH. split.
      * intros Htail. apply Hcons; [exact Htail|]. congruence.
      * intros Hall prop' get Hin. apply Hall. by apply list_elem_of_further.
Qed.

(** X11. On a class with pairwise distinct property names, which may
    declare accessors without setter, the decorator walks the properties
    in order, as in one pass: every function it visits (not the
    prerequisite and, if [appliedFuncs] is given, listed there) is
    replaced, until it visits an accessor whose getter throws, which ends
    the decorator with that exception, or returns a function, which ends
    it with a [TypeError]; the functions before are then replaced and
    nothing after is touched. Names and order are kept. The decorator
    completes exactly when every accessor it visits returns something
    that is no function; with an empty [appliedFuncs] nothing is visited
    and the class is not changed; on a class without accessors it always
    completes and replaces exactly the functions it visits. *)
Theorem prereqWith_replaces_the_applied_functions
    (prereqFunc : string) (appliedFuncs : option (list string)) (WrapperClass : bool)
    (cls : Class St) :
  NoDup cls.*1 ->
  let result := prereqWith_class prereqFunc appliedFuncs WrapperClass cls in
  result = in_one_pass prereqFunc appliedFuncs WrapperClass cls
  /\ result.1.*1 = cls.*1
  /\ (result.2 = None
      <-> forall prop get,
            (prop, Getter get) ∈ cls -> visits prereqFunc appliedFuncs prop = true ->
            exists m, get = inr m /\ instanceof_Function (Some m) = false)
  /\ (appliedFuncs = Some [] -> result = (cls, None))
  /\ (forall proto,
         cls = data_properties proto ->
         result
         = (data_properties (prereqWith prereqFunc appliedFuncs WrapperClass proto), None)
         /\ (prereqWith prereqFunc appliedFuncs WrapperClass proto).*1 = proto.*1
         /\ forall prop,
              member_get (prereqWith prereqFunc appliedFuncs WrapperClass proto) prop
              = match member_get proto prop with
                | Some m =>
                    if visits prereqFunc appliedFuncs prop && instanceof_Function (Some m)
                    then Some (Decorated prereqFunc m WrapperClass)
                    else Some m
                | None => None
                end).
Proof.
  intros Hnodup result.
  assert (result = in_one_pass prereqFunc appliedFuncs WrapperClass cls) as Hpass.
  { unfold result, prereqWith_class.
    rewrite (prereqWith_loop_in_one_pass _ _ _ cls []) by done.
    by destruct (in_one_pass _ _ _ cls). }
  split; [exact Hpass|]. rewrite Hpass.
  split; [apply in_one_pass_names|].
  split; [apply in_one_pass_completes|].
  split; [intros ->; apply in_one_pass_none_applied|].
  intros proto ->.
  assert (NoDup proto.*1) as Hnodup'.
  { by rewrite data_properties_names in Hnodup. }
  split; [|split].
  - rewrite in_one_pass_data_properties. by rewrite prereqWith_map.
  - apply prereqWith_names.
  - intros prop. rewrite prereqWith_get by done.
    rewrite visits_decorates.
    destruct (member_get proto prop) as [m|]; cbn; [|by rewrite andb_false_r].
    by destruct (visits prereqFunc appliedFuncs prop && instanceof_Function (Some m)).
Qed.

(** X12. Calling a decorated method of a decorated class runs the
    prerequisite first, without arguments. If its promise resolves, the
    method runs next, on the state the prerequisite left, and the call
    returns a promise (inside the wrapper class, if one was given) that
    settles as the method completed. If its promise is rejected or never
    settles, the method does not run and the returned promise is rejected
    with the same reason or never settles. If the prerequisite throws,
    so does the call. The prerequisite itself is called as before. *)
Theorem decorated_method_runs_the_prerequisite_first
    (prereqFunc : string) (appliedFuncs : option (list string)) (WrapperClass : bool)
    proto prop (pre f : Method St) (args : list JSValue) (st : St) (extra : nat) :
  NoDup proto.*1 ->
  member_get proto prereqFunc = Some (Function pre) ->
  member_get proto prop = Some (Function f) ->
  prop <> prereqFunc ->
  (forall l, appliedFuncs = Some l -> prop ∈ l) ->
  let this := prereqWith prereqFunc appliedFuncs WrapperClass proto in
  invoke (2 + extra) this prop args st
  = Some match pre [] st with
         | (Raise x, st1) => (Raise x, st1)
         | (Return (APromise (Resolved _)), st1) =>
             let '(c, st2) := f args st1 in
             (Return (wrap WrapperClass (chained c)), st2)
         | (Return (APromise (Failed reason)), st1) =>
             (Return (wrap WrapperClass (Failed reason)), st1)
         | (Return (APromise Unsettled), st1) =>
             (Return (wrap WrapperClass Unsettled), st1)
         | (Return (Value _), st1) | (Return (Wrapper _), st1) =>
             (Raise not_a_function, st1)
         end
  /\ invoke (2 + extra) this prereqFunc args st = Some (pre args st).
Proof.
  intros Hnodup Hpre Hprop Hne Happlied this.
  destruct (prereqWith_replaces_the_applied_functions_aux
              prereqFunc appliedFuncs WrapperClass proto prop (Function f)
              Hnodup Hprop eq_refl Hne Happlied) as [Hdecorated Hsame].
  fold this in Hdecorated, Hsame. rewrite Hpre in Hsame.
  split.
  - unfold invoke. rewrite Hdecorated. apply apply_enough_fuel.
    rewrite apply_Decorated, Hsame. cbn [apply].
    destruct (pre [] st) as [[[v | [v | reason |] | p] | x] st1]; try done.
    by destruct (f args st1).
  - unfold invoke. rewrite Hsame. by apply apply_enough_fuel.
Qed.

Lemma member_get_app (fields rest : Prototype St) prop :
  member_get (fields ++ rest) prop
  = match member_get fields prop with
    | Some m => Some m
    | None => member_get rest prop
    end.
Proof.
  induction fields as [|[k m] fields IH]; cbn; [done|].
  by destruct (String.eqb k prop).
Qed.

(** A method of the class that no field of the instance hides is found
    on the instance as the class has it. *)
Lemma member_get_instance (fields proto inherited : Prototype St) prop m :
  member_get fields prop = None ->
  member_get proto prop = Some m ->
  member_get (instance fields proto inherited) prop = Some m.
Proof.
  intros Hfields Hproto. unfold instance.
  by rewrite !member_get_app, Hfields, Hproto.
Qed.

(** X13. The prerequisite is looked up on the instance: among its
    fields, then in its class, then in what the class inherits. When the
    instance has no function there under the name of the prerequisite,
    a decorated method throws a [TypeError] and does nothing else: the
    method itself is never run. When it has one, be it a field or
    inherited, that one is run first and, if its promise resolves, the
    method after it. *)
Theorem decorated_method_without_prerequisite_throws
    (prereqFunc : string) (appliedFuncs : option (list string)) (WrapperClass : bool)
    (fields proto inherited : Prototype St) prop (f : Method St)
    (args : list JSValue) (st : St) (extra : nat) :
  NoDup proto.*1 ->
  member_get fields prop = None ->
  member_get proto prop = Some (Function f) ->
  prop <> prereqFunc ->
  (forall l, appliedFuncs = Some l -> prop ∈ l) ->
  let this :=
    instance fields (prereqWith prereqFunc appliedFuncs WrapperClass proto) inherited in
  (instanceof_Function (member_get this prereqFunc) = false ->
   invoke (2 + extra) this prop args st = Some (Raise not_a_function, st))
  /\ (forall (pre : Method St) v st1,
         member_get this prereqFunc = Some (Function pre) ->
         pre [] st = (Return (APromise (Resolved v)), st1) ->
         invoke (2 + extra) this prop args st
         = Some (Return (wrap WrapperClass (chained (f args st1).1)), (f args st1).2)).
Proof.
  intros Hnodup Hfields Hprop Hne Happlied this.
  destruct (prereqWith_replaces_the_applied_functions_aux
              prereqFunc appliedFuncs WrapperClass proto prop (Function f)
              Hnodup Hprop eq_refl Hne Happlied) as [Hdecorated _].
  pose proof (member_get_instance fields _ inherited prop _ Hfields Hdecorated)
    as Hfound.
  fold this in Hfound. split.
  - intros Hpre. unfold invoke. rewrite Hfound. apply apply_enough_fuel.
    rewrite apply_Decorated.
    by destruct (member_get this prereqFunc) as [[pre | p o w | v]|].
  - intros pre v st1 Hpre Hrun. unfold invoke. rewrite Hfound.
    apply apply_enough_fuel.
    rewrite apply_Decorated, Hpre, apply_Function, Hrun. cbn beta iota.
    rewrite apply_Function. by destruct (f args st1).
Qed.

End DecoratorFacts.

(* ------------------------------------------------------------------ *)
(** ** The further properties on concrete calls *)
(* ------------------------------------------------------------------ *)

Lemma get_returns_the_item_or_not_found_witness :
  item_operations MoreExamples.get_present.1.2
  = [GetX (GetItemInput.mk "test" Examples.test_id_0 None)
       (inr (GetItemOutput.mk (Some Examples.test_item_0)))]
  /\ delivered MoreExamples.get_present.1.1
     = Some (inr (Ok.mk SuccessType.Ok (Some Examples.test_item_0))).
Proof.
  destruct (get_returns_the_item_or_not_found "test" MemTable.service
              Examples.test_id_0 false _ _ _ _
              (inr (GetItemOutput.mk (Some Examples.test_item_0)))
              (MemTable.test_table [Examples.test_item_0])
              (Examples.looked_up_test [Examples.test_item_0]) eq_refl)
    as (a & Hcall & Hdelivered).
  unfold MoreExamples.get_present.
  change (RestOnDynamoClient.call ?t ?d RestOnDynamoClient.GET ?i ?x ?c)
    with (RestOnDynamoClient.get t d i c).
  rewrite Hcall. split; [reflexivity | exact Hdelivered].
Defined.

Lemma head_projects_the_key_and_returns_no_data_witness :
  delivered MoreExamples.head_present.1.1
  = Some (inr (Ok.mk SuccessType.NoContent None))
  /\ delivered MoreExamples.head_absent.1.1
     = Some (inl (Err.mk false ErrorType.NotFound "Key not found"
                    ErrorStatusCodeRange.Client None)).
Proof.
  split.
  - destruct (head_projects_the_key_and_returns_no_data "test" MemTable.service
                Examples.test_id_0 false _ _ _ _
                (inr (GetItemOutput.mk (Some Examples.test_id_0)))
                (MemTable.test_table [Examples.test_item_0])
                (Examples.looked_up_test [Examples.test_item_0]) eq_refl)
      as (a & Hcall & Hdelivered).
    unfold MoreExamples.head_present.
    change (RestOnDynamoClient.call ?t ?d RestOnDynamoClient.HEAD ?i ?x ?c)
      with (RestOnDynamoClient.head t d i c).
    rewrite Hcall. exact Hdelivered.
  - destruct (head_projects_the_key_and_returns_no_data "test" MemTable.service
                Examples.test_id_0 false _ _ _ _
                (inr (GetItemOutput.mk None)) (MemTable.test_table [])
                (Examples.looked_up_test []) eq_refl)
      as (a & Hcall & Hdelivered).
    unfold MoreExamples.head_absent.
    change (RestOnDynamoClient.call ?t ?d RestOnDynamoClient.HEAD ?i ?x ?c)
      with (RestOnDynamoClient.head t d i c).
    rewrite Hcall. exact Hdelivered.
Defined.

Lemma writes_are_conditioned_on_the_key_witness :
  delivered MoreExamples.post_new.1.1
  = Some (inr (Ok.mk SuccessType.Created (Some Examples.test_item_0))).
Proof.
  assert (PutX (PutItemInput.mk "test" Examples.test_item_0 "attribute_not_exists(id)")
            (inr tt)
          ∈ MoreExamples.post_new.1.2) as Hin
    by (vm_compute; apply list_elem_of_further, list_elem_of_here).
  destruct (writes_are_conditioned_on_the_key "test" MemTable.service
              Examples.test_id_0 [("attr1", JSString "value1")] false
              (RestOnDynamoClient.fresh (MemTable.test_table []))
              MoreExamples.post_new.1.1 MoreExamples.post_new.1.2
              MoreExamples.post_new.2 _ _ Hin) as [Hpost _].
  exact (proj2 (Hpost eq_refl) tt eq_refl).
Defined.

Lemma patch_sends_the_update_and_returns_the_new_item_witness :
  item_operations MoreExamples.patch_present.1.2
  = [UpdateX
       (UpdateItemInput.mk "test" Examples.test_id_0 "attribute_exists(id)" "ALL_NEW"
          "SET attr2 = :attr2" [(":attr2", JSString "value2")])
       (inr (UpdateItemOutput.mk
               (Some [("attr1", JSString "value1"); ("id", JSString "test-id-0");
                      ("attr2", JSString "value2")])))]
  /\ delivered MoreExamples.patch_present.1.1
     = Some (inr (Ok.mk SuccessType.Ok
                    (Some [("attr1", JSString "value1"); ("id", JSString "test-id-0");
                           ("attr2", JSString "value2")])))
  /\ item_operations MoreExamples.patch_nothing.1.2
     = [UpdateX
          (UpdateItemInput.mk "test" Examples.test_id_0 "attribute_exists(id)" "ALL_NEW"
             "SET " [])
          (inr (UpdateItemOutput.mk (Some Examples.test_item_0)))].
Proof.
  split; [|split].
  - destruct (patch_sends_the_update_and_returns_the_new_item "test" MemTable.service
                Examples.test_id_0 [("attr2", JSString "value2")] false _ _ _ _ _
                (inr (UpdateItemOutput.mk
                        (Some [("attr1", JSString "value1"); ("id", JSString "test-id-0");
                               ("attr2", JSString "value2")])))
                (MemTable.test_table
                   [[("attr1", JSString "value1"); ("id", JSString "test-id-0");
                     ("attr2", JSString "value2")]])
                (Examples.looked_up_test [Examples.test_item_0]) eq_refl eq_refl)
      as (a & Hcall & _ & Hdelivered).
    unfold MoreExamples.patch_present.
    change (RestOnDynamoClient.call ?t ?d RestOnDynamoClient.PATCH ?i ?x ?c)
      with (RestOnDynamoClient.patch t d i x c).
    rewrite Hcall. reflexivity.
  - destruct (patch_sends_the_update_and_returns_the_new_item "test" MemTable.service
                Examples.test_id_0 [("attr2", JSString "value2")] false _ _ _ _ _
                (inr (UpdateItemOutput.mk
                        (Some [("attr1", JSString "value1"); ("id", JSString "test-id-0");
                               ("attr2", JSString "value2")])))
                (MemTable.test_table
                   [[("attr1", JSString "value1"); ("id", JSString "test-id-0");
                     ("attr2", JSString "value2")]])
                (Examples.looked_up_test [Examples.test_item_0]) eq_refl eq_refl)
      as (a & Hcall & _ & Hdelivered).
    unfold MoreExamples.patch_present.
    change (RestOnDynamoClient.call ?t ?d RestOnDynamoClient.PATCH ?i ?x ?c)
      with (RestOnDynamoClient.patch t d i x c).
    rewrite Hcall. exact Hdelivered.
  - destruct (patch_sends_the_update_and_returns_the_new_item "test" MemTable.service
                Examples.test_id_0 [] false _ _ _ _ _
                (inr (UpdateItemOutput.mk (Some Examples.test_item_0)))
                (MemTable.test_table [Examples.test_item_0])
                (Examples.looked_up_test [Examples.test_item_0]) eq_refl eq_refl)
      as (a & Hcall & _ & _).
    unfold MoreExamples.patch_nothing.
    change (RestOnDynamoClient.call ?t ?d RestOnDynamoClient.PATCH ?i ?x ?c)
      with (RestOnDynamoClient.patch t d i x c).
    rewrite Hcall. reflexivity.
Defined.

Lemma errors_delivered_by_the_verbs_witness :
  exists x e,
    x ∈ Examples.get_wrong_key.1.2
    /\ failure_of x = Some e
    /\ AWSError.message e = "The provided key element does not match the schema".
Proof.
  destruct (errors_delivered_by_the_verbs "test" MemTable.service
              RestOnDynamoClient.GET Examples.wrong_key [] false
              (RestOnDynamoClient.fresh (MemTable.test_table []))
              Examples.get_wrong_key.1.1 Examples.get_wrong_key.1.2
              Examples.get_wrong_key.2
              (Err.mk true ErrorType.BadRequest
                 "The provided key element does not match the schema"
                 ErrorStatusCodeRange.Client (Some MemTable.Validation))
              eq_refl eq_refl) as (_ & _ & _ & _ & Hbackend & _).
  destruct (Hbackend eq_refl) as (_ & x & e & Hin & Hfailure & _ & Hmsg).
  exists x, e. split; [exact Hin|]. split; [exact Hfailure|]. symmetry. exact Hmsg.
Defined.

Lemma one_lookup_then_one_operation_witness :
  (length (schema_lookups Examples.get_wrong_key.1.2) <= 1)%nat
  /\ (length (item_operations Examples.get_wrong_key.1.2) <= 1)%nat.
Proof.
  destruct (one_lookup_then_one_operation "test" MemTable.service
              RestOnDynamoClient.GET Examples.wrong_key [] false
              (RestOnDynamoClient.fresh (MemTable.test_table []))
              Examples.get_wrong_key.1.1 Examples.get_wrong_key.1.2
              Examples.get_wrong_key.2 eq_refl) as (_ & Hlookups & Hops & _).
  split; [exact Hlookups | exact Hops].
Defined.

Lemma every_call_delivers_once_witness :
  exists outcome, delivered Examples.get_with_callback.1.1 = Some outcome.
Proof.
  exact (proj1 (every_call_delivers_once "test" MemTable.service
                  RestOnDynamoClient.GET Examples.test_id_0 [] true
                  (RestOnDynamoClient.fresh (MemTable.test_table [Examples.test_item_0]))
                  Examples.get_with_callback.1.1 Examples.get_with_callback.1.2
                  Examples.get_with_callback.2 eq_refl)).
Defined.

Lemma prereqWith_replaces_the_applied_functions_witness :
  Decorator.prereqWith_class "keySchemaSync" None false Decorator.ClientClass
  = (("constructor",
      Decorator.Own (Decorator.Decorated "keySchemaSync" Decorator.a_method false))
       :: tail Decorator.ClientClass,
     Some Decorator.undefined_keys)
  /\ (Decorator.prereqWith "prereqFunc" None false Decorator.TestClass).*1
     = ["constructor"; "prereqFunc"; "f1"; "f2"].
Proof.
  split.
  - destruct (prereqWith_replaces_the_applied_functions "keySchemaSync" None false
                Decorator.ClientClass ltac:(compute_done)) as (Hpass & _).
    rewrite Hpass. reflexivity.
  - destruct (prereqWith_replaces_the_applied_functions "prereqFunc" None false
                (Decorator.data_properties Decorator.TestClass) ltac:(compute_done))
      as (_ & _ & _ & _ & Hplain).
    destruct (Hplain Decorator.TestClass eq_refl) as (_ & Hnames & _).
    exact Hnames.
Defined.

Lemma decorated_method_runs_the_prerequisite_first_witness :
  Decorator.invoke 2 (Decorator.prereqWith "prereqFunc" None false Decorator.TestClass)
    "f1" [] []
  = Some (Return (APromise (Resolved (Value (JSString "f1 call result")))),
          ["prereq"; "f1"])
  /\ Decorator.invoke 2
       (Decorator.prereqWith "prereqFunc" None false Decorator.RejectingClass) "f1" [] []
     = Some (Return (APromise (Failed (Rejection (JSString "prereqFunc rejection")))),
             ["prereq"]).
Proof.
  split.
  - exact (proj1 (decorated_method_runs_the_prerequisite_first "prereqFunc" None false
                    Decorator.TestClass "f1"
                    (Decorator.logging "prereq" "prereqFunc call result")
                    (Decorator.logging "f1" "f1 call result") [] [] 0%nat
                    ltac:(compute_done) eq_refl eq_refl ltac:(discriminate)
                    ltac:(discriminate))).
  - exact (proj1 (decorated_method_runs_the_prerequisite_first "prereqFunc" None false
                    Decorator.RejectingClass "f1" _
                    (Decorator.logging "f1" "f1 call result") [] [] 0%nat
                    ltac:(compute_done) eq_refl eq_refl ltac:(discriminate)
                    ltac:(discriminate))).
Defined.

Lemma decorated_method_without_prerequisite_throws_witness :
  Decorator.invoke 2 (Decorator.prereqWith "missing" None false Decorator.TestClass)
    "f1" [] []
  = Some (Raise Decorator.not_a_function, [])
  /\ Decorator.invoke 2
       (Decorator.instance
          [("missing", Decorator.Function (Decorator.logging "field" "field call result"))]
          (Decorator.prereqWith "missing" None false Decorator.TestClass) [])
       "f1" [] []
     = Some (Return (APromise (Resolved (Value (JSString "f1 call result")))),
             ["field"; "f1"]).
Proof.
  split.
  - exact (proj1 (decorated_method_without_prerequisite_throws "missing" None false
                    [] Decorator.TestClass [] "f1"
                    (Decorator.logging "f1" "f1 call result") [] [] 0%nat
                    ltac:(compute_done) eq_refl eq_refl ltac:(discriminate)
                    ltac:(discriminate)) eq_refl).
  - exact (proj2 (decorated_method_without_prerequisite_throws "missing" None false
                    [("missing",
                      Decorator.Function (Decorator.logging "field" "field call result"))]
                    Decorator.TestClass [] "f1"
                    (Decorator.logging "f1" "f1 call result") [] [] 0%nat
                    ltac:(compute_done) eq_refl eq_refl ltac:(discriminate)
                    ltac:(discriminate)) _ _ _ eq_refl eq_refl).
Defined.

